(** * AccessDB-browser-parser: a shallow embedding of [src/utils.ts] and
    [src/index.ts], and the properties of the Jet page / record decoder.

    Conventions.
    - A [Uint8Array] is a [list Z] of values in [0, 256).
    - A JavaScript Number is a binary64 value, [spec_float] at precision 53;
      integers read by a [DataView] are injected with [Z2F].
    - A function that can [throw] returns a [result].
    - A JavaScript object used as a dictionary ([Dico<T>]) is an association
      list kept in the order [Object.keys] reports.
    - Built-ins whose algorithm is not part of the repository ([TextDecoder],
      the host time zone, string-to-number coercion) are fields of [Platform];
      the parsers of [parsing-primitives.ts], which the sources import but do
      not contain, are fields of [Primitives]. *)

From Stdlib Require Import ZArith List String Ascii Bool Lia.
From Stdlib Require Import Floats.SpecFloat.
Import ListNotations.
Local Open Scope Z_scope.

Set Implicit Arguments.

(* ------------------------------------------------------------------ *)
(** ** Exceptions *)

Inductive error : Type :=
| RangeError                      (* DataView read out of bounds, invalid Date *)
| TypeError                       (* call or property access on undefined *)
| PrimitiveError                  (* thrown inside parsing-primitives.ts *)
| ErrFileHeader                   (* "Failed to parse DB file header..." *)
| ErrUnknownVersion               (* "Unknown database version ..." *)
| ErrNotFull                      (* "DB is not full or pageSize is wrong..." *)
| ErrCatalogFields                (* "The catalog is missing required fields" *)
| ErrCouldNotFindTable            (* "Could not find table ${name} in Database" *)
| ErrCouldNotFindOffset           (* "Could not find table ${name} offset ${o}" *)
| ErrEmptyTable                   (* "Empty table" *)
| ErrTableHeader                  (* "Failed to parse table header" *)
| ErrExpectedColumns              (* "Expected ${n} columns got ${m}" *)
| ErrNullTableColumn              (* "Failed to parse field, column not found in nullTable..." *)
| ErrColumnOffset                 (* "Column offset is bigger than the length of the record" *)
| ErrFailedParsingRecord          (* "Failed parsing record" *)
| ErrRecordMetadata               (* "Failed to parse record metadata: ..." *)
| ErrLvalUndefined                (* "LVAL type 1 memoData is undefined" *)
| ErrNullTable.                   (* "Failed to parse null table column count ..." *)

(** The outcome of a call: a value, an exception, or no outcome at all (the
    one unbounded loop of the sources, in [mergeTableData]). *)
Inductive result (A : Type) : Type :=
| Ok (a : A)
| Throw (e : error)
| Diverge.

Arguments Ok {A} a.
Arguments Throw {A} e.
Arguments Diverge {A}.

Definition bind {A B : Type} (r : result A) (k : A -> result B) : result B :=
  match r with
  | Ok a => k a
  | Throw e => Throw e
  | Diverge => Diverge
  end.

Notation "x <- r ;; k" := (bind r (fun x => k))
  (at level 61, r at next level, right associativity).

(** [try { r } catch { h }] *)
Definition try_catch {A : Type} (r : result A) (h : result A) : result A :=
  match r with
  | Throw _ => h
  | _ => r
  end.

(* ------------------------------------------------------------------ *)
(** ** Typed arrays *)

Definition bytes := list Z.

Definition len (a : bytes) : Z := Z.of_nat (List.length a).

(** Relative index of [%TypedArray%.prototype.slice] / [subarray]. *)
Definition rel_index (n i : Z) : Z :=
  if i <? 0 then Z.max (n + i) 0 else Z.min i n.

(** [a.slice(start, stop)]; [stop = None] when the argument is omitted. *)
Definition slice (a : bytes) (start : Z) (stop : option Z) : bytes :=
  let n := len a in
  let k := rel_index n start in
  let final := match stop with
               | None => n
               | Some e => rel_index n e
               end in
  firstn (Z.to_nat (final - k)) (skipn (Z.to_nat k) a).

(** [a[i]]: [None] is [undefined]. *)
Definition at_index {A : Type} (a : list A) (i : Z) : option A :=
  if i <? 0 then None else nth_error a (Z.to_nat i).

(** [a.indexOf(x)]: first position, or [-1]. *)
Fixpoint indexOf_from (a : bytes) (x : Z) (i : Z) : Z :=
  match a with
  | [] => -1
  | y :: r => if y =? x then i else indexOf_from r x (i + 1)
  end.

Definition indexOf (a : bytes) (x : Z) : Z := indexOf_from a x 0.

Definition includes (a : list Z) (x : Z) : bool :=
  existsb (Z.eqb x) a.

(* ------------------------------------------------------------------ *)
(** ** 32-bit integer operators *)

Definition ToUint32 (z : Z) : Z := z mod 2 ^ 32.

Definition ToInt32 (z : Z) : Z :=
  let u := z mod 2 ^ 32 in
  if u <? 2 ^ 31 then u else u - 2 ^ 32.

(** [a & b] *)
Definition band (a b : Z) : Z := ToInt32 (Z.land (ToInt32 a) (ToInt32 b)).

(** [a >>> n] *)
Definition ushr (a n : Z) : Z := Z.shiftr (ToUint32 a) (n mod 32).

(** [a << n] *)
Definition shl (a n : Z) : Z := ToInt32 (Z.shiftl (ToInt32 a) (n mod 32)).

(** Two's complement reading of a [w]-bit unsigned value. *)
Definition signed (w : Z) (u : Z) : Z :=
  if u <? 2 ^ (w - 1) then u else u - 2 ^ w.

(* ------------------------------------------------------------------ *)
(** ** Numbers *)

Definition number := spec_float.

Definition prec : Z := 53.
Definition emax : Z := 1024.

Definition Z2F (z : Z) : number := binary_normalize prec emax z 0 false.
Definition fadd : number -> number -> number := SFadd prec emax.
Definition fmul : number -> number -> number := SFmul prec emax.
Definition fdiv : number -> number -> number := SFdiv prec emax.

(** [x === y] on Numbers. *)
Definition feqb (x y : number) : bool := SFeqb x y.

(** [Math.floor] *)
Definition Math_floor (x : number) : number :=
  match x with
  | S754_finite s m e =>
      if 0 <=? e then x
      else Z2F (Z.shiftr (cond_Zopp s (Zpos m)) (- e))
  | _ => x
  end.

(** [x % 1]: the fractional part, with the sign of [x]. *)
Definition frem1 (x : number) : number :=
  match x with
  | S754_zero _ => x
  | S754_finite s m e =>
      if 0 <=? e then S754_zero s
      else binary_normalize prec emax
             (cond_Zopp s (Z.land (Zpos m) (Z.ones (- e)))) e s
  | _ => S754_nan
  end.

(** [ToIntegerOrInfinity], [None] standing for NaN and the infinities, which
    every caller below turns into an invalid Date. *)
Definition ToInteger (x : number) : option Z :=
  match x with
  | S754_zero _ => Some 0
  | S754_finite s m e =>
      Some (cond_Zopp s (if 0 <=? e then Z.shiftl (Zpos m) e
                         else Z.shiftr (Zpos m) (- e)))
  | _ => None
  end.

(** The value of an integral Number as a property key; [None] when the
    Number is not an integer (its key is then no page offset). *)
Definition integral (x : number) : option Z :=
  match x with
  | S754_zero _ => Some 0
  | S754_finite s m e =>
      if 0 <=? e then Some (cond_Zopp s (Z.shiftl (Zpos m) e))
      else if Z.land (Zpos m) (Z.ones (- e)) =? 0
           then Some (cond_Zopp s (Z.shiftr (Zpos m) (- e)))
           else None
  | _ => None
  end.

(* ------------------------------------------------------------------ *)
(** ** DataView *)

Definition le_uint (bs : list Z) : Z :=
  fold_right (fun b acc => b + 256 * acc) 0 bs.

(** [n] bytes at [off], or the RangeError of an out-of-bounds access. *)
Definition view (b : bytes) (off n : Z) : result (list Z) :=
  if off + n <=? len b
  then Ok (firstn (Z.to_nat n) (skipn (Z.to_nat off) b))
  else Throw RangeError.

Definition getInt8 (b : bytes) (off : Z) : result Z :=
  x <- view b off 1 ;; Ok (signed 8 (le_uint x)).
Definition getInt16 (b : bytes) (off : Z) : result Z :=
  x <- view b off 2 ;; Ok (signed 16 (le_uint x)).
Definition getInt32 (b : bytes) (off : Z) : result Z :=
  x <- view b off 4 ;; Ok (signed 32 (le_uint x)).
Definition getUint32 (b : bytes) (off : Z) : result Z :=
  x <- view b off 4 ;; Ok (le_uint x).

Definition float32_of_bits (w : Z) : number :=
  let s := Z.testbit w 31 in
  let e := Z.land (Z.shiftr w 23) 255 in
  let m := Z.land w (Z.ones 23) in
  if e =? 255 then (if m =? 0 then S754_infinity s else S754_nan)
  else if e =? 0 then binary_normalize prec emax (cond_Zopp s m) (-149) s
  else binary_normalize prec emax (cond_Zopp s (m + 2 ^ 23)) (e - 150) s.

Definition float64_of_bits (w : Z) : number :=
  let s := Z.testbit w 63 in
  let e := Z.land (Z.shiftr w 52) 2047 in
  let m := Z.land w (Z.ones 52) in
  if e =? 2047 then (if m =? 0 then S754_infinity s else S754_nan)
  else if e =? 0 then binary_normalize prec emax (cond_Zopp s m) (-1074) s
  else binary_normalize prec emax (cond_Zopp s (m + 2 ^ 52)) (e - 1075) s.

Definition getFloat32 (b : bytes) (off : Z) : result number :=
  x <- view b off 4 ;; Ok (float32_of_bits (le_uint x)).
Definition getFloat64 (b : bytes) (off : Z) : result number :=
  x <- view b off 8 ;; Ok (float64_of_bits (le_uint x)).

(* ------------------------------------------------------------------ *)
(** ** Host built-ins *)

Inductive encoding : Type := utf8 | windows1252 | utf16le.

(** What the host supplies: [new TextDecoder(e).decode(b)], the local time
    zone adjustment of ECMAScript's [LocalTZA(t, isUTC)] in milliseconds, and
    the Number a string coerces to. *)
Record Platform : Type := {
  decode : encoding -> bytes -> string;
  LocalTZA : Z -> bool -> Z;
  StringToNumber : string -> number
}.

(* ------------------------------------------------------------------ *)
(** ** Values of a parsed table *)

Inductive value : Type :=
| VUndefined
| VNull
| VBool (b : bool)
| VNum (n : number)
| VStr (s : string).

(* ------------------------------------------------------------------ *)
(** ** Date *)

Module Date.

Definition msPerDay : Z := 86400000.
Definition msPerHour : Z := 3600000.
Definition msPerMinute : Z := 60000.
Definition msPerSecond : Z := 1000.

Definition Day (t : Z) : Z := t / msPerDay.
Definition TimeWithinDay (t : Z) : Z := t mod msPerDay.

(** Day number (days since 1970-01-01) of a proleptic Gregorian date. *)
Definition days_from_civil (y m d : Z) : Z :=
  let y := if m <=? 2 then y - 1 else y in
  let era := y / 400 in
  let yoe := y - era * 400 in
  let doy := (153 * (if 2 <? m then m - 3 else m + 9) + 2) / 5 + d - 1 in
  let doe := yoe * 365 + yoe / 4 - yoe / 100 + doy in
  era * 146097 + doe - 719468.

(** Year, month (1..12) and day of the month of a day number. *)
Definition civil_from_days (z : Z) : Z * Z * Z :=
  let z := z + 719468 in
  let era := z / 146097 in
  let doe := z - era * 146097 in
  let yoe := (doe - doe / 1460 + doe / 36524 - doe / 146096) / 365 in
  let y := yoe + era * 400 in
  let doy := doe - (365 * yoe + yoe / 4 - yoe / 100) in
  let mp := (5 * doy + 2) / 153 in
  let d := doy - (153 * mp + 2) / 5 + 1 in
  let m := if mp <? 10 then mp + 3 else mp - 9 in
  (if m <=? 2 then y + 1 else y, m, d).

Definition YearFromTime (t : Z) : Z := fst (fst (civil_from_days (Day t))).
(** 0-based, as in ECMAScript. *)
Definition MonthFromTime (t : Z) : Z := snd (fst (civil_from_days (Day t))) - 1.
Definition DateFromTime (t : Z) : Z := snd (civil_from_days (Day t)).
Definition HourFromTime (t : Z) : Z := (t / msPerHour) mod 24.
Definition MinFromTime (t : Z) : Z := (t / msPerMinute) mod 60.
Definition SecFromTime (t : Z) : Z := (t / msPerSecond) mod 60.
Definition msFromTime (t : Z) : Z := t mod msPerSecond.

(** [MakeDay(year, month, date)] on integers; [month] is 0-based. *)
Definition MakeDay (year month date : Z) : Z :=
  let ym := year + month / 12 in
  let mn := month mod 12 in
  days_from_civil ym (mn + 1) 1 + date - 1.

Definition MakeTime (h m s milli : Z) : Z :=
  h * msPerHour + m * msPerMinute + s * msPerSecond + milli.

Definition MakeDate (day time : Z) : Z := day * msPerDay + time.

(** [None] is the invalid Date (time value NaN). *)
Definition TimeClip (t : Z) : option Z :=
  if 8640000000000000 <? Z.abs t then None else Some t.

Section Local.
Variable P : Platform.

Definition LocalTime (t : Z) : Z := t + LocalTZA P t true.
Definition UTC (t : Z) : Z := t - LocalTZA P t false.

(** [date.getDate()] *)
Definition getDate (tv : option Z) : number :=
  match tv with
  | None => S754_nan
  | Some t => Z2F (DateFromTime (LocalTime t))
  end.

(** [date.setDate(dt)] *)
Definition setDate (tv : option Z) (dt : number) : option Z :=
  match tv, ToInteger dt with
  | Some t, Some d =>
      let t := LocalTime t in
      let newDate :=
        MakeDate (MakeDay (YearFromTime t) (MonthFromTime t) d)
                 (TimeWithinDay t) in
      TimeClip (UTC newDate)
  | _, _ => None
  end.

(** [date.setHours(hour, min, sec)] *)
Definition setHours (tv : option Z) (hour min sec : number) : option Z :=
  match tv, ToInteger hour, ToInteger min, ToInteger sec with
  | Some t, Some h, Some m, Some s =>
      let t := LocalTime t in
      let milli := msFromTime t in
      let date := MakeDate (Day t) (MakeTime h m s milli) in
      TimeClip (UTC date)
  | _, _, _, _ => None
  end.
End Local.

Definition digit (d : Z) : ascii := ascii_of_nat (Z.to_nat (48 + d)).

(** The [w] low decimal digits of [n], most significant first. *)
Fixpoint digits (w : nat) (n : Z) : string :=
  match w with
  | O => EmptyString
  | S w' => (digits w' (n / 10)%Z
             ++ String (digit (n mod 10)%Z) EmptyString)%string
  end.

Definition year_string (y : Z) : string :=
  if (0 <=? y) && (y <=? 9999) then digits 4 y
  else ((if (y <? 0)%Z then "-" else "+") ++ digits 6 (Z.abs y))%string.

(** [date.toISOString()] *)
Definition toISOString (tv : option Z) : result string :=
  match tv with
  | None => Throw RangeError
  | Some t =>
      Ok (year_string (YearFromTime t) ++ "-"
          ++ digits 2 (MonthFromTime t + 1)%Z ++ "-"
          ++ digits 2 (DateFromTime t) ++ "T"
          ++ digits 2 (HourFromTime t) ++ ":"
          ++ digits 2 (MinFromTime t) ++ ":"
          ++ digits 2 (SecFromTime t) ++ "."
          ++ digits 3 (msFromTime t) ++ "Z")%string
  end.

(** [new Date("1899-12-30T12:00:00Z")] *)
Definition epoch : option Z :=
  TimeClip (MakeDate (days_from_civil 1899 12 30) (MakeTime 12 0 0 0)).

End Date.

(* ------------------------------------------------------------------ *)
(** ** utils.ts *)

Module DataType.
Definition Boolean : Z := 1.
Definition Int8 : Z := 2.
Definition Int16 : Z := 3.
Definition Int32 : Z := 4.
Definition Money : Z := 5.
Definition Float32 : Z := 6.
Definition Float64 : Z := 7.
Definition DateTime : Z := 8.
Definition Binary : Z := 9.
Definition Text : Z := 10.
Definition Memo : Z := 12.
Definition GUID : Z := 15.
Definition Bit96Bytes17 : Z := 16.
Definition Complex : Z := 18.
End DataType.

Inductive Version : Type := VERSION_3 | VERSION_4 | VERSION_5 | VERSION_2010.

(** The numeric value of the [ALL_VERSIONS] member. *)
Definition version_number (v : Version) : Z :=
  match v with
  | VERSION_3 => 3
  | VERSION_4 => 4
  | VERSION_5 => 5
  | VERSION_2010 => 2010
  end.

Definition hex_digit (d : Z) : ascii :=
  ascii_of_nat (Z.to_nat (if d <? 10 then 48 + d else 87 + d)).

(** [("00" + b.toString(16)).slice(-2)] for a byte [b]. *)
Definition hex2 (b : Z) : string :=
  String (hex_digit (b / 16)) (String (hex_digit (b mod 16)) EmptyString).

Definition join_hex (bs : list Z) : string :=
  fold_right (fun b acc => (hex2 b ++ acc)%string) EmptyString bs.

Definition list_slice {A : Type} (l : list A) (i j : nat) : list A :=
  firstn (j - i) (skipn i l).

Definition uuidStringify (b : bytes) : string :=
  (join_hex (list_slice b 0 4) ++ "-"
   ++ join_hex (list_slice b 4 6) ++ "-"
   ++ join_hex (list_slice b 6 8) ++ "-"
   ++ join_hex (list_slice b 8 10) ++ "-"
   ++ join_hex (list_slice b 10 16))%string.

Section Utils.
Variable P : Platform.

(** [parseType(dataType, buffer, length, version)]; [length = None] when
    the caller passes [undefined]. *)
Definition parseType (dataType : Z) (buffer : bytes) (length : option Z)
           (version : Version) : result value :=
  match dataType with
  | 2 (* Int8 *) =>
      x <- getInt8 buffer 0 ;; Ok (VNum (Z2F x))
  | 3 (* Int16 *) =>
      x <- getInt16 buffer 0 ;; Ok (VNum (Z2F x))
  | 4 (* Int32 *) | 18 (* Complex *) =>
      x <- getInt32 buffer 0 ;; Ok (VNum (Z2F x))
  | 6 (* Float32 *) =>
      x <- getFloat32 buffer 0 ;; Ok (VNum x)
  | 7 (* Float64 *) =>
      x <- getFloat64 buffer 0 ;; Ok (VNum x)
  | 5 (* Money *) =>
      low <- getUint32 buffer 0 ;;
      high <- getInt32 buffer 4 ;;
      let combined := fadd (Z2F low) (fmul (Z2F high) (Z2F 4294967296)) in
      Ok (VNum (fdiv combined (Z2F 10000)))
  | 8 (* DateTime *) =>
      daysSinceEpoch <- getFloat64 buffer 0 ;;
      let daysPassed := Math_floor daysSinceEpoch in
      let hoursPassedDecimal := frem1 daysSinceEpoch in
      let hours := Math_floor (fmul hoursPassedDecimal (Z2F 24)) in
      let minutes :=
        Math_floor (fmul (frem1 (fmul hoursPassedDecimal (Z2F 24))) (Z2F 60)) in
      let seconds :=
        Math_floor
          (fmul (frem1 (fmul (frem1 (fmul hoursPassedDecimal (Z2F 24)))
                             (Z2F 60)))
                (Z2F 60)) in
      let date := Date.epoch in
      let date := Date.setDate P date (fadd (Date.getDate P date) daysPassed) in
      let date := Date.setHours P date hours minutes seconds in
      s <- Date.toISOString date ;; Ok (VStr s)
  | 9 (* Binary *) =>
      Ok (VStr (decode P utf8 (slice buffer 0 length)))
  | 15 (* GUID *) =>
      Ok (VStr (uuidStringify (slice buffer 0 (Some 16))))
  | 16 (* Bit96Bytes17 *) =>
      Ok (VStr (decode P utf8 (slice buffer 0 (Some 17))))
  | 10 (* Text *) =>
      if 3 <? version_number version then
        let first := match at_index buffer 0, at_index buffer 1 with
                     | Some 254, Some 255 => true
                     | _, _ => false
                     end in
        let second := match at_index buffer 0, at_index buffer 1 with
                      | Some 255, Some 254 => true
                      | _, _ => false
                      end in
        if first || second
        then Ok (VStr (decode P windows1252 (slice buffer 2 None)))
        else Ok (VStr (decode P utf16le buffer))
      else Ok (VStr (decode P utf8 buffer))
  | _ => Ok (VStr "")
  end.

End Utils.

(** A host in the UTC time zone whose decoder maps each byte to the
    character of that code (exact on 7-bit input under utf-8 and
    windows-1252), used to run the decoder on concrete records. *)
Definition char_of_byte (b : Z) : ascii := ascii_of_nat (Z.to_nat b).

Definition utc_host : Platform := {|
  decode := fun _ b =>
    fold_right (fun x acc => String (char_of_byte x) acc) EmptyString b;
  LocalTZA := fun _ _ => 0;
  StringToNumber := fun _ => S754_nan
|}.

(** The same host [minutes] east of UTC all year round. *)
Definition zone_host (minutes : Z) : Platform := {|
  decode := decode utc_host;
  LocalTZA := fun _ _ => minutes * 60000;
  StringToNumber := StringToNumber utc_host
|}.

(** [r] is the normal return of the string [s]. *)
Definition yields_string (r : result value) (s : string) : bool :=
  match r with
  | Ok (VStr x) => String.eqb x s
  | _ => false
  end.

(* ------------------------------------------------------------------ *)
(** ** Objects used as dictionaries *)

Definition Dico (A : Type) : Type := list (string * A).

(** Properties every object literal inherits from [Object.prototype]. *)
Definition proto_keys : list string :=
  [ "constructor"; "__defineGetter__"; "__defineSetter__"; "hasOwnProperty";
    "__lookupGetter__"; "__lookupSetter__"; "isPrototypeOf";
    "propertyIsEnumerable"; "toString"; "valueOf"; "__proto__";
    "toLocaleString" ]%string.

Definition is_proto_key (k : string) : bool :=
  existsb (String.eqb k) proto_keys.

Fixpoint parse_digits (s : string) (acc : Z) : option Z :=
  match s with
  | EmptyString => Some acc
  | String c r =>
      let d := Z.of_nat (nat_of_ascii c) - 48 in
      if (0 <=? d) && (d <=? 9) then parse_digits r (10 * acc + d) else None
  end.

(** The array index a key denotes, if it is a canonical numeric string below
    2^32 - 1: such keys come first in [Object.keys], in ascending order. *)
Definition array_index (k : string) : option Z :=
  match k with
  | EmptyString => None
  | String "0" EmptyString => Some 0
  | String "0" _ => None
  | _ => match parse_digits k 0 with
         | Some n => if n <? 2 ^ 32 - 1 then Some n else None
         | None => None
         end
  end.

(** Decimal digits of a non-negative integer, most significant first. *)
Fixpoint decimal (fuel : nat) (n : Z) (acc : string) : string :=
  match fuel with
  | O => acc
  | S f =>
      let acc := String (Date.digit (n mod 10)) acc in
      if n / 10 =? 0 then acc else decimal f (n / 10) acc
  end.

(** [String(n)] for an integer Number below 10^21 in magnitude. *)
Definition string_of_Z (n : Z) : string :=
  let a := Z.abs n in
  let s := decimal (S (Z.to_nat (Z.log2 a))) a EmptyString in
  if n <? 0 then String "-" s else s.

Inductive lookup (A : Type) : Type :=
| Own (a : A)        (* an own property *)
| Inherited          (* a member of Object.prototype: defined, not an array *)
| Undefined.

Arguments Own {A} a.
Arguments Inherited {A}.
Arguments Undefined {A}.

Section Dico.
Variable A : Type.

Fixpoint own_get (d : Dico A) (k : string) : option A :=
  match d with
  | [] => None
  | (k', a) :: r => if String.eqb k k' then Some a else own_get r k
  end.

(** [d[k]] *)
Definition dico_get (d : Dico A) (k : string) : lookup A :=
  match own_get d k with
  | Some a => Own a
  | None => if is_proto_key k then Inherited else Undefined
  end.

Fixpoint dico_replace (d : Dico A) (k : string) (a : A) : Dico A :=
  match d with
  | [] => []
  | (k', a') :: r =>
      if String.eqb k k' then (k', a) :: r else (k', a') :: dico_replace r k a
  end.

Fixpoint dico_insert_index (d : Dico A) (n : Z) (k : string) (a : A) : Dico A :=
  match d with
  | [] => [(k, a)]
  | (k', a') :: r =>
      match array_index k' with
      | Some n' => if n' <? n then (k', a') :: dico_insert_index r n k a
                   else (k, a) :: d
      | None => (k, a) :: d
      end
  end.

(** [d[k] = a] for [k] other than ["__proto__"]. *)
Definition dico_set (d : Dico A) (k : string) (a : A) : Dico A :=
  match own_get d k with
  | Some _ => dico_replace d k a
  | None => match array_index k with
            | Some n => dico_insert_index d n k a
            | None => d ++ [(k, a)]
            end
  end.

(** [Object.keys(d)] *)
Definition keys (d : Dico A) : list string := map fst d.
End Dico.

(** Objects keyed by a page offset. All keys are Numbers turned into strings,
    so a key is identified with its integer; [categorizePages] creates them
    in ascending order, which is also the order [Object.keys] reports. *)
Definition PageMap (A : Type) : Type := list (Z * A).

Fixpoint page_get {A : Type} (m : PageMap A) (k : Z) : option A :=
  match m with
  | [] => None
  | (k', a) :: r => if k =? k' then Some a else page_get r k
  end.

Fixpoint page_update {A : Type} (m : PageMap A) (k : Z) (a : A) : PageMap A :=
  match m with
  | [] => [(k, a)]
  | (k', a') :: r => if k =? k' then (k', a) :: r else (k', a') :: page_update r k a
  end.

(* ------------------------------------------------------------------ *)
(** ** parsing-primitives.ts: the shapes index.ts reads *)

(** A column descriptor of [parseTableData], before its name is attached. *)
Record RawColumn : Type := {
  raw_type : Z;
  raw_fixedLength : bool;
  raw_fixedOffset : Z;
  raw_columnIndex : Z;
  raw_columnID : Z
}.

Record Column : Type := {
  colNameStr : string;
  type : Z;
  fixedLength : bool;          (* columnFlags.fixedLength *)
  fixedOffset : Z;
  columnIndex : Z;
  columnID : Z
}.

Record TableHeader : Type := {
  columnCount : Z;
  variableColumns : Z;
  realIndexCount : Z;
  tDefHeaderEnd : Z;
  nextPagePtr : Z              (* TDEF_header.nextPagePtr *)
}.

Record TDefHeader : Type := {
  tdef_nextPagePtr : Z;
  headerEnd : Z
}.

Record TableData : Type := {
  column : list RawColumn;
  columnNames : list string
}.

Record DataPageHeader : Type := {
  owner : Z;
  recordOffsets : list Z
}.

Record RelativeMetadata : Type := {
  variableLengthFieldCount : Z;
  variableLengthJumpTable : list Z;
  variableLengthFieldOffsets : list Z;
  varLenCount : Z;
  relativeMetadataEnd : Z
}.

Record Memo : Type := {
  memoLength : Z;
  recordPointer : Z;
  memoEnd : Z
}.

(** The imports of index.ts from parsing-primitives.ts. Each may throw. *)
Record Primitives : Type := {
  ACCESSHEADER_parse : bytes -> result Z;           (* head.jetVersion *)
  TDEF_HEADER_parse : bytes -> result TDefHeader;
  MEMO_parse : bytes -> result Memo;
  parseDataPageHeader : bytes -> Version -> result DataPageHeader;
  parseTableHead : bytes -> Version -> result TableHeader;
  parseTableData : bytes -> Z -> Z -> Version -> result TableData;
  parseRelativeObjectMetadataStruct :
    bytes -> option Z -> Version -> result RelativeMetadata
}.

(* ------------------------------------------------------------------ *)
(** ** index.ts *)

Definition PAGE_SIZE_V3 : Z := 2048.
Definition PAGE_SIZE_V4 : Z := 4096.
Definition SYSTEM_TABLE_FLAGS : list Z := [-2147483648; -2; 2147483648; 2].

Record TableObject : Type := {
  tvalue : bytes;                 (* value *)
  linkedPages : list bytes
}.

(** The accumulator [this.parsedTable]. *)
Definition ParsedTable : Type := Dico (list value).

(** [if (pt[name] === undefined) pt[name] = [];] *)
Definition ensure_column (pt : ParsedTable) (name : string) : ParsedTable :=
  match dico_get pt name with
  | Undefined => dico_set pt name []
  | _ => pt
  end.

(** [pt[name]!.push(v)] *)
Definition array_push (pt : ParsedTable) (name : string) (v : value)
  : result ParsedTable :=
  match dico_get pt name with
  | Own arr => Ok (dico_set pt name (arr ++ [v]))
  | _ => Throw TypeError
  end.

(** The two statements together, as every emission site writes them. *)
Definition push_value (pt : ParsedTable) (name : string) (v : value)
  : result ParsedTable :=
  array_push (ensure_column pt name) name v.

(** The null table of [parseRow]: one boolean per bit of the trailing
    [nullTableLen] bytes, least significant bit first. *)
Definition null_table_of (nullTableBuffer : bytes) : list bool :=
  map (fun i : nat =>
         let i := Z.of_nat i in
         negb (band (nth (Z.to_nat (i / 8)) nullTableBuffer 0)
                    (ushr (ushr (shl 1 (i mod 8)) 0) 0) =? 0))
      (seq 0 (List.length nullTableBuffer * 8)).

(** The fields of an [AccessTable] that its methods only read. *)
Record AccessTable : Type := {
  version : Version;
  pageSize : Z;
  dataPages : PageMap bytes;
  tableDefs : PageMap bytes;
  table : option TableObject;     (* [None]: constructed from [undefined] *)
  columns : Dico Column;
  tableHeader : TableHeader
}.

(** A slice bound computed from a possibly undefined offset:
    [undefined + n] is NaN, which [slice] reads as 0. *)
Definition bound (o : option Z) (add : Z) : Z :=
  match o with
  | Some z => z + add
  | None => 0
  end.

Definition option_Z_eqb (a b : option Z) : bool :=
  match a, b with
  | Some x, Some y => x =? y
  | None, None => true
  | _, _ => false
  end.

(** [m.relativeMetadataEnd += d] *)
Definition shift_end (m : RelativeMetadata) (d : Z) : RelativeMetadata :=
  {| variableLengthFieldCount := variableLengthFieldCount m;
     variableLengthJumpTable := variableLengthJumpTable m;
     variableLengthFieldOffsets := variableLengthFieldOffsets m;
     varLenCount := varLenCount m;
     relativeMetadataEnd := relativeMetadataEnd m + d |}.

Section Table.
Variable P : Platform.
Variable Prim : Primitives.

(** [mergeTableData]: [fuel] bounds the length of the TDEF chain followed;
    a chain longer than the number of TDEF pages revisits a page and the
    [while] loop never ends. A pointer to no TDEF page hands [undefined] to
    the header parser, which throws. *)
Fixpoint mergeTableData_loop (fuel : nat) (tableDefs : PageMap bytes)
         (pageSize : Z) (parsedHeader : TDefHeader) (data : bytes)
  : result bytes :=
  if tdef_nextPagePtr parsedHeader =? 0 then Ok data
  else match fuel with
       | O => Diverge
       | S fuel' =>
           match page_get tableDefs (tdef_nextPagePtr parsedHeader * pageSize) with
           | None => Throw TypeError
           | Some tbl =>
               parsedHeader' <- TDEF_HEADER_parse Prim tbl ;;
               mergeTableData_loop fuel' tableDefs pageSize parsedHeader'
                 (data ++ slice tbl (headerEnd parsedHeader') None)
           end
       end.

Definition mergeTableData (tableDefs : PageMap bytes) (pageSize : Z)
           (firstPage : Z) : result bytes :=
  match page_get tableDefs (firstPage * pageSize) with
  | None => Throw TypeError
  | Some tbl =>
      parsedHeader <- TDEF_HEADER_parse Prim tbl ;;
      mergeTableData_loop (List.length tableDefs) tableDefs pageSize
        parsedHeader (slice tbl (headerEnd parsedHeader) None)
  end.

(** [columns.forEach((c, i) => { c.colNameStr = colNames[i].colNameStr })] *)
Fixpoint name_columns (cs : list RawColumn) (names : list string)
  : result (list Column) :=
  match cs, names with
  | [], _ => Ok []
  | _ :: _, [] => Throw TypeError
  | c :: cs', n :: names' =>
      r <- name_columns cs' names' ;;
      Ok ({| colNameStr := n; type := raw_type c;
             fixedLength := raw_fixedLength c;
             fixedOffset := raw_fixedOffset c;
             columnIndex := raw_columnIndex c;
             columnID := raw_columnID c |} :: r)
  end.

(** [Math.min(...columns.map((c) => c.columnIndex))]; with no column the
    result is not used. *)
Definition min_index (cs : list Column) : Z :=
  match cs with
  | [] => 0
  | c :: r => fold_left (fun m x => Z.min m (columnIndex x)) r (columnIndex c)
  end.

(** [getTableColumns] *)
Definition getTableColumns (version : Version) (pageSize : Z)
           (tableDefs : PageMap bytes) (table : option TableObject)
  : result (Dico Column * TableHeader) :=
  parsed <-
    match
      (match table with
       | None => Throw TypeError
       | Some t =>
           tableHeader <- parseTableHead Prim (tvalue t) version ;;
           let mergedData := slice (tvalue t) (tDefHeaderEnd tableHeader) None in
           mergedData <-
             (if nextPagePtr tableHeader =? 0 then Ok mergedData
              else more <- mergeTableData tableDefs pageSize
                             (nextPagePtr tableHeader) ;;
                   Ok (mergedData ++ more)) ;;
           parsedData <- parseTableData Prim mergedData
                           (realIndexCount tableHeader)
                           (columnCount tableHeader) version ;;
           Ok (tableHeader, parsedData)
       end)
    with
    | Throw _ => Throw ErrTableHeader
    | r => r
    end ;;
  let '(tableHeader, parsedData) := parsed in
  cols <- name_columns (column parsedData) (columnNames parsedData) ;;
  let offset := min_index cols in
  let columnDict :=
    fold_left (fun d x => dico_set d (string_of_Z (columnIndex x - offset)) x)
              cols [] in
  let columnDict :=
    if Z.of_nat (List.length (keys columnDict)) =? Z.of_nat (List.length cols)
    then columnDict
    else fold_left (fun d x => dico_set d (string_of_Z (columnID x)) x)
                   cols columnDict in
  if Z.of_nat (List.length (keys columnDict)) =? columnCount tableHeader
  then Ok (columnDict, tableHeader)
  else Throw ErrExpectedColumns.

(** [new AccessTable(table, version, pageSize, dataPages, tableDefs)] *)
Definition new_AccessTable (tbl : option TableObject) (v : Version)
           (ps : Z) (dp td : PageMap bytes) : result AccessTable :=
  ch <- getTableColumns v ps td tbl ;;
  Ok {| version := v; pageSize := ps; dataPages := dp; tableDefs := td;
        table := tbl; columns := fst ch; tableHeader := snd ch |}.

Section Methods.
Variable this : AccessTable.

(** [getOverflowRecord]: [Ok None] is the [undefined] return. *)
Definition getOverflowRecord (recordPointer : Z) : result (option bytes) :=
  let recordOffset := ushr (band recordPointer 255) 0 in
  let pageNum := ushr recordPointer 8 in
  match page_get (dataPages this) (pageNum * pageSize this) with
  | None => Ok None
  | Some recordPage =>
      parsedData <- parseDataPageHeader Prim recordPage (version this) ;;
      let offsets := recordOffsets parsedData in
      if len offsets <? recordOffset then Ok None
      else
        let flagged (o : option Z) : option Z :=
          match o with
          | Some s => if ushr (band s 32768) 0 =? 0 then Some s
                      else Some (ushr (band s 4095) 0)
          | None => None
          end in
        let start := flagged (at_index offsets recordOffset) in
        if recordOffset =? 0
        then Ok (Some (slice recordPage (bound start 0) None))
        else
          let stop := flagged (at_index offsets (recordOffset - 1)) in
          Ok (Some (slice recordPage (bound start 0) stop))
  end.

(** [parseFixedLengthData] *)
Definition parseFixedLengthData (originalRecord : bytes) (column : Column)
           (nullTable : list bool) (pt : ParsedTable) : result ParsedTable :=
  let columnName := colNameStr column in
  if Z.of_nat (List.length nullTable) <=? columnID column
  then Throw ErrNullTableColumn
  else
    let pt := ensure_column pt columnName in
    match at_index nullTable (columnID column) with
    | Some true => array_push pt columnName VNull
    | _ =>
        if len originalRecord <=? fixedOffset column
        then Throw ErrColumnOffset
        else
          let record := slice originalRecord (fixedOffset column) None in
          parsedType <- parseType P (type column) record None (version this) ;;
          array_push pt columnName parsedType
    end.

(** [parseDynamicLengthRecordsMetadata]: [Ok None] is the [undefined]
    return that makes [parseRow] drop the row. *)
Definition parseDynamicLengthRecordsMetadata (reverseRecord originalRecord : bytes)
           (nullTableLength : Z) : result (option RelativeMetadata) :=
  if 3 <? version_number (version this) then
    let reverseRecord := slice reverseRecord (nullTableLength + 1) None in
    let reverseRecord :=
      match reverseRecord with
      | 0 :: _ :: _ => slice reverseRecord 1 None
      | _ => reverseRecord
      end in
    m <- parseRelativeObjectMetadataStruct Prim reverseRecord None (version this) ;;
    Ok (Some m)
  else
    let variableLengthJumpTableCNT := (len originalRecord - 1) / 256 in
    let reverseRecord := slice reverseRecord nullTableLength None in
    m <- try_catch
           (m <- parseRelativeObjectMetadataStruct Prim reverseRecord
                   (Some variableLengthJumpTableCNT) (version this) ;;
            Ok (shift_end m nullTableLength))
           (Throw ErrFailedParsingRecord) ;;
    if variableLengthFieldCount m =? variableColumns (tableHeader this)
    then Ok (Some m)
    else
      (* tmpBuffer[0]: the low byte of setUint16(0, variableColumns, true) *)
      let tmpBuffer0 := variableColumns (tableHeader this) mod 256 in
      let metadataStart := indexOf reverseRecord tmpBuffer0 in
      if negb (metadataStart =? 1) && (metadataStart <? 10) then
        let reverseRecord := slice reverseRecord metadataStart None in
        m <- try_catch
               (parseRelativeObjectMetadataStruct Prim reverseRecord
                  (Some variableLengthJumpTableCNT) (version this))
               (Throw ErrRecordMetadata) ;;
        Ok (Some (shift_end m metadataStart))
      else Ok None.
End Methods.
End Table.

Section Rows.
Variable P : Platform.
Variable Prim : Primitives.
Variable this : AccessTable.

(** [parseMemo] *)
Definition parseMemo (relativeObjData : bytes) (column : Column)
  : result value :=
  parsedMemo <- MEMO_parse Prim relativeObjData ;;
  md <-
    (if negb (band (memoLength parsedMemo) 2147483648 =? 0) then
       Ok (slice relativeObjData (memoEnd parsedMemo) None, DataType.Text)
     else if negb (band (memoLength parsedMemo) 1073741824 =? 0) then
       tmp <- getOverflowRecord Prim this (recordPointer parsedMemo) ;;
       match tmp with
       | None => Throw ErrLvalUndefined
       | Some memoData => Ok (memoData, DataType.Text)
       end
     else Ok (relativeObjData, type column)) ;;
  parseType P (snd md) (fst md) (Some (len (fst md))) (version this).

(** One iteration of the [for] loop of [parseDynamicLengthData]: the
    column at position [i] of the variable-length column map, with the
    running [jumpTableAddition]. Returns the new addition and table. *)
Definition dynamic_step (originalRecord : bytes)
           (relativeRecordMetadata : RelativeMetadata)
           (nullTable : list bool) (i : Z) (column : Column)
           (jumpTableAddition : Z) (pt : ParsedTable)
  : result (Z * ParsedTable) :=
  let relativeOffsets := variableLengthFieldOffsets relativeRecordMetadata in
  let colName := colNameStr column in
  if (columnID column <? Z.of_nat (List.length nullTable))
     && match at_index nullTable (columnID column) with
        | Some true => true
        | _ => false
        end
  then
    pt <- push_value pt colName VNull ;;
    Ok (jumpTableAddition, pt)
  else
    let jumpTableAddition :=
      if (version_number (version this) =? 3)
         && includes (variableLengthJumpTable relativeRecordMetadata) i
      then ushr (jumpTableAddition + 256) 0
      else jumpTableAddition in
    let relStart := at_index relativeOffsets i in
    let relEnd :=
      if i + 1 =? len relativeOffsets
      then Some (varLenCount relativeRecordMetadata)
      else at_index relativeOffsets (i + 1) in
    let mask (o : option Z) : option Z :=
      match o with
      | Some z => if len originalRecord <? z
                  then Some (ushr (band z 255) 0) else o
      | None => None
      end in
    let relEnd :=
      if 3 <? version_number (version this) then mask relEnd else relEnd in
    let relStart :=
      if 3 <? version_number (version this) then mask relStart else relStart in
    if option_Z_eqb relStart relEnd then
      pt <- push_value pt colName (VStr "") ;;
      Ok (jumpTableAddition, pt)
    else
      let relativeObjData :=
        slice originalRecord (bound relStart jumpTableAddition)
              (Some (bound relEnd jumpTableAddition)) in
      parsedType <-
        (if type column =? DataType.Memo then
           try_catch (parseMemo relativeObjData column)
                     (Ok (VStr (decode P utf8 relativeObjData)))
         else parseType P (type column) relativeObjData
                        (Some (len relativeObjData)) (version this)) ;;
      pt <- push_value pt colName parsedType ;;
      Ok (jumpTableAddition, pt).

Fixpoint dynamic_loop (originalRecord : bytes)
         (relativeRecordMetadata : RelativeMetadata)
         (nullTable : list bool) (cols : list (string * Column)) (i : Z)
         (jumpTableAddition : Z) (pt : ParsedTable) : result ParsedTable :=
  match cols with
  | [] => Ok pt
  | (_, column) :: rest =>
      st <- dynamic_step originalRecord relativeRecordMetadata nullTable
              i column jumpTableAddition pt ;;
      dynamic_loop originalRecord relativeRecordMetadata nullTable rest
                   (i + 1) (fst st) (snd st)
  end.

(** [parseDynamicLengthData] *)
Definition parseDynamicLengthData (originalRecord : bytes)
           (relativeRecordMetadata : RelativeMetadata)
           (relativeRecordsColumnMap : Dico Column) (nullTable : list bool)
           (pt : ParsedTable) : result ParsedTable :=
  dynamic_loop originalRecord relativeRecordMetadata nullTable
               relativeRecordsColumnMap 0 0 pt.

(** The first loop of [parseRow]: fixed-length columns are decoded in key
    order, the others collected into [relativeRecordsColumnMap]. *)
Fixpoint fixed_loop (record : bytes) (nullTable : list bool)
         (cols : list (string * Column)) (rel : Dico Column)
         (pt : ParsedTable) : result (Dico Column * ParsedTable) :=
  match cols with
  | [] => Ok (rel, pt)
  | (i, column) :: rest =>
      if negb (fixedLength column)
      then fixed_loop record nullTable rest (dico_set rel i column) pt
      else
        pt <- parseFixedLengthData P this record column nullTable pt ;;
        fixed_loop record nullTable rest rel pt
  end.

Definition nullTableLen_of (h : TableHeader) : Z := (columnCount h + 7) / 8.

(** [parseRow] *)
Definition parseRow (record : bytes) (pt : ParsedTable) : result ParsedTable :=
  let originalRecord := record in
  let reverseRecord := rev record in
  let nullTableLen := nullTableLen_of (tableHeader this) in
  if negb (nullTableLen =? 0) && (nullTableLen <? len originalRecord) then
    let nullTableBuffer := slice record (len record - nullTableLen) None in
    let nullTable := null_table_of nullTableBuffer in
    let record :=
      if 3 <? version_number (version this)
      then slice record 2 None else slice record 1 None in
    st <- fixed_loop record nullTable (columns this) [] pt ;;
    let '(relativeRecordsColumnMap, pt) := st in
    metadata <- parseDynamicLengthRecordsMetadata Prim this reverseRecord
                  originalRecord nullTableLen ;;
    match metadata with
    | None => Ok pt
    | Some metadata =>
        parseDynamicLengthData originalRecord metadata
                               relativeRecordsColumnMap nullTable pt
    end
  else Throw ErrNullTable.

(** The inner loop of [parse] over the record offsets of one data page. *)
Fixpoint record_loop (originalData : bytes) (offsets : list Z)
         (lastOffset : option Z) (pt : ParsedTable) : result ParsedTable :=
  match offsets with
  | [] => Ok pt
  | recOffset :: rest =>
      if negb (ushr (band recOffset 32768) 0 =? 0) then
        record_loop originalData rest (Some (ushr (band recOffset 4095) 0)) pt
      else if negb (ushr (band recOffset 16384) 0 =? 0) then
        let recPtrOffset := ushr (band recOffset 4095) 0 in
        let overflowRecPtrBuffer :=
          slice originalData recPtrOffset (Some (recPtrOffset + 4)) in
        overflowRecPtr <- getUint32 overflowRecPtrBuffer 0 ;;
        record <- getOverflowRecord Prim this overflowRecPtr ;;
        pt <- match record with
              | Some record => parseRow record pt
              | None => Ok pt
              end ;;
        record_loop originalData rest (Some recPtrOffset) pt
      else
        let record :=
          match lastOffset with
          | None | Some 0 => slice originalData recOffset None
          | Some lo => slice originalData recOffset (Some lo)
          end in
        pt <- parseRow record pt ;;
        record_loop originalData rest (Some recOffset) pt
  end.

Fixpoint page_loop (pages : list bytes) (pt : ParsedTable) : result ParsedTable :=
  match pages with
  | [] => Ok pt
  | dataChunk :: rest =>
      parsedData <- parseDataPageHeader Prim dataChunk (version this) ;;
      pt <- record_loop dataChunk (recordOffsets parsedData) None pt ;;
      page_loop rest pt
  end.

(** [parse], started on the accumulator [pt] ([{}] right after
    construction). [linkedPages] is always an array, so the
    [createEmptyTable] branch is never taken on a defined table. *)
Definition parse (pt : ParsedTable) : result ParsedTable :=
  match table this with
  | None => Throw TypeError
  | Some t => page_loop (linkedPages t) pt
  end.
End Rows.

(* ------------------------------------------------------------------ *)
(** ** utils.ts: page classification *)

Definition TABLE_PAGE_MAGIC : bytes := [2; 1].
Definition DATA_PAGE_MAGIC : bytes := [1; 1].

Fixpoint compare_elements (a b : bytes) : Z :=
  match a, b with
  | x :: a', y :: b' => if x =? y then compare_elements a' b' else x - y
  | _, _ => 0
  end.

Definition compareUint8Arrays (a b : bytes) : Z :=
  if len a =? len b then compare_elements a b else len a - len b.

(** [categorizePages]: the pair [(tableDefs, dataPages)] the constructor
    keeps of the returned triple. *)
Definition categorizePages (dbData : bytes) (pageSize : Z)
  : result (PageMap bytes * PageMap bytes) :=
  if len dbData mod pageSize =? 0 then
    let pages : PageMap bytes :=
      map (fun k : nat =>
             let i := Z.of_nat k * pageSize in
             (i, slice dbData i (Some (i + pageSize))))
          (seq 0 (Z.to_nat (len dbData / pageSize))) in
    let is_magic (m : bytes) (pg : Z * bytes) : bool :=
      compareUint8Arrays m (slice (snd pg) 0 (Some (len m))) =? 0 in
    let dataPages := filter (is_magic DATA_PAGE_MAGIC) pages in
    let tableDefs :=
      filter (fun pg => negb (is_magic DATA_PAGE_MAGIC pg)
                        && is_magic TABLE_PAGE_MAGIC pg) pages in
    Ok (tableDefs, dataPages)
  else Throw ErrNotFull.

(* ------------------------------------------------------------------ *)
(** ** index.ts: the parser facade *)

(** [tablesMapping]: an object keyed by table names read from the file.
    Assigning [null] to ["__proto__"] detaches [Object.prototype]; any other
    primitive assigned to it is ignored while the prototype is attached. *)
Record Catalog : Type := {
  entries : Dico value;
  has_proto : bool
}.

Definition catalog_get (c : Catalog) (k : string) : lookup value :=
  match own_get (entries c) k with
  | Some a => Own a
  | None => if has_proto c && is_proto_key k then Inherited else Undefined
  end.

Definition catalog_set (c : Catalog) (k : string) (v : value) : Catalog :=
  if has_proto c && String.eqb k "__proto__" then
    match v with
    | VNull => {| entries := entries c; has_proto := false |}
    | _ => c
    end
  else {| entries := dico_set (entries c) k v; has_proto := has_proto c |}.

Record Line : Type := {
  data : Dico value;
  rowNumber : Z
}.

Record AccessParser : Type := {
  dbData : bytes;
  p_tableDefs : PageMap bytes;          (* tableDefs *)
  p_dataPages : PageMap bytes;          (* dataPages *)
  tablesWithData : PageMap TableObject;
  p_version : Version;                  (* version *)
  p_pageSize : Z;                       (* pageSize *)
  catalog : Catalog
}.

(** [x === n] for a value [x] and an integer literal [n]. *)
Definition is_number (x : option value) (n : Z) : bool :=
  match x with
  | Some (VNum f) => feqb f (Z2F n)
  | _ => false
  end.

(** [typeof x === "string"] *)
Definition is_string (x : value) : option string :=
  match x with
  | VStr s => Some s
  | _ => None
  end.

Definition or_undefined (x : option value) : value :=
  match x with
  | Some v => v
  | None => VUndefined
  end.

(** The loop of [parseCatalog] over [names]; [i] is the value of the
    counter before the iteration. *)
Fixpoint catalog_loop (names types flags ids : list value) (i : Z)
         (tablesMapping : Catalog) : Catalog :=
  match names with
  | [] => tablesMapping
  | tableName :: rest =>
      match is_string tableName with
      | None => catalog_loop rest types flags ids i tablesMapping
      | Some tableName =>
          let i := i + 1 in
          let tablesMapping :=
            if is_number (at_index types i) 1 then
              if negb (existsb (fun f => is_number (at_index flags i) f)
                               SYSTEM_TABLE_FLAGS)
                 && is_number (at_index flags i) 0
              then catalog_set tablesMapping tableName
                               (or_undefined (at_index ids i))
              else tablesMapping
            else tablesMapping in
          catalog_loop rest types flags ids i tablesMapping
      end
  end.

(** The Number a catalog entry times [pageSize] yields, as a page-map key;
    [None] when it is NaN or not an integer, which is the key of no page. *)
Definition offset_key (P : Platform) (v : lookup value) (pageSize : Z)
  : option Z :=
  let times (n : number) := integral (fmul n (Z2F pageSize)) in
  match v with
  | Own VNull => times (Z2F 0)
  | Own (VBool b) => times (Z2F (if b then 1 else 0))
  | Own (VNum n) => times n
  | Own (VStr s) => times (StringToNumber P s)
  | _ => None
  end.

(** Methods of [AccessParser]: they run on the object and may assign its
    fields. *)
Definition Method (A : Type) : Type := AccessParser -> result A * AccessParser.

Definition ret {A : Type} (a : A) : Method A := fun this => (Ok a, this).

Definition lift {A : Type} (r : result A) : Method A := fun this => (r, this).

Definition bindM {A B : Type} (m : Method A) (k : A -> Method B) : Method B :=
  fun this =>
    match m this with
    | (Ok a, this') => k a this'
    | (Throw e, this') => (Throw e, this')
    | (Diverge, this') => (Diverge, this')
    end.

(** [this.f] *)
Definition read {A : Type} (f : AccessParser -> A) : Method A :=
  fun this => (Ok (f this), this).

(** [this.f = ...] *)
Definition assign (upd : AccessParser -> AccessParser) : Method unit :=
  fun this => (Ok tt, upd this).

Notation "x <<- m ;; k" := (bindM m (fun x => k))
  (at level 61, m at next level, right associativity).

Section Parser.
Variable P : Platform.
Variable Prim : Primitives.

Definition set_version (v : Version) (this : AccessParser) : AccessParser :=
  {| dbData := dbData this; p_tableDefs := p_tableDefs this;
     p_dataPages := p_dataPages this; tablesWithData := tablesWithData this;
     p_version := v; p_pageSize := p_pageSize this; catalog := catalog this |}.

Definition set_pageSize (s : Z) (this : AccessParser) : AccessParser :=
  {| dbData := dbData this; p_tableDefs := p_tableDefs this;
     p_dataPages := p_dataPages this; tablesWithData := tablesWithData this;
     p_version := p_version this; p_pageSize := s; catalog := catalog this |}.

Definition set_pages (td dp : PageMap bytes) (this : AccessParser)
  : AccessParser :=
  {| dbData := dbData this; p_tableDefs := td; p_dataPages := dp;
     tablesWithData := tablesWithData this; p_version := p_version this;
     p_pageSize := p_pageSize this; catalog := catalog this |}.

Definition set_tablesWithData (t : PageMap TableObject) (this : AccessParser)
  : AccessParser :=
  {| dbData := dbData this; p_tableDefs := p_tableDefs this;
     p_dataPages := p_dataPages this; tablesWithData := t;
     p_version := p_version this; p_pageSize := p_pageSize this;
     catalog := catalog this |}.

Definition set_catalog (c : Catalog) (this : AccessParser) : AccessParser :=
  {| dbData := dbData this; p_tableDefs := p_tableDefs this;
     p_dataPages := p_dataPages this; tablesWithData := tablesWithData this;
     p_version := p_version this; p_pageSize := p_pageSize this;
     catalog := c |}.

(** [parseFileHeader] *)
Definition parseFileHeader : Method unit :=
  d <<- read dbData ;;
  version <<- lift (try_catch (ACCESSHEADER_parse Prim d) (Throw ErrFileHeader)) ;;
  if includes [1; 2; 3] version then
    _ <<- (if version =? 1 then assign (set_version VERSION_4)
           else if version =? 2 then assign (set_version VERSION_5)
           else if version =? 3 then assign (set_version VERSION_2010)
           else ret tt) ;;
    assign (set_pageSize PAGE_SIZE_V4)
  else if negb (version =? 0) then lift (Throw ErrUnknownVersion)
  else ret tt.

(** The loop of [linkTablesToData] over the data pages. *)
Fixpoint link_loop (version : Version) (pageSize : Z)
         (tableDefs : PageMap bytes) (pages : PageMap bytes)
         (tablesWithData : PageMap TableObject)
  : result (PageMap TableObject) :=
  match pages with
  | [] => Ok tablesWithData
  | (_, data) :: rest =>
      match parseDataPageHeader Prim data version with
      | Diverge => Diverge
      | Throw _ => link_loop version pageSize tableDefs rest tablesWithData
      | Ok parsedDP =>
          let pageOffset := owner parsedDP * pageSize in
          match page_get tableDefs pageOffset with
          | None => link_loop version pageSize tableDefs rest tablesWithData
          | Some tablePageValue =>
              let t := match page_get tablesWithData pageOffset with
                       | Some t => t
                       | None => {| tvalue := tablePageValue; linkedPages := [] |}
                       end in
              link_loop version pageSize tableDefs rest
                (page_update tablesWithData pageOffset
                   {| tvalue := tvalue t;
                      linkedPages := linkedPages t ++ [data] |})
          end
      end
  end.

(** [linkTablesToData] *)
Definition linkTablesToData : Method (PageMap TableObject) :=
  dp <<- read p_dataPages ;;
  td <<- read p_tableDefs ;;
  v <<- read p_version ;;
  ps <<- read p_pageSize ;;
  lift (link_loop v ps td dp []).

(** [parseCatalog] *)
Definition parseCatalog : Method Catalog :=
  twd <<- read tablesWithData ;;
  ps <<- read p_pageSize ;;
  v <<- read p_version ;;
  dp <<- read p_dataPages ;;
  td <<- read p_tableDefs ;;
  let catalogPage := page_get twd (2 * ps) in
  accessTable <<- lift (new_AccessTable Prim catalogPage v ps dp td) ;;
  catalog <<- lift (parse P Prim accessTable []) ;;
  match dico_get catalog "Name", dico_get catalog "Type",
        dico_get catalog "Flags", dico_get catalog "Id" with
  | Own names, Own types, Own flags, Own ids =>
      ret (catalog_loop names types flags ids (-1)
             {| entries := []; has_proto := true |})
  | _, _, _, _ => lift (Throw ErrCatalogFields)
  end.

(** [new AccessParser(dbData)]: field initialisers, then the constructor
    body. *)
Definition construct (d : bytes) : Method unit :=
  fun _ =>
    (_ <<- parseFileHeader ;;
     d <<- read dbData ;;
     ps <<- read p_pageSize ;;
     pages <<- lift (categorizePages d ps) ;;
     _ <<- assign (set_pages (fst pages) (snd pages)) ;;
     twd <<- linkTablesToData ;;
     _ <<- assign (set_tablesWithData twd) ;;
     c <<- parseCatalog ;;
     assign (set_catalog c))
      {| dbData := d; p_tableDefs := []; p_dataPages := [];
         tablesWithData := []; p_version := VERSION_3;
         p_pageSize := PAGE_SIZE_V3;
         catalog := {| entries := []; has_proto := true |} |}.

(** [parseTableUnformatted] *)
Definition parseTableUnformatted (tableName : string) : Method ParsedTable :=
  c <<- read catalog ;;
  ps <<- read p_pageSize ;;
  let tableOffset := catalog_get c tableName in
  match tableOffset with
  | Undefined | Own VUndefined => lift (Throw ErrCouldNotFindTable)
  | _ =>
      let tableOffset := offset_key P tableOffset ps in
      twd <<- read tablesWithData ;;
      let table := match tableOffset with
                   | Some o => page_get twd o
                   | None => None
                   end in
      match table with
      | None =>
          td <<- read p_tableDefs ;;
          match (match tableOffset with
                 | Some o => page_get td o
                 | None => None
                 end) with
          | None => lift (Throw ErrCouldNotFindOffset)
          | Some _ => lift (Throw ErrEmptyTable)
          end
      | Some _ =>
          v <<- read p_version ;;
          dp <<- read p_dataPages ;;
          td <<- read p_tableDefs ;;
          accessTable <<- lift (new_AccessTable Prim table v ps dp td) ;;
          lift (parse P Prim accessTable [])
      end
  end.

(** The rows [parseTable] builds from the column arrays. *)
Definition lines_of (table : ParsedTable) : list Line :=
  let fields := keys table in
  match fields with
  | [] => []
  | f0 :: _ =>
      let column_of (f : string) : list value :=
        match own_get table f with
        | Some arr => arr
        | None => []
        end in
      let linesNumber := List.length (column_of f0) in
      map (fun i : nat =>
             {| data :=
                  fold_left
                    (fun line field =>
                       dico_set line field
                                (or_undefined (nth_error (column_of field) i)))
                    fields [];
                rowNumber := Z.of_nat i + 1 |})
          (seq 0 linesNumber)
  end.

(** [parseTable] *)
Definition parseTable (name : string) : Method (list Line) :=
  table <<- parseTableUnformatted name ;;
  ret (lines_of table).

(** [getTables] *)
Definition getTables : Method (list string) :=
  c <<- read catalog ;;
  ret (keys (entries c)).

(** [getVersion] *)
Definition getVersion : Method Z :=
  v <<- read p_version ;;
  ret (version_number v).
End Parser.

(* ------------------------------------------------------------------ *)
(** ** A reference instance of the primitives *)

Module JetLayout.

Definition getUint16 (b : bytes) (off : Z) : result Z :=
  x <- view b off 2 ;; Ok (le_uint x).

Fixpoint words16 (l : list Z) : list Z :=
  match l with
  | lo :: hi :: r => (lo + 256 * hi) :: words16 r
  | _ => []
  end.

(** 16-bit fields of a reversed record read high byte first. *)
Fixpoint words16_rev (l : list Z) : list Z :=
  match l with
  | hi :: lo :: r => (lo + 256 * hi) :: words16_rev r
  | _ => []
  end.

Definition dataPageHeader (page : bytes) (v : Version) : result DataPageHeader :=
  let count_at := match v with VERSION_3 => 8 | _ => 12 end in
  o <- getUint32 page 4 ;;
  n <- getUint16 page count_at ;;
  raw <- view page (count_at + 2) (2 * n) ;;
  Ok {| owner := o; recordOffsets := words16 raw |}.

Definition relativeObjectMetadata (buffer : bytes) (jumpTables : option Z)
           (v : Version) : result RelativeMetadata :=
  match v with
  | VERSION_3 =>
      let j := match jumpTables with Some j => j | None => 0 end in
      c <- view buffer 0 1 ;;
      let count := le_uint c in
      jt <- view buffer 1 j ;;
      offs <- view buffer (1 + j) count ;;
      e <- view buffer (1 + j + count) 1 ;;
      Ok {| variableLengthFieldCount := count;
            variableLengthJumpTable := jt;
            variableLengthFieldOffsets := offs;
            varLenCount := le_uint e;
            relativeMetadataEnd := 2 + j + count |}
  | _ =>
      c <- view buffer 0 2 ;;
      let count := le_uint (rev c) in
      offs <- view buffer 2 (2 * count) ;;
      e <- view buffer (2 + 2 * count) 2 ;;
      Ok {| variableLengthFieldCount := count;
            variableLengthJumpTable := [];
            variableLengthFieldOffsets := words16_rev offs;
            varLenCount := le_uint (rev e);
            relativeMetadataEnd := 4 + 2 * count |}
  end.

Definition memo (buffer : bytes) : result Memo :=
  l <- getUint32 buffer 0 ;;
  p <- getUint32 buffer 4 ;;
  _ <- getUint32 buffer 8 ;;
  Ok {| memoLength := l; recordPointer := p; memoEnd := 12 |}.

Definition accessHeader (buffer : bytes) : result Z := getUint32 buffer 20.

(** Modelled from the spec: parsing-primitives.ts is not among the
    sources. The spec names what each parser yields: a data-page header
    with a page owner and record offsets (4.5), the trailing
    variable-length metadata made of a field count, field offsets and, on
    Jet 3, a jump table (4.7), the 12-byte memo header (4.8) and the
    version code of the file header (4.3). This instance lays those fields
    out at the positions of the Jet format, little-endian. The spec gives
    no layout for the table-definition parsers, which fail here. The
    instance only serves to run the decoder on concrete pages and records:
    every general statement below holds for all [Primitives]. *)
Definition primitives : Primitives := {|
  ACCESSHEADER_parse := accessHeader;
  TDEF_HEADER_parse := fun _ => Throw PrimitiveError;
  MEMO_parse := memo;
  parseDataPageHeader := dataPageHeader;
  parseTableHead := fun _ _ => Throw PrimitiveError;
  parseTableData := fun _ _ _ _ => Throw PrimitiveError;
  parseRelativeObjectMetadataStruct := relativeObjectMetadata
|}.

End JetLayout.

(* ------------------------------------------------------------------ *)
(** ** The vocabulary of the specification *)

(** The trailing null bitmap of a record: its last [nullBytes] bytes. *)
Definition null_bitmap (record : bytes) (nullBytes : Z) : bytes :=
  slice record (len record - nullBytes) None.

(** Bit [i] of a bitmap, least significant bit first across its bytes; a
    position outside the bitmap holds no set bit. *)
Definition bitmap_bit (bitmap : bytes) (i : Z) : bool :=
  (0 <=? i) && (i <? 8 * len bitmap)
  && Z.testbit (nth (Z.to_nat (i / 8)) bitmap 0) (i mod 8).


(** The errors whose message reads "Could not find table ...". *)
Definition UnknownTable (e : error) : Prop :=
  e = ErrCouldNotFindTable \/ e = ErrCouldNotFindOffset.

(** Pushing a list of (column, value) emissions in order. *)
Fixpoint emit_all (es : list (Column * value)) (pt : ParsedTable)
  : result ParsedTable :=
  match es with
  | [] => Ok pt
  | (c, v) :: rest => pt <- push_value pt (colNameStr c) v ;; emit_all rest pt
  end.

(** A name is listed from a user entry when some catalog row with that
    name has Type 1 and Flags 0. *)
Definition from_user_entry (names types flags : list value) (name : string)
  : Prop :=
  exists k : Z,
    at_index names k = Some (VStr name)
    /\ is_number (at_index types k) 1 = true
    /\ is_number (at_index flags k) 0 = true.

(** The variable-length column map the first loop of [parseRow] builds. *)
Definition variable_map (cols : list (string * Column)) (rel : Dico Column)
  : Dico Column :=
  fold_left (fun rel ic => if fixedLength (snd ic) then rel
                           else dico_set rel (fst ic) (snd ic))
            cols rel.

(** The Number the literal [1.2345] denotes (0x3FF3C083126E978D). *)
Definition number_1_2345 : number := S754_finite false 5559693739988877 (-52).

(* ------------------------------------------------------------------ *)
(** ** Concrete records and pages *)

Module Example.

(** The Float64 encodings of 0.0 and 1.5. *)
Definition float64_zero : bytes := [0; 0; 0; 0; 0; 0; 0; 0].
Definition float64_one_and_half : bytes := [0; 0; 0; 0; 0; 0; 248; 63].

Definition money_bytes : bytes := [0; 212; 48; 0; 0; 0; 0; 0].
Definition money_12345 : bytes := [57; 48; 0; 0; 0; 0; 0; 0].

Definition age : Column :=
  {| colNameStr := "age"; type := DataType.Int16; fixedLength := true;
     fixedOffset := 0; columnIndex := 0; columnID := 0 |}.

Definition name : Column :=
  {| colNameStr := "name"; type := DataType.Text; fixedLength := false;
     fixedOffset := 0; columnIndex := 1; columnID := 1 |}.

Definition flag : Column :=
  {| colNameStr := "active"; type := DataType.Boolean; fixedLength := true;
     fixedOffset := 0; columnIndex := 0; columnID := 0 |}.

(** A Jet 3 table [People(age INT16, name TEXT)] over the given data
    pages. *)
Definition people (linked : list bytes) (pages : PageMap bytes) : AccessTable :=
  {| version := VERSION_3; pageSize := PAGE_SIZE_V3;
     dataPages := pages; tableDefs := [];
     table := Some {| tvalue := []; linkedPages := linked |};
     columns := [("0"%string, age); ("1"%string, name)];
     tableHeader := {| columnCount := 2; variableColumns := 1;
                       realIndexCount := 0; tDefHeaderEnd := 0;
                       nextPagePtr := 0 |} |}.

(** A Jet 3 table with the single fixed column [age]. *)
Definition ages : AccessTable :=
  {| version := VERSION_3; pageSize := PAGE_SIZE_V3;
     dataPages := []; tableDefs := []; table := None;
     columns := [("0"%string, age)];
     tableHeader := {| columnCount := 1; variableColumns := 0;
                       realIndexCount := 0; tDefHeaderEnd := 0;
                       nextPagePtr := 0 |} |}.

(** A Jet 4 table with the single Boolean column [active]. *)
Definition flags : AccessTable :=
  {| version := VERSION_4; pageSize := PAGE_SIZE_V4;
     dataPages := []; tableDefs := []; table := None;
     columns := [("0"%string, flag)];
     tableHeader := {| columnCount := 1; variableColumns := 0;
                       realIndexCount := 0; tDefHeaderEnd := 0;
                       nextPagePtr := 0 |} |}.

(** Rows of [ages]: column count, age = 23, end of data, no variable
    field, null bitmap. The two differ in bit 0 of the bitmap only. *)
Definition age_row_bit_set : bytes := [1; 23; 0; 3; 0; 1].
Definition age_row_bit_clear : bytes := [1; 23; 0; 3; 0; 0].

(** Rows of [people]. (23, "John"): column count, age, name, end of data,
    offset of name, field count, null bitmap. *)
Definition john : bytes := [2; 23; 0; 74; 111; 104; 110; 7; 3; 1; 0].

(** (23, "John") with the bitmap as the format writes it for a row whose
    two columns both hold a value: bits 0 and 1 set. *)
Definition john_present : bytes := [2; 23; 0; 74; 111; 104; 110; 7; 3; 1; 3].

(** (1, "BillBill") with the field count damaged (5 for 1); in the reversed
    record, after the null bitmap, the byte 1 first occurs at position 12. *)
Definition damaged : bytes :=
  [2; 1; 0; 66; 105; 108; 108; 66; 105; 108; 108; 11; 3; 5; 0].

(** (56, "Bill") with the field count damaged (5 for 1) and no byte 1
    anywhere before the null bitmap. *)
Definition damaged_no_match : bytes :=
  [2; 56; 0; 66; 105; 108; 108; 7; 3; 5; 0].

(** variableColumns = 1, count read as 5, and the byte 1 at position 2 of
    the reversed record, followed by 7: the two-byte encoding [01 00] of
    variableColumns occurs nowhere. *)
Definition damaged_low_byte_only : bytes :=
  [2; 56; 0; 66; 105; 108; 108; 7; 7; 1; 9; 5; 0].

(** A Jet 3 data page owned by TDEF page [o] holding the given records,
    first record last in the page. *)
Definition le16 (n : Z) : bytes := [n mod 256; n / 256].

Fixpoint place (records : list bytes) (stop : Z) : bytes * bytes :=
  match records with
  | [] => ([], [])
  | r :: rest =>
      let start := stop - len r in
      let '(offs, body) := place rest start in
      (le16 start ++ offs, body ++ r)
  end.

Definition data_page (o : Z) (records : list bytes) : bytes :=
  let '(offs, body) := place records PAGE_SIZE_V3 in
  let head := [1; 1; 0; 0; o; 0; 0; 0] ++ le16 (Z.of_nat (List.length records))
              ++ offs in
  head ++ repeat 0 (Z.to_nat (PAGE_SIZE_V3 - len head - len body)) ++ body.

End Example.

Module Catalogs.

(** Two catalog rows: a user table whose Name is null, then the system
    table MSysACEs (Flags 0x80000000 read as a signed 32-bit integer). *)
Definition entry_names : list value := [VNull; VStr "MSysACEs"].
Definition entry_types : list value := [VNum (Z2F 1); VNum (Z2F 1)].
Definition entry_flags : list value := [VNum (Z2F 0); VNum (Z2F (-2147483648))].
Definition entry_ids : list value := [VNum (Z2F 7); VNum (Z2F 3)].

Definition empty : Catalog := {| entries := []; has_proto := true |}.

(** A data page whose record count (0xFFFF) exceeds what a page holds. *)
Definition broken_page : bytes :=
  [1; 1; 0; 0; 3; 0; 0; 0; 255; 255] ++ repeat 0 2038.

Definition tdef_page : bytes := [2; 1] ++ repeat 0 2046.

(** A Jet 3 parser state: one TDEF page at page 3, one data page owned by
    page 9, and the catalog [c]. *)
Definition parser (c : Catalog) : AccessParser :=
  {| dbData := [];
     p_tableDefs := [(6144, tdef_page)];
     p_dataPages := [(2048, Example.data_page 9 [Example.john])];
     tablesWithData := [];
     p_version := VERSION_3;
     p_pageSize := PAGE_SIZE_V3;
     catalog := c |}.

Definition people_catalog : Catalog :=
  {| entries := [("People"%string, VNum (Z2F 3))]; has_proto := true |}.

End Catalogs.

Module Tables.

(** (56, "Bill") with the field count damaged (5 for 1); the bytes 01 00,
    the encoding of variableColumns, sit at position 1 of the reversed
    record. *)
Definition damaged_at_one : bytes :=
  [2; 56; 0; 66; 105; 108; 108; 7; 3; 0; 1; 5; 0].

Definition people_page : bytes :=
  Example.data_page 3 [Example.john; Example.damaged].

Definition people_header : TableHeader :=
  {| columnCount := 2; variableColumns := 1; realIndexCount := 0;
     tDefHeaderEnd := 0; nextPagePtr := 0 |}.

Definition raw (c : Column) : RawColumn :=
  {| raw_type := type c; raw_fixedLength := fixedLength c;
     raw_fixedOffset := fixedOffset c; raw_columnIndex := columnIndex c;
     raw_columnID := columnID c |}.

(** The reference primitives with a table-definition parser that answers
    with the definition of [People(age INT16, name TEXT)] for any page. *)
Definition people_primitives : Primitives :=
  {| ACCESSHEADER_parse := JetLayout.accessHeader;
     TDEF_HEADER_parse := fun _ => Throw PrimitiveError;
     MEMO_parse := JetLayout.memo;
     parseDataPageHeader := JetLayout.dataPageHeader;
     parseTableHead := fun _ _ => Ok people_header;
     parseTableData := fun _ _ _ _ =>
       Ok {| column := [raw Example.age; raw Example.name];
             columnNames := ["age"%string; "name"%string] |};
     parseRelativeObjectMetadataStruct := JetLayout.relativeObjectMetadata |}.

(** A Jet 3 parser state whose table People, defined at page 3, owns the
    data page [people_page]. *)
Definition people_db : AccessParser :=
  {| dbData := [];
     p_tableDefs := [(6144, Catalogs.tdef_page)];
     p_dataPages := [(2048, people_page)];
     tablesWithData :=
       [(6144, {| tvalue := Catalogs.tdef_page;
                  linkedPages := [people_page] |})];
     p_version := VERSION_3;
     p_pageSize := PAGE_SIZE_V3;
     catalog := Catalogs.people_catalog |}.

End Tables.

(* ------------------------------------------------------------------ *)
(** ** Vocabulary for the further properties *)

(** The [n] little-endian bytes of the integer [z], as stored on disk. *)
Fixpoint le_bytes (n : nat) (z : Z) : bytes :=
  match n with
  | O => []
  | S n' => z mod 256 :: le_bytes n' (z / 256)
  end.

(** The bytes [parseType] reads through the DataView for a type code. *)
Definition fixed_width (dataType : Z) : option Z :=
  match dataType with
  | 2 => Some 1
  | 3 => Some 2
  | 4 | 18 | 6 => Some 4
  | 7 | 5 | 8 => Some 8
  | _ => None
  end.

(** [pg] starts with the magic bytes [m]. *)
Definition has_magic (m pg : bytes) : Prop := exists rest, pg = m ++ rest.

(** The page of [dbData] at byte offset [k]. *)
Definition page_at (dbData : bytes) (pageSize k : Z) : bytes :=
  slice dbData k (Some (k + pageSize)).

(** [k] is the offset of a page of a buffer of [n] bytes. *)
Definition page_offset (n pageSize k : Z) : Prop :=
  exists i : Z, 0 <= i /\ k = i * pageSize /\ k < n.

Definition all_bytes (b : bytes) : Prop := Forall (fun x => 0 <= x < 256) b.

Definition unhex_digit (c : ascii) : Z :=
  let n := Z.of_nat (nat_of_ascii c) in
  if n <? 58 then n - 48 else n - 87.

Fixpoint unhex_pairs (cs : list ascii) : list Z :=
  match cs with
  | hi :: lo :: r => (16 * unhex_digit hi + unhex_digit lo) :: unhex_pairs r
  | _ => []
  end.

(** The bytes a 36-character GUID string was printed from. *)
Definition guid_bytes (s : string) : list Z :=
  let cs := list_ascii_of_string s in
  unhex_pairs (firstn 8 cs ++ firstn 4 (skipn 9 cs) ++ firstn 4 (skipn 14 cs)
               ++ firstn 4 (skipn 19 cs) ++ skipn 24 cs).

(** The array a parsed table holds for a column name ([[]] when it has
    none). *)
Definition column_values (pt : ParsedTable) (name : string) : list value :=
  match own_get pt name with
  | Some arr => arr
  | None => []
  end.

Definition named (name : string) (c : Column) : bool :=
  String.eqb (colNameStr c) name.

(** The values a list of emissions holds for a column name, in order. *)
Definition values_for (name : string) (es : list (Column * value))
  : list value :=
  map snd (filter (fun cv => named name (fst cv)) es).

(** How many fixed-length, respectively variable-length, columns of a table
    carry the name. *)
Definition fixed_named (this : AccessTable) (name : string) : nat :=
  List.length (filter (fun c => fixedLength c && named name c)
                      (map snd (columns this))).

Definition variable_named (this : AccessTable) (name : string) : nat :=
  List.length (filter (fun c => negb (fixedLength c) && named name c)
                      (map snd (columns this))).

(** The record offset marks a deleted record (bit 0x8000). *)
Definition deleted (recOffset : Z) : bool :=
  negb (ushr (band recOffset 32768) 0 =? 0).

(** The record slots of the pages that are not marked deleted, as the
    data-page header parser reports them. *)
Fixpoint live_slots (Prim : Primitives) (v : Version) (pages : list bytes)
  : nat :=
  match pages with
  | [] => 0
  | pg :: rest =>
      match parseDataPageHeader Prim pg v with
      | Ok h => List.length (filter (fun o => negb (deleted o))
                                    (recordOffsets h))
      | _ => 0
      end + live_slots Prim v rest
  end.

(** The arrays of [pt'] are those of [pt] extended by [rows] decoded rows of
    the table [this], [kept] of which were complete. *)
Definition grown (this : AccessTable) (pt pt' : ParsedTable)
           (rows kept : nat) : Prop :=
  (kept <= rows)%nat
  /\ (version this <> VERSION_3 -> kept = rows)
  /\ forall name : string,
      List.length (column_values pt' name)
      = (List.length (column_values pt name)
         + rows * fixed_named this name + kept * variable_named this name)%nat.


(* ------------------------------------------------------------------ *)
(** ** A small database file *)

Module Database.

Definition id_column : RawColumn :=
  {| raw_type := DataType.Int32; raw_fixedLength := true;
     raw_fixedOffset := 0; raw_columnIndex := 0; raw_columnID := 0 |}.

Definition type_column : RawColumn :=
  {| raw_type := DataType.Int16; raw_fixedLength := true;
     raw_fixedOffset := 4; raw_columnIndex := 1; raw_columnID := 1 |}.

Definition flags_column : RawColumn :=
  {| raw_type := DataType.Int32; raw_fixedLength := true;
     raw_fixedOffset := 6; raw_columnIndex := 2; raw_columnID := 2 |}.

Definition name_column : RawColumn :=
  {| raw_type := DataType.Text; raw_fixedLength := false;
     raw_fixedOffset := 0; raw_columnIndex := 3; raw_columnID := 3 |}.

Definition catalog_header : TableHeader :=
  {| columnCount := 4; variableColumns := 1; realIndexCount := 0;
     tDefHeaderEnd := 0; nextPagePtr := 0 |}.

(** The catalog row (Id 3, Type 1, Flags 0, Name "People"): column count,
    the three fixed fields, the name, end of data, offset of the name,
    field count, null bitmap. *)
Definition people_entry : bytes :=
  [4; 3; 0; 0; 0; 1; 0; 0; 0; 0; 0; 80; 101; 111; 112; 108; 101; 17; 11; 1; 0].

(** The row (56, "Bill") of People. *)
Definition bill : bytes := [2; 56; 0; 66; 105; 108; 108; 7; 3; 1; 0].

(** A table-definition page; its third byte tells the two definitions of
    the file apart. *)
Definition tdef (kind : Z) : bytes := [2; 1; kind] ++ repeat 0 2045.

(** The reference primitives with a table-definition parser that answers
    with the definition of the catalog for a page of kind 0 and with that of
    [People(age INT16, name TEXT)] for any other. *)
Definition file_primitives : Primitives :=
  {| ACCESSHEADER_parse := JetLayout.accessHeader;
     TDEF_HEADER_parse := fun _ => Throw PrimitiveError;
     MEMO_parse := JetLayout.memo;
     parseDataPageHeader := JetLayout.dataPageHeader;
     parseTableHead := fun pg _ =>
       if nth 2 pg 0 =? 0 then Ok catalog_header else Ok Tables.people_header;
     parseTableData := fun pg _ _ _ =>
       if nth 2 pg 0 =? 0
       then Ok {| column := [id_column; type_column; flags_column; name_column];
                  columnNames := ["Id"%string; "Type"%string; "Flags"%string;
                                  "Name"%string] |}
       else Ok {| column := [Tables.raw Example.age; Tables.raw Example.name];
                  columnNames := ["age"%string; "name"%string] |};
     parseRelativeObjectMetadataStruct := JetLayout.relativeObjectMetadata |}.

(** A Jet 3 file of five pages: the file header, the data page of the
    catalog, the definition of the catalog (page 2), the definition of
    People (page 3) and the data page of People. *)
Definition file : bytes :=
  repeat 0 2048
  ++ Example.data_page 2 [people_entry]
  ++ tdef 0
  ++ tdef 1
  ++ Example.data_page 3 [Example.john; bill].

(** The value of [this] before the constructor body runs. *)
Definition fresh (d : bytes) : AccessParser :=
  {| dbData := d; p_tableDefs := []; p_dataPages := [];
     tablesWithData := []; p_version := VERSION_3;
     p_pageSize := PAGE_SIZE_V3;
     catalog := {| entries := []; has_proto := true |} |}.

End Database.

(** The variable-length field at position [i] of a record, as
    [parseDynamicLengthData] cuts it out once the null check has passed: the
    running [jumpTableAddition] after the field, and the bytes
    [relativeObjData] of the field, [None] for an empty field
    ([relStart === relEnd]). *)
Definition variable_field (this : AccessTable) (originalRecord : bytes)
           (relativeRecordMetadata : RelativeMetadata)
           (i jumpTableAddition : Z) : Z * option bytes :=
  let relativeOffsets := variableLengthFieldOffsets relativeRecordMetadata in
  let jumpTableAddition :=
    if (version_number (version this) =? 3)
       && includes (variableLengthJumpTable relativeRecordMetadata) i
    then ushr (jumpTableAddition + 256) 0
    else jumpTableAddition in
  let relStart := at_index relativeOffsets i in
  let relEnd :=
    if i + 1 =? len relativeOffsets
    then Some (varLenCount relativeRecordMetadata)
    else at_index relativeOffsets (i + 1) in
  let mask (o : option Z) : option Z :=
    match o with
    | Some z => if len originalRecord <? z
                then Some (ushr (band z 255) 0) else o
    | None => None
    end in
  let relEnd :=
    if 3 <? version_number (version this) then mask relEnd else relEnd in
  let relStart :=
    if 3 <? version_number (version this) then mask relStart else relStart in
  if option_Z_eqb relStart relEnd then (jumpTableAddition, None)
  else (jumpTableAddition,
        Some (slice originalRecord (bound relStart jumpTableAddition)
                    (Some (bound relEnd jumpTableAddition)))).

(** An 8-byte buffer whose Float64 is NaN. *)
Definition float64_nan : bytes := [0; 0; 0; 0; 0; 0; 248; 127].

(** Row [k] of the catalog columns describes a user table named [x]. *)
Definition user_row (names types flags : list value) (x : string) (k : Z)
  : Prop :=
  at_index names k = Some (VStr x)
  /\ is_number (at_index types k) 1 = true
  /\ is_number (at_index flags k) 0 = true.

(* ================================================================== *)
(** * Properties *)

(** [run_bind H]: case analysis on the first computation of a sequence
    [x <- m ;; k] that is known to return, keeping the equation of [m]. *)
Ltac run_bind H :=
  match type of H with
  | bind ?m _ = _ =>
      let E := fresh "E" in
      destruct m eqn:E; cbn [bind] in H; try discriminate H
  end.

(* ------------------------------------------------------------------ *)
(** ** The type registry *)

Lemma float64_payloads :
  getFloat64 Example.float64_zero 0 = Ok (S754_zero false)
  /\ getFloat64 Example.float64_one_and_half 0 = Ok (fdiv (Z2F 3) (Z2F 2)).
Proof. split; vm_compute; reflexivity. Qed.

Lemma literal_1_2345 : fdiv (Z2F 12345) (Z2F 10000) = number_1_2345.
Proof. vm_compute. reflexivity. Qed.

(** [parseType] never yields [null], [undefined] or a boolean. *)
Lemma parseType_number_or_string P dt b l v x :
  parseType P dt b l v = Ok x ->
  (exists n, x = VNum n) \/ (exists s, x = VStr s).
Proof.
  unfold parseType.
  repeat match goal with
         | |- context [match ?d with _ => _ end] =>
             match type of d with
             | Z => destruct d
             | positive => destruct d
             end
         end;
    cbv [bind];
    repeat match goal with
           | |- context [match ?r with Ok _ => _ | Throw _ => _ | Diverge => _ end] =>
               destruct r
           | |- context [if ?c then _ else _] => destruct c
           end;
    intros H; inversion H; eauto.
Qed.

Lemma parseType_not_null P dt b l v x :
  parseType P dt b l v = Ok x -> x <> VNull.
Proof.
  intros H. apply parseType_number_or_string in H.
  destruct H as [[n ->]|[s ->]]; discriminate.
Qed.

Section Zone.
Variables P Q : Platform.
Hypothesis same_zone : forall t b, LocalTZA P t b = LocalTZA Q t b.

Lemma getDate_zone tv : Date.getDate P tv = Date.getDate Q tv.
Proof.
  destruct tv; simpl; auto.
  unfold Date.LocalTime. now rewrite same_zone.
Qed.

Lemma setDate_zone tv dt : Date.setDate P tv dt = Date.setDate Q tv dt.
Proof.
  unfold Date.setDate, Date.LocalTime, Date.UTC.
  destruct tv; auto. destruct (ToInteger dt); auto.
  now rewrite !same_zone.
Qed.

Lemma setHours_zone tv h m s :
  Date.setHours P tv h m s = Date.setHours Q tv h m s.
Proof.
  unfold Date.setHours, Date.LocalTime, Date.UTC.
  destruct tv; auto.
  destruct (ToInteger h); auto. destruct (ToInteger m); auto.
  destruct (ToInteger s); auto.
  now rewrite !same_zone.
Qed.

(** The DateTime decoder depends on the host through its time zone only. *)
Lemma parseType_DateTime_zone b l v :
  parseType P DataType.DateTime b l v = parseType Q DataType.DateTime b l v.
Proof.
  unfold parseType, DataType.DateTime.
  destruct (getFloat64 b 0); cbv [bind]; auto.
  now rewrite getDate_zone, setDate_zone, setHours_zone.
Qed.
End Zone.

(** C3, as the code has it: on a host whose local time zone is UTC, a
    DateTime payload of 0.0 decodes to 1899-12-30T00:00:00.000Z and a payload
    of 1.5 to 1899-12-31T12:00:00.000Z. The integer part moves the date of
    the epoch; the fractional part, turned into hours, minutes and seconds by
    the successive x24, x60, x60 with floor, replaces its wall-clock time
    (setHours) instead of being added to the epoch's 12:00. *)
Theorem C3_datetime_replaces_time_of_day :
  forall (P : Platform) (length : option Z) (version : Version),
    (forall t b, LocalTZA P t b = 0) ->
    parseType P DataType.DateTime Example.float64_zero length version
    = Ok (VStr "1899-12-30T00:00:00.000Z")
    /\ parseType P DataType.DateTime Example.float64_one_and_half length version
       = Ok (VStr "1899-12-31T12:00:00.000Z").
Proof.
  intros P length version H.
  rewrite !(parseType_DateTime_zone P utc_host)
    by (intros; rewrite H; reflexivity).
  split; vm_compute; reflexivity.
Qed.

Lemma C3_witness :
  parseType utc_host DataType.DateTime Example.float64_zero None VERSION_4
  = Ok (VStr "1899-12-30T00:00:00.000Z")
  /\ parseType utc_host DataType.DateTime Example.float64_one_and_half None VERSION_4
     = Ok (VStr "1899-12-31T12:00:00.000Z").
Proof.
  apply (C3_datetime_replaces_time_of_day utc_host None VERSION_4).
  intros t b. reflexivity.
Defined.

(** C3 as stated fails: the payloads 0.0 and 1.5 do not decode to
    1899-12-30T12:00:00.000Z and 1899-12-31T00:00:00.000Z. *)
Lemma C3_counterexample :
  parseType utc_host DataType.DateTime Example.float64_zero None VERSION_4
  <> Ok (VStr "1899-12-30T12:00:00.000Z")
  /\ parseType utc_host DataType.DateTime Example.float64_one_and_half None VERSION_4
     <> Ok (VStr "1899-12-31T00:00:00.000Z").
Proof. split; vm_compute; intros H; discriminate H. Qed.

(** The two outcomes C3 states are reached together in no time zone: at
    every whole-minute offset within a day of UTC the payload 1.5 decodes to
    something other than 1899-12-31T00:00:00.000Z, and the payload 0.0
    decodes to 1899-12-30T12:00:00.000Z twelve hours from UTC only. *)
Lemma datetime_in_every_zone :
  forall minutes : Z,
    -1440 <= minutes <= 1440 ->
    yields_string
      (parseType (zone_host minutes) DataType.DateTime
                 Example.float64_one_and_half None VERSION_4)
      "1899-12-31T00:00:00.000Z" = false
    /\ (yields_string
          (parseType (zone_host minutes) DataType.DateTime
                     Example.float64_zero None VERSION_4)
          "1899-12-30T12:00:00.000Z" = true ->
        minutes = -720 \/ minutes = 720).
Proof.
  assert (Hall :
    forallb
      (fun k : nat =>
         let minutes := Z.of_nat k - 1440 in
         negb (yields_string
                 (parseType (zone_host minutes) DataType.DateTime
                            Example.float64_one_and_half None VERSION_4)
                 "1899-12-31T00:00:00.000Z")
         && (negb (yields_string
                     (parseType (zone_host minutes) DataType.DateTime
                                Example.float64_zero None VERSION_4)
                     "1899-12-30T12:00:00.000Z")
             || (minutes =? -720) || (minutes =? 720)))
      (seq 0 2881) = true) by (vm_compute; reflexivity).
  intros minutes Hrange.
  rewrite forallb_forall in Hall.
  specialize (Hall (Z.to_nat (minutes + 1440))).
  cbv zeta in Hall.
  replace (Z.of_nat (Z.to_nat (minutes + 1440)) - 1440) with minutes in Hall
    by lia.
  assert (Hin : In (Z.to_nat (minutes + 1440)) (seq 0 2881))
    by (apply in_seq; lia).
  apply Hall in Hin. apply andb_prop in Hin. destruct Hin as [H1 H2].
  split.
  - now apply negb_true_iff in H1.
  - intros Hy. rewrite Hy in H2. cbn [negb orb] in H2.
    apply orb_prop in H2. destruct H2 as [H2|H2]; apply Z.eqb_eq in H2; auto.
Qed.

(** C4, as the code has it: under the fixed-point rule
    value = (low unsigned 32 bits + high signed 32 bits * 2^32) / 10000 the
    eight bytes 00 D4 30 00 00 00 00 00 decode to 320 (they encode 3200000);
    1.2345 is what the encoding of 12345, 39 30 00 00 00 00 00 00, decodes
    to. *)
Theorem C4_money_fixed_point :
  forall (P : Platform) (length : option Z) (version : Version),
    parseType P DataType.Money Example.money_bytes length version
    = Ok (VNum (Z2F 320))
    /\ parseType P DataType.Money Example.money_12345 length version
       = Ok (VNum number_1_2345).
Proof. intros P length version. split; vm_compute; reflexivity. Qed.

(** C4 as stated fails: the Number decoded from 00 D4 30 00 00 00 00 00 is
    not equal to 1.2345. *)
Lemma C4_counterexample :
  exists x : number,
    parseType utc_host DataType.Money Example.money_bytes None VERSION_4
    = Ok (VNum x)
    /\ feqb x number_1_2345 = false.
Proof. exists (Z2F 320). split; vm_compute; reflexivity. Qed.




(* ------------------------------------------------------------------ *)
(** ** The parser facade *)

Section Facade.
Variable P : Platform.
Variable Prim : Primitives.

(** [parseTableUnformatted] assigns no field of the parser. *)
Lemma parseTableUnformatted_frame name this :
  snd (parseTableUnformatted P Prim name this) = this.
Proof.
  unfold parseTableUnformatted, bindM, read, lift.
  destruct (catalog_get (catalog this) name) as [[| | | |]| |]; simpl;
    try reflexivity;
    repeat match goal with
           | |- context [match ?x with _ => _ end] => destruct x; simpl
           end; reflexivity.
Qed.

Lemma parseTable_frame name this :
  snd (parseTable P Prim name this) = this.
Proof.
  unfold parseTable, bindM, ret.
  pose proof (parseTableUnformatted_frame name this) as H.
  destruct (parseTableUnformatted P Prim name this) as [[t|e|] this'];
    simpl in *; exact H.
Qed.
End Facade.

(** C10: parseTable modifies no parser state that outlives the call: the
    parser object after the call, with its version, pageSize, tableDefs,
    dataPages, tablesWithData and catalog, is the object before it, each
    call running a new AccessTable on an empty accumulator; so a second
    parseTable call with the same name on the same parser has the same
    outcome as the first. *)
Theorem C10_parseTable_leaves_parser_unchanged :
  forall (P : Platform) (Prim : Primitives) (name : string)
         (this : AccessParser),
    let first := parseTable P Prim name this in
    let second := parseTable P Prim name (snd first) in
    snd first = this
    /\ p_version (snd first) = p_version this
    /\ p_pageSize (snd first) = p_pageSize this
    /\ p_tableDefs (snd first) = p_tableDefs this
    /\ p_dataPages (snd first) = p_dataPages this
    /\ tablesWithData (snd first) = tablesWithData this
    /\ catalog (snd first) = catalog this
    /\ fst second = fst first
    /\ snd second = this.
Proof.
  intros P Prim name this first second.
  assert (H : snd first = this) by apply parseTable_frame.
  unfold second. rewrite !H.
  repeat split; try reflexivity.
  apply parseTable_frame.
Qed.

(** The keys of a dictionary after an assignment. *)
Lemma keys_dico_replace A (d : Dico A) k a :
  keys (dico_replace d k a) = keys d.
Proof.
  induction d as [|[k' a'] r IH]; simpl; auto.
  destruct (String.eqb k k'); simpl; auto.
  unfold keys in *. now rewrite IH.
Qed.

Lemma keys_dico_insert_index A (d : Dico A) n k a x :
  In x (keys (dico_insert_index d n k a)) -> x = k \/ In x (keys d).
Proof.
  induction d as [|[k' a'] r IH]; simpl.
  - intuition.
  - destruct (array_index k') as [n'|].
    + destruct (n' <? n); simpl; intuition.
    + simpl; intuition.
Qed.

Lemma keys_dico_set A (d : Dico A) k a x :
  In x (keys (dico_set d k a)) -> x = k \/ In x (keys d).
Proof.
  unfold dico_set.
  destruct (own_get d k).
  - rewrite keys_dico_replace. auto.
  - destruct (array_index k).
    + apply keys_dico_insert_index.
    + unfold keys. rewrite map_app, in_app_iff. simpl. intuition.
Qed.

Lemma keys_catalog_set c k v x :
  In x (keys (entries (catalog_set c k v))) ->
  x = k \/ In x (keys (entries c)).
Proof.
  unfold catalog_set.
  destruct (has_proto c && String.eqb k "__proto__").
  - destruct v; simpl; auto.
  - simpl. apply keys_dico_set.
Qed.

Lemma own_get_not_key A (d : Dico A) k :
  ~ In k (keys d) -> own_get d k = None.
Proof.
  induction d as [|[k' a] r IH]; simpl; auto.
  intros H. destruct (String.eqb_spec k k') as [->|Hne].
  - elim H. auto.
  - apply IH. intuition.
Qed.

Lemma at_index_cons A (x : A) (l : list A) (k : Z) :
  0 <= k -> at_index (x :: l) (k + 1) = at_index l k.
Proof.
  intros Hk. unfold at_index.
  destruct (Z.ltb_spec (k + 1) 0); [lia|].
  destruct (Z.ltb_spec k 0); [lia|].
  replace (Z.to_nat (k + 1)) with (S (Z.to_nat k)) by lia.
  reflexivity.
Qed.

(** What the catalog loop does when every Name is a string: a name it adds
    comes from the row at the same position of Type and Flags. *)
Lemma catalog_loop_aligned names types flags ids :
  forall (i : Z) (c : Catalog) (x : string),
    Forall (fun v => exists s, v = VStr s) names ->
    In x (keys (entries (catalog_loop names types flags ids i c))) ->
    In x (keys (entries c))
    \/ exists k : Z,
        0 <= k
        /\ at_index names k = Some (VStr x)
        /\ is_number (at_index types (i + 1 + k)) 1 = true
        /\ is_number (at_index flags (i + 1 + k)) 0 = true.
Proof.
  induction names as [|v rest IH]; intros i c x Hall Hin; simpl in *; auto.
  inversion Hall as [|? ? [s ->] Hrest]; subst. simpl in Hin.
  apply IH in Hin; auto.
  destruct Hin as [Hin | [k [Hk [Hn [Ht Hf]]]]].
  - destruct (is_number (at_index types (i + 1)) 1) eqn:Et; auto.
    destruct (negb _ && is_number (at_index flags (i + 1)) 0) eqn:Ef; auto.
    apply keys_catalog_set in Hin. destruct Hin as [-> | Hin]; auto.
    right. exists 0. apply andb_prop in Ef. destruct Ef as [_ Ef].
    rewrite Z.add_0_r. repeat split; auto; lia.
  - right. exists (k + 1).
    rewrite at_index_cons by lia.
    replace (i + 1 + (k + 1)) with (i + 1 + 1 + k) by lia.
    repeat split; auto; lia.
Qed.

Lemma catalog_of_string_names names types flags ids x :
  Forall (fun v => exists s, v = VStr s) names ->
  In x (keys (entries (catalog_loop names types flags ids (-1) Catalogs.empty))) ->
  from_user_entry names types flags x.
Proof.
  intros Hall Hin.
  apply catalog_loop_aligned in Hin; auto.
  destruct Hin as [[] | [k [Hk [Hn [Ht Hf]]]]].
  exists k. replace (-1 + 1 + k) with k in * by lia. auto.
Qed.

(** C8 on the code: parseCatalog skips a row whose Name is not a string
    without advancing its row counter, so each later name is paired with the
    Type, Flags and Id of an earlier row. With a null Name in the first row
    and the system table MSysACEs (Flags 0x80000000) in the second, the
    table-listing operation returns MSysACEs, mapped to the first row's Id,
    although no catalog entry of that name has Type 1 and Flags 0 and its own
    Flags carry the system-table flag. *)
Theorem C8_skipped_row_misaligns_catalog :
  let c := catalog_loop Catalogs.entry_names Catalogs.entry_types Catalogs.entry_flags
                        Catalogs.entry_ids (-1) Catalogs.empty in
  fst (getTables (Catalogs.parser c)) = Ok ["MSysACEs"%string]
  /\ catalog_get c "MSysACEs" = Own (VNum (Z2F 7))
  /\ at_index Catalogs.entry_names 1 = Some (VStr "MSysACEs")
  /\ is_number (at_index Catalogs.entry_flags 1) (-2147483648) = true
  /\ ~ from_user_entry Catalogs.entry_names Catalogs.entry_types Catalogs.entry_flags "MSysACEs".
Proof.
  cbv zeta.
  split; [vm_compute; reflexivity|].
  split; [vm_compute; reflexivity|].
  split; [vm_compute; reflexivity|].
  split; [vm_compute; reflexivity|].
  intros [k [Hn [_ Hf]]].
  assert (Hk : k = 1).
  { unfold at_index, Catalogs.entry_names in Hn.
    destruct (Z.ltb_spec k 0); [discriminate|].
    destruct (Z.to_nat k) as [|[|[|n]]] eqn:Ek; simpl in Hn;
      try discriminate Hn; lia. }
  subst k. vm_compute in Hf. discriminate Hf.
Qed.

(* ------------------------------------------------------------------ *)
(** ** The overflow resolver *)

(** The page number and slot the resolver computes. *)
Lemma getOverflowRecord_page_and_slot Prim this ptr :
  page_get (dataPages this) (Z.shiftr (ptr mod 2 ^ 32) 8 * pageSize this) = None ->
  getOverflowRecord Prim this ptr = Ok None.
Proof.
  intros H. unfold getOverflowRecord, ushr, ToUint32.
  change (8 mod 32) with 8. now rewrite H.
Qed.

(** C7 on the code: getOverflowRecord calls parseDataPageHeader outside any
    try block (linkTablesToData wraps the same call in try/catch), so on a
    page of dataPages whose header the primitive rejects the resolver throws
    instead of reporting not-found. *)
Theorem C7_getOverflowRecord_propagates_throw :
  forall (Prim : Primitives) (this : AccessTable) (recordPointer : Z)
         (page : bytes) (e : error),
    page_get (dataPages this) (ushr recordPointer 8 * pageSize this) = Some page ->
    parseDataPageHeader Prim page (version this) = Throw e ->
    getOverflowRecord Prim this recordPointer = Throw e.
Proof.
  intros Prim this ptr page e Hpage Hthrow.
  unfold getOverflowRecord. rewrite Hpage, Hthrow. reflexivity.
Qed.

Lemma C7_witness :
  getOverflowRecord JetLayout.primitives
                    (Example.people [] [(2048, Catalogs.broken_page)]) 256
  = Throw RangeError.
Proof.
  apply (@C7_getOverflowRecord_propagates_throw
           JetLayout.primitives
           (Example.people [] [(2048, Catalogs.broken_page)]) 256
           Catalogs.broken_page RangeError);
    vm_compute; reflexivity.
Defined.

(** The bound check of the resolver lets the slot one past the last
    record offset through: it then returns the bytes from the start of the page up
    to the last record, not "not found". *)
Lemma getOverflowRecord_slot_one_past_end :
  let page := Example.data_page 3 [Example.john] in
  JetLayout.dataPageHeader page VERSION_3
  = Ok {| owner := 3; recordOffsets := [2037] |}
  /\ getOverflowRecord JetLayout.primitives
                       (Example.people [] [(2048, page)]) 257
     = Ok (Some (firstn 2037 page)).
Proof. cbv zeta. split; vm_compute; reflexivity. Qed.

(** The overflow-slot branch of [parse] reads the 32-bit pointer through a
    DataView of the four bytes at the slot's offset; within four bytes of
    the page end the read throws. *)
Lemma overflow_slot_pointer_read_throws :
  let page := Example.data_page 3 [Example.john] in
  record_loop utc_host JetLayout.primitives (Example.people [page] [])
              page [16384 + 2046] None []
  = Throw RangeError.
Proof. vm_compute. reflexivity. Qed.

(* ------------------------------------------------------------------ *)
(** ** Unknown and empty tables *)

Lemma page_get_update A (m : PageMap A) k a k' :
  page_get (page_update m k a) k' = if k' =? k then Some a else page_get m k'.
Proof.
  induction m as [|[k0 a0] r IH]; simpl.
  - reflexivity.
  - destruct (Z.eqb_spec k k0) as [->|Hne]; simpl.
    + destruct (Z.eqb_spec k' k0); reflexivity.
    + rewrite IH. destruct (Z.eqb_spec k' k0) as [->|]; auto.
      destruct (Z.eqb_spec k0 k); congruence.
  Qed.

(** linkTablesToData creates no entry for a TDEF offset that no parsed data
    page names as its owner. *)
Lemma link_loop_unowned Prim v ps td off :
  forall (pages : PageMap bytes) (twd twd' : PageMap TableObject),
    (forall k data hdr,
        In (k, data) pages ->
        parseDataPageHeader Prim data v = Ok hdr ->
        owner hdr * ps <> off) ->
    page_get twd off = None ->
    link_loop Prim v ps td pages twd = Ok twd' ->
    page_get twd' off = None.
Proof.
  induction pages as [|[k data] rest IH]; intros twd twd' Hown Hnone Hlink;
    simpl in Hlink.
  - inversion Hlink; subst; assumption.
  - assert (Hrest : forall k data hdr,
               In (k, data) rest ->
               parseDataPageHeader Prim data v = Ok hdr ->
               owner hdr * ps <> off)
      by (intros; eapply Hown; [right|]; eassumption).
    destruct (parseDataPageHeader Prim data v) as [hdr|e|] eqn:Eh;
      [|eauto|discriminate].
    destruct (page_get td (owner hdr * ps)); [|eauto].
    eapply IH; [exact Hrest| |exact Hlink].
    rewrite page_get_update.
    destruct (Z.eqb_spec off (owner hdr * ps)) as [->|]; auto.
    exfalso. eapply Hown; [left; reflexivity|exact Eh|reflexivity].
Qed.

Lemma linkTablesToData_spec Prim this :
  linkTablesToData Prim this
  = (link_loop Prim (p_version this) (p_pageSize this) (p_tableDefs this)
               (p_dataPages this) [], this).
Proof. reflexivity. Qed.

Lemma parseCatalog_frame P Prim this :
  snd (parseCatalog P Prim this) = this.
Proof.
  unfold parseCatalog, bindM, read, lift, ret.
  repeat match goal with
         | |- context [match ?x with _ => _ end] => destruct x; cbn [fst snd]
         end; reflexivity.
Qed.

(** The constructor leaves [tablesWithData] as [linkTablesToData] computed it
    from the final version, page size and page maps. *)
Lemma construct_links P Prim d x this :
  construct P Prim d x = (Ok tt, this) ->
  link_loop Prim (p_version this) (p_pageSize this) (p_tableDefs this)
            (p_dataPages this) []
  = Ok (tablesWithData this).
Proof.
  unfold construct. intros H.
  cbv [bindM read lift assign] in H.
  destruct (parseFileHeader Prim _) as [[[]|e|] s1]; try discriminate H.
  destruct (categorizePages (dbData s1) (p_pageSize s1)) as [pages|e|];
    try discriminate H.
  rewrite linkTablesToData_spec in H.
  destruct (link_loop Prim _ _ _ _ []) as [twd|e|] eqn:Elink;
    try discriminate H.
  pose proof (parseCatalog_frame P Prim
                (set_tablesWithData twd (set_pages (fst pages) (snd pages) s1)))
    as Hframe.
  destruct (parseCatalog P Prim _) as [[c|e|] s2]; try discriminate H.
  cbn [snd] in Hframe. subst s2.
  inversion H; subst. cbn in *. exact Elink.
Qed.

(** A catalog name whose TDEF page exists and is owned by no parsed data
    page has no entry in [tablesWithData], and [parseTable] reports an empty
    table. *)
Lemma parseTable_empty_table P Prim this name v off tdef :
  link_loop Prim (p_version this) (p_pageSize this)
            (p_tableDefs this) (p_dataPages this) []
  = Ok (tablesWithData this) ->
  catalog_get (catalog this) name = Own v ->
  offset_key P (Own v) (p_pageSize this) = Some off ->
  page_get (p_tableDefs this) off = Some tdef ->
  (forall k data hdr,
      In (k, data) (p_dataPages this) ->
      parseDataPageHeader Prim data (p_version this) = Ok hdr ->
      owner hdr * p_pageSize this <> off) ->
  fst (parseTable P Prim name this) = Throw ErrEmptyTable.
Proof.
  intros Hlink Hget Hkey Htdef Hown.
  assert (Htwd : page_get (tablesWithData this) off = None)
    by (apply (@link_loop_unowned Prim (p_version this) (p_pageSize this)
                 (p_tableDefs this) off (p_dataPages this) []
                 (tablesWithData this) Hown eq_refl Hlink)).
  unfold parseTable, parseTableUnformatted, bindM, read, lift.
  rewrite Hget.
  destruct v; try (simpl in Hkey; discriminate Hkey);
    rewrite Hkey, Htwd, Htdef; reflexivity.
Qed.

(** The same on a parser as its constructor leaves it. *)
Lemma constructed_parser_empty_table P Prim d x this name v off tdef :
  construct P Prim d x = (Ok tt, this) ->
  catalog_get (catalog this) name = Own v ->
  offset_key P (Own v) (p_pageSize this) = Some off ->
  page_get (p_tableDefs this) off = Some tdef ->
  (forall k data hdr,
      In (k, data) (p_dataPages this) ->
      parseDataPageHeader Prim data (p_version this) = Ok hdr ->
      owner hdr * p_pageSize this <> off) ->
  fst (parseTable P Prim name this) = Throw ErrEmptyTable.
Proof.
  intros Hnew. apply parseTable_empty_table.
  exact (construct_links P Prim d x Hnew).
Qed.

(** C6: parseTable(name) fails with an UnknownTable error ("Could not find
    table ...") for every name not present in the catalog, and fails with the
    EmptyTable error for every name that is in the catalog and whose TDEF
    page exists but to which no data page's owner field points: the parser's
    tablesWithData, as linkTablesToData built it, then has no entry for that
    page. *)
Theorem C6_unknown_and_empty_tables :
  forall (P : Platform) (Prim : Primitives) (this : AccessParser)
         (name : string),
    (~ In name (keys (entries (catalog this))) ->
     exists e : error,
       fst (parseTable P Prim name this) = Throw e /\ UnknownTable e)
    /\ (forall (v : value) (off : Z) (tdef : bytes),
           link_loop Prim (p_version this) (p_pageSize this)
                     (p_tableDefs this) (p_dataPages this) []
           = Ok (tablesWithData this) ->
           catalog_get (catalog this) name = Own v ->
           offset_key P (Own v) (p_pageSize this) = Some off ->
           page_get (p_tableDefs this) off = Some tdef ->
           (forall k data hdr,
               In (k, data) (p_dataPages this) ->
               parseDataPageHeader Prim data (p_version this) = Ok hdr ->
               owner hdr * p_pageSize this <> off) ->
           fst (parseTable P Prim name this) = Throw ErrEmptyTable).
Proof.
  intros P Prim this name. split.
  - intros Hnot.
    unfold parseTable, parseTableUnformatted, bindM, read, lift, catalog_get.
    rewrite (own_get_not_key _ _ Hnot).
    destruct (has_proto (catalog this) && is_proto_key name); simpl.
    + exists ErrCouldNotFindOffset. split; [reflexivity | right; reflexivity].
    + exists ErrCouldNotFindTable. split; [reflexivity | left; reflexivity].
  - intros v off tdef. apply parseTable_empty_table.
Qed.

Lemma C6_witness :
  (exists e : error,
      fst (parseTable utc_host JetLayout.primitives "Orders"
                      (Catalogs.parser Catalogs.people_catalog)) = Throw e
      /\ UnknownTable e)
  /\ fst (parseTable utc_host JetLayout.primitives "People"
                     (Catalogs.parser Catalogs.people_catalog))
     = Throw ErrEmptyTable.
Proof.
  destruct (C6_unknown_and_empty_tables
              utc_host JetLayout.primitives
              (Catalogs.parser Catalogs.people_catalog) "Orders") as [Hunknown _].
  destruct (C6_unknown_and_empty_tables
              utc_host JetLayout.primitives
              (Catalogs.parser Catalogs.people_catalog) "People") as [_ Hempty].
  split.
  - apply Hunknown. simpl. intros [H|[]]. discriminate H.
  - apply (Hempty (VNum (Z2F 3)) 6144 Catalogs.tdef_page);
      try (vm_compute; reflexivity).
    intros k data hdr [Hin|[]] Hparse. inversion Hin; subst.
    vm_compute in Hparse. inversion Hparse; subst.
    vm_compute. discriminate.
Defined.

(** The two errors of an unknown name, on the example parser. *)
Lemma unknown_table_messages :
  fst (parseTable utc_host JetLayout.primitives "Orders"
                  (Catalogs.parser Catalogs.people_catalog))
  = Throw ErrCouldNotFindTable
  /\ fst (parseTable utc_host JetLayout.primitives "toString"
                     (Catalogs.parser Catalogs.people_catalog))
     = Throw ErrCouldNotFindOffset.
Proof. split; vm_compute; reflexivity. Qed.

(* ------------------------------------------------------------------ *)
(** ** The null bitmap *)

Lemma testbit_ToInt32 x k :
  0 <= k < 32 -> Z.testbit (ToInt32 x) k = Z.testbit x k.
Proof.
  intros Hk. unfold ToInt32.
  destruct (x mod 2 ^ 32 <? 2 ^ 31).
  - apply Z.mod_pow2_bits_low. lia.
  - rewrite <- (Z.mod_pow2_bits_low (x mod 2 ^ 32 - 2 ^ 32) 32 k) by lia.
    replace (x mod 2 ^ 32 - 2 ^ 32) with (x mod 2 ^ 32 + (-1) * 2 ^ 32) by lia.
    rewrite Z_mod_plus_full, Z.mod_mod by lia.
    apply Z.mod_pow2_bits_low. lia.
Qed.

Lemma land_pow2 y k :
  0 <= k -> Z.land y (2 ^ k) = if Z.testbit y k then 2 ^ k else 0.
Proof.
  intros Hk. apply Z.bits_inj'. intros n Hn.
  rewrite Z.land_spec, Z.pow2_bits_eqb by lia.
  destruct (Z.eqb_spec k n) as [->|Hne].
  - destruct (Z.testbit y n); simpl.
    + now rewrite Z.pow2_bits_true.
    + now rewrite Z.bits_0.
  - rewrite andb_false_r.
    destruct (Z.testbit y k).
    + rewrite Z.pow2_bits_false; auto.
    + now rewrite Z.bits_0.
Qed.

(** The mask test of [parseRow] reads bit [k] of the byte. *)
Lemma mask_test x k :
  0 <= k < 8 ->
  negb (band x (ushr (ushr (shl 1 k) 0) 0) =? 0) = Z.testbit x k.
Proof.
  intros Hk.
  assert (Hmask : ushr (ushr (shl 1 k) 0) 0 = 2 ^ k).
  { assert (k = 0 \/ k = 1 \/ k = 2 \/ k = 3 \/ k = 4 \/ k = 5 \/ k = 6 \/ k = 7)
      as Hcases by lia.
    repeat destruct Hcases as [->|Hcases]; try subst k; reflexivity. }
  rewrite Hmask. unfold band.
  assert (H2 : ToInt32 (2 ^ k) = 2 ^ k).
  { assert (k = 0 \/ k = 1 \/ k = 2 \/ k = 3 \/ k = 4 \/ k = 5 \/ k = 6 \/ k = 7)
      as Hcases by lia.
    repeat destruct Hcases as [->|Hcases]; try subst k; reflexivity. }
  rewrite H2, land_pow2 by lia.
  rewrite testbit_ToInt32 by lia.
  destruct (Z.testbit x k).
  - rewrite H2. destruct (Z.eqb_spec (2 ^ k) 0) as [E|]; auto.
    assert (0 < 2 ^ k) by (apply Z.pow_pos_nonneg; lia). lia.
  - reflexivity.
Qed.

Lemma null_table_length buf :
  List.length (null_table_of buf) = (List.length buf * 8)%nat.
Proof. unfold null_table_of. now rewrite length_map, length_seq. Qed.

Lemma null_table_at buf i :
  0 <= i < 8 * len buf ->
  at_index (null_table_of buf) i
  = Some (Z.testbit (nth (Z.to_nat (i / 8)) buf 0) (i mod 8)).
Proof.
  intros Hi. unfold at_index, len in *.
  destruct (Z.ltb_spec i 0); [lia|].
  unfold null_table_of.
  rewrite nth_error_map, nth_error_seq.
  assert (Hb : (Z.to_nat i <? List.length buf * 8)%nat = true)
    by (apply Nat.ltb_lt; lia).
  rewrite Hb. cbn [option_map Nat.add].
  rewrite Z2Nat.id by lia.
  rewrite mask_test; auto.
  apply Z.mod_pos_bound. lia.
Qed.

(** An entry of the null table is [true] exactly where the bit of the
    trailing bitmap is set. *)
Lemma null_table_bit buf i :
  at_index (null_table_of buf) i = Some true <-> bitmap_bit buf i = true.
Proof.
  unfold bitmap_bit.
  destruct (Z.leb_spec 0 i); cbn [andb].
  - destruct (Z.ltb_spec i (8 * len buf)); cbn [andb].
    + rewrite null_table_at by lia.
      split; [intros H'; now inversion H'|intros ->; reflexivity].
    + split; [|discriminate].
      unfold at_index. destruct (i <? 0); [discriminate|].
      intros H'.
      assert (Hlt : nth_error (null_table_of buf) (Z.to_nat i) <> None)
        by congruence.
      apply nth_error_Some in Hlt.
      rewrite null_table_length in Hlt. unfold len in *. lia.
  - split; [|discriminate].
    unfold at_index. destruct (Z.ltb_spec i 0); [discriminate|lia].
Qed.

(* ------------------------------------------------------------------ *)
(** ** What a row emits *)

Lemma emit_all_app a b pt :
  emit_all (a ++ b) pt = (pt' <- emit_all a pt ;; emit_all b pt').
Proof.
  revert pt. induction a as [|[c v] r IH]; intros pt; cbn [emit_all app bind].
  - reflexivity.
  - destruct (push_value pt (colNameStr c) v); cbn [bind]; auto.
Qed.

Section RowEmissions.
Variable P : Platform.
Variable Prim : Primitives.
Variable this : AccessTable.

Lemma parseMemo_not_null data column x :
  parseMemo P Prim this data column = Ok x -> x <> VNull.
Proof.
  unfold parseMemo. intros H.
  run_bind H. run_bind H.
  now apply parseType_not_null in H.
Qed.

(** A fixed-length column pushes one value, null exactly when its entry of
    the null table is [true]. *)
Lemma parseFixedLengthData_emits record column nullTable pt pt' :
  parseFixedLengthData P this record column nullTable pt = Ok pt' ->
  exists v : value,
    push_value pt (colNameStr column) v = Ok pt'
    /\ (v = VNull <-> at_index nullTable (columnID column) = Some true).
Proof.
  unfold parseFixedLengthData, push_value. intros H.
  destruct (Z.of_nat (List.length nullTable) <=? columnID column);
    [discriminate H|].
  destruct (at_index nullTable (columnID column)) as [[|]|];
    [exists VNull; split; [exact H|tauto] | | ];
    (destruct (len record <=? fixedOffset column); [discriminate H|];
     run_bind H;
     match goal with
     | E : parseType _ _ _ _ _ = Ok ?x |- _ =>
         exists x; split; [exact H|];
         apply parseType_not_null in E; split; [contradiction|discriminate]
     end).
Qed.

Lemma fixed_loop_emits record nullTable :
  forall cols rel pt rel' pt',
    fixed_loop P this record nullTable cols rel pt = Ok (rel', pt') ->
    rel' = variable_map cols rel
    /\ exists es : list (Column * value),
        map fst es = filter fixedLength (map snd cols)
        /\ emit_all es pt = Ok pt'
        /\ Forall (fun cv => snd cv = VNull
                             <-> at_index nullTable (columnID (fst cv)) = Some true)
                  es.
Proof.
  induction cols as [|[i column] rest IH]; intros rel pt rel' pt' H;
    cbn [fixed_loop] in H.
  - inversion H; subst. split; [reflexivity|].
    exists []. repeat split; constructor.
  - cbn [variable_map fold_left fst snd map filter].
    destruct (fixedLength column) eqn:Ef; cbn [negb] in H.
    + destruct (parseFixedLengthData P this record column nullTable pt)
        as [pt1|e|] eqn:E1; cbn [bind] in H; try discriminate H.
      apply IH in H. destruct H as [Hrel [es [Hm [He Hf]]]].
      apply parseFixedLengthData_emits in E1.
      destruct E1 as [v [Hv Hnull]].
      split; [exact Hrel|].
      exists ((column, v) :: es). cbn [map fst emit_all].
      rewrite Hm, Hv. cbn [bind].
      repeat split; auto.
    + apply IH in H. destruct H as [Hrel [es [Hm [He Hf]]]].
      split; [exact Hrel|]. exists es. auto.
Qed.

(** A variable-length column pushes one value, null exactly when its
    column ID lies inside the null table and its entry is [true]. *)
Lemma dynamic_step_emits record meta nullTable i column jta pt jta' pt' :
  dynamic_step P Prim this record meta nullTable i column jta pt
  = Ok (jta', pt') ->
  exists v : value,
    push_value pt (colNameStr column) v = Ok pt'
    /\ (v = VNull <-> at_index nullTable (columnID column) = Some true).
Proof.
  unfold dynamic_step. intros H.
  assert (Hin : at_index nullTable (columnID column) = Some true ->
                (columnID column <? Z.of_nat (List.length nullTable)) = true).
  { unfold at_index. destruct (columnID column <? 0) eqn:E0; [discriminate|].
    intros Hn.
    assert (Hlt : nth_error nullTable (Z.to_nat (columnID column)) <> None)
      by congruence.
    apply nth_error_Some in Hlt. apply Z.ltb_lt.
    apply Z.ltb_ge in E0. lia. }
  match type of H with
  | (if ?c then _ else _) = _ => destruct c eqn:Ec
  end.
  - run_bind H. inversion H; subst. exists VNull. split; [assumption|].
    apply andb_prop in Ec. destruct Ec as [_ Ec].
    destruct (at_index nullTable (columnID column)) as [[|]|];
      try discriminate Ec. tauto.
  - assert (Hnot : at_index nullTable (columnID column) <> Some true).
    { intros Hn. rewrite Hin, Hn in Ec by exact Hn. discriminate Ec. }
    cbv zeta in H.
    match type of H with
    | (if ?c then _ else _) = _ => destruct c
    end.
    + run_bind H. inversion H; subst. exists (VStr ""). split; [assumption|].
      split; [discriminate|contradiction].
    + run_bind H. run_bind H. inversion H; subst.
      match goal with
      | Ex : _ = Ok ?x, Ep : push_value _ _ ?x = Ok _ |- _ =>
          exists x; split; [exact Ep|];
          assert (x <> VNull);
          [ destruct (type column =? DataType.Memo);
            [ unfold try_catch in Ex;
              destruct (parseMemo P Prim this _ column) as [y|e|] eqn:Em;
              try discriminate Ex; inversion Ex; subst;
              [eapply parseMemo_not_null; eassumption | discriminate]
            | now apply parseType_not_null in Ex ]
          | split; contradiction ]
      end.
Qed.

Lemma dynamic_loop_emits record meta nullTable :
  forall cols i jta pt pt',
    dynamic_loop P Prim this record meta nullTable cols i jta pt = Ok pt' ->
    exists es : list (Column * value),
      map fst es = map snd cols
      /\ emit_all es pt = Ok pt'
      /\ Forall (fun cv => snd cv = VNull
                           <-> at_index nullTable (columnID (fst cv)) = Some true)
                es.
Proof.
  induction cols as [|[k column] rest IH]; intros i jta pt pt' H;
    cbn [dynamic_loop] in H.
  - inversion H; subst. exists []. repeat split; constructor.
  - destruct (dynamic_step P Prim this record meta nullTable i column jta pt)
      as [[jta1 pt1]|e|] eqn:E1; cbn [bind fst snd] in H; try discriminate H.
    apply IH in H. destruct H as [es [Hm [He Hf]]].
    apply dynamic_step_emits in E1. destruct E1 as [v [Hv Hnull]].
    exists ((column, v) :: es). cbn [map fst snd emit_all].
    rewrite Hm, Hv. cbn [bind]. repeat split; auto.
Qed.
End RowEmissions.

(** C1 on the code: the null bitmap is tested with the opposite polarity.
    For every row [parseRow] decodes without throwing, the row's emissions
    are one value per fixed-length column, in key order, followed by one
    value per variable-length column when the variable-length metadata was
    found, and by none exactly when the row was dropped for that metadata;
    and for every column c among them the value emitted for c is null if and
    only if bit number c.columnID (LSB-first across the trailing
    nullBytes = ceil(columnCount/8) bytes of the record) is SET, where the
    format (and the claim) mark a present value by a set bit and a null by a
    cleared one. *)
Theorem C1_null_iff_bit_set :
  forall (P : Platform) (Prim : Primitives) (this : AccessTable)
         (record : bytes) (pt pt' : ParsedTable),
    parseRow P Prim this record pt = Ok pt' ->
    exists fixed variable : list (Column * value),
      emit_all (fixed ++ variable) pt = Ok pt'
      /\ map fst fixed = filter fixedLength (map snd (columns this))
      /\ ((parseDynamicLengthRecordsMetadata Prim this (rev record) record
             (nullTableLen_of (tableHeader this)) = Ok None
           /\ variable = [])
          \/ ((exists m : RelativeMetadata,
                  parseDynamicLengthRecordsMetadata Prim this (rev record)
                    record (nullTableLen_of (tableHeader this)) = Ok (Some m))
              /\ map fst variable
                 = map snd (variable_map (columns this) [])))
      /\ forall (c : Column) (v : value),
          In (c, v) (fixed ++ variable) ->
          (v = VNull
           <-> bitmap_bit (null_bitmap record (nullTableLen_of (tableHeader this)))
                          (columnID c) = true).
Proof.
  intros P Prim this record pt pt' H.
  unfold parseRow in H. cbv zeta in H.
  match type of H with
  | (if ?c then _ else _) = _ => destruct c; [|discriminate H]
  end.
  destruct (fixed_loop P this _ _ (columns this) [] pt)
    as [[rel pt1]|e|] eqn:Efix; cbn [bind] in H; try discriminate H.
  apply fixed_loop_emits in Efix.
  destruct Efix as [Hrel [fixed [Hmf [Hef Hff]]]].
  assert (Hbits : forall es : list (Column * value),
             Forall (fun cv => snd cv = VNull
                               <-> at_index
                                     (null_table_of
                                        (slice record
                                           (len record - nullTableLen_of (tableHeader this))
                                           None))
                                     (columnID (fst cv)) = Some true) es ->
             forall c v, In (c, v) es ->
               (v = VNull
                <-> bitmap_bit (null_bitmap record (nullTableLen_of (tableHeader this)))
                               (columnID c) = true)).
  { intros es Hes c v Hin.
    rewrite Forall_forall in Hes. specialize (Hes (c, v) Hin). cbn [fst snd] in Hes.
    unfold null_bitmap. rewrite <- null_table_bit. exact Hes. }
  destruct (parseDynamicLengthRecordsMetadata Prim this (rev record) record
              (nullTableLen_of (tableHeader this))) as [[meta|]|e|] eqn:Emeta;
    cbn [bind] in H; try discriminate H.
  - unfold parseDynamicLengthData in H.
    apply dynamic_loop_emits in H.
    destruct H as [variable [Hmv [Hev Hfv]]].
    exists fixed, variable.
    rewrite emit_all_app, Hef. cbn [bind].
    split; [exact Hev|]. split; [exact Hmf|].
    split.
    { right. split; [exists meta; reflexivity|].
      rewrite Hmv, Hrel. reflexivity. }
    intros c v Hin. apply in_app_or in Hin. destruct Hin as [Hin|Hin].
    + exact (Hbits fixed Hff c v Hin).
    + exact (Hbits variable Hfv c v Hin).
  - inversion H; subst pt1.
    exists fixed, [].
    rewrite app_nil_r.
    split; [exact Hef|]. split; [exact Hmf|].
    split; [left; split; reflexivity|].
    intros c v Hin. exact (Hbits fixed Hff c v Hin).
Qed.

Lemma C1_witness :
  exists fixed variable : list (Column * value),
    emit_all (fixed ++ variable) []
    = Ok [("age"%string, [VNull]); ("name"%string, [VNull])]
    /\ map fst fixed
       = filter fixedLength (map snd (columns (Example.people [] [])))
    /\ ((parseDynamicLengthRecordsMetadata JetLayout.primitives
           (Example.people [] []) (rev Example.john_present)
           Example.john_present
           (nullTableLen_of (tableHeader (Example.people [] []))) = Ok None
         /\ variable = [])
        \/ ((exists m : RelativeMetadata,
                parseDynamicLengthRecordsMetadata JetLayout.primitives
                  (Example.people [] []) (rev Example.john_present)
                  Example.john_present
                  (nullTableLen_of (tableHeader (Example.people [] [])))
                = Ok (Some m))
            /\ map fst variable
               = map snd (variable_map (columns (Example.people [] [])) [])))
    /\ forall (c : Column) (v : value),
        In (c, v) (fixed ++ variable) ->
        (v = VNull
         <-> bitmap_bit
               (null_bitmap Example.john_present
                  (nullTableLen_of (tableHeader (Example.people [] []))))
               (columnID c) = true).
Proof.
  apply (@C1_null_iff_bit_set utc_host JetLayout.primitives
           (Example.people [] []) Example.john_present []).
  vm_compute. reflexivity.
Defined.

(** The failing input of C1: the row (23, "John") of People written with
    both presence bits set decodes to two nulls, and the same row written
    with both bits clear, which the format reads as two nulls, decodes to 23
    and "John". On the one-column table the same holds bit by bit. *)
Lemma present_values_decode_to_null :
  bitmap_bit (null_bitmap Example.john_present 1) (columnID Example.age) = true
  /\ bitmap_bit (null_bitmap Example.john_present 1) (columnID Example.name)
     = true
  /\ parseRow utc_host JetLayout.primitives (Example.people [] [])
              Example.john_present []
     = Ok [("age"%string, [VNull]); ("name"%string, [VNull])]
  /\ bitmap_bit (null_bitmap Example.john 1) (columnID Example.age) = false
  /\ bitmap_bit (null_bitmap Example.john 1) (columnID Example.name) = false
  /\ parseRow utc_host JetLayout.primitives (Example.people [] [])
              Example.john []
     = Ok [("age"%string, [VNum (Z2F 23)]); ("name"%string, [VStr "John"])]
  /\ parseRow utc_host JetLayout.primitives Example.ages
              Example.age_row_bit_set []
     = Ok [("age"%string, [VNull])]
  /\ parseRow utc_host JetLayout.primitives Example.ages
              Example.age_row_bit_clear []
     = Ok [("age"%string, [VNum (Z2F 23)])].
Proof. repeat split; vm_compute; reflexivity. Qed.

(* ------------------------------------------------------------------ *)
(** ** Dropped rows *)

(** When the variable-length metadata of a row cannot be recovered,
    [parseRow] returns the table as the fixed-length pass left it. *)
Lemma parseRow_drop_keeps_fixed_values P Prim this record pt rel pt1 :
  let n := nullTableLen_of (tableHeader this) in
  negb (n =? 0) && (n <? len record) = true ->
  fixed_loop P this
             (if 3 <? version_number (version this)
              then slice record 2 None else slice record 1 None)
             (null_table_of (slice record (len record - n) None))
             (columns this) [] pt
  = Ok (rel, pt1) ->
  parseDynamicLengthRecordsMetadata Prim this (rev record) record n = Ok None ->
  parseRow P Prim this record pt = Ok pt1.
Proof.
  cbv zeta. intros Hguard Hfix Hmeta.
  unfold parseRow. rewrite Hguard, Hfix. cbn [bind].
  rewrite Hmeta. reflexivity.
Qed.

(** C2 on the code: a table whose second row is dropped for its
    variable-length metadata. The fixed-length value of the dropped row was
    pushed before the metadata was looked at, so the column arrays differ in
    length (age has 2 values, name has 1) and parseTable emits two rows, the
    second with no value for name. *)
Theorem C2_dropped_row_leaves_fixed_values :
  parseDynamicLengthRecordsMetadata
    Tables.people_primitives (Example.people [Tables.people_page] [])
    (rev Example.damaged) Example.damaged 1
  = Ok None
  /\ parse utc_host Tables.people_primitives
           (Example.people [Tables.people_page] []) []
     = Ok [("age"%string, [VNum (Z2F 23); VNum (Z2F 1)]);
           ("name"%string, [VStr "John"])]
  /\ fst (parseTable utc_host Tables.people_primitives "People" Tables.people_db)
     = Ok [ {| data := [("age"%string, VNum (Z2F 23));
                        ("name"%string, VStr "John")];
               rowNumber := 1 |};
            {| data := [("age"%string, VNum (Z2F 1));
                        ("name"%string, VUndefined)];
               rowNumber := 2 |} ].
Proof. repeat split; vm_compute; reflexivity. Qed.

(* ------------------------------------------------------------------ *)
(** ** Recovery of the variable-length metadata on Jet 3 *)

(** After a count mismatch on Jet 3 the outcome depends on the first
    position of the low byte of variableColumns alone. *)
Lemma recovery_by_position Prim this reverseRecord originalRecord n m :
  version this = VERSION_3 ->
  parseRelativeObjectMetadataStruct
    Prim (slice reverseRecord n None)
    (Some ((len originalRecord - 1) / 256)) VERSION_3 = Ok m ->
  variableLengthFieldCount m <> variableColumns (tableHeader this) ->
  parseDynamicLengthRecordsMetadata Prim this reverseRecord originalRecord n
  = if negb (indexOf (slice reverseRecord n None)
                     (variableColumns (tableHeader this) mod 256) =? 1)
       && (indexOf (slice reverseRecord n None)
                   (variableColumns (tableHeader this) mod 256) <? 10)
    then m' <- try_catch
                 (parseRelativeObjectMetadataStruct
                    Prim
                    (slice (slice reverseRecord n None)
                           (indexOf (slice reverseRecord n None)
                                    (variableColumns (tableHeader this) mod 256))
                           None)
                    (Some ((len originalRecord - 1) / 256)) VERSION_3)
                 (Throw ErrRecordMetadata) ;;
         Ok (Some (shift_end m'
                     (indexOf (slice reverseRecord n None)
                              (variableColumns (tableHeader this) mod 256))))
    else Ok None.
Proof.
  intros jet3 first_parse mismatch.
  unfold parseDynamicLengthRecordsMetadata.
  rewrite jet3. cbn [version_number]. change (3 <? 3) with false. cbv iota zeta.
  rewrite first_parse. cbn [bind try_catch shift_end variableLengthFieldCount].
  destruct (Z.eqb_spec (variableLengthFieldCount m)
                       (variableColumns (tableHeader this))); [contradiction|].
  reflexivity.
Qed.

(** C5 on the code: on Jet 3, after a field count that differs from
    variableColumns, the decoder looks for the first occurrence of the low
    byte of variableColumns and tests it with [!== 1 && < 10]. When the byte
    occurs nowhere (indexOf returns -1) the row is not dropped: the metadata
    is re-parsed from the last byte of the reversed record, and a failure of
    that parse is thrown as an error. When the byte is found at position 1
    the row is dropped although the position is within the first 10 bytes. *)
Theorem C5_recovery_misses_absent_byte_and_position_one :
  forall (Prim : Primitives) (this : AccessTable)
         (reverseRecord originalRecord : bytes) (n : Z) (m : RelativeMetadata),
    version this = VERSION_3 ->
    parseRelativeObjectMetadataStruct
      Prim (slice reverseRecord n None)
      (Some ((len originalRecord - 1) / 256)) VERSION_3 = Ok m ->
    variableLengthFieldCount m <> variableColumns (tableHeader this) ->
    (indexOf (slice reverseRecord n None)
             (variableColumns (tableHeader this) mod 256) = -1 ->
     parseDynamicLengthRecordsMetadata Prim this reverseRecord originalRecord n
     = (m' <- try_catch
                (parseRelativeObjectMetadataStruct
                   Prim (slice (slice reverseRecord n None) (-1) None)
                   (Some ((len originalRecord - 1) / 256)) VERSION_3)
                (Throw ErrRecordMetadata) ;;
        Ok (Some (shift_end m' (-1))))
     /\ parseDynamicLengthRecordsMetadata Prim this reverseRecord originalRecord n
        <> Ok None)
    /\ (indexOf (slice reverseRecord n None)
                (variableColumns (tableHeader this) mod 256) = 1 ->
        parseDynamicLengthRecordsMetadata Prim this reverseRecord originalRecord n
        = Ok None).
Proof.
  intros Prim this reverseRecord originalRecord n m Hv Hparse Hne.
  rewrite (@recovery_by_position Prim this reverseRecord originalRecord n m Hv Hparse Hne).
  split.
  - intros ->. cbn [Z.eqb negb andb Z.ltb Z.compare].
    split; [reflexivity|].
    destruct (try_catch _ _) as [m'|e|]; cbn [bind]; discriminate.
  - intros ->. reflexivity.
Qed.

Lemma C5_witness :
  parseDynamicLengthRecordsMetadata
    JetLayout.primitives (Example.people [] [])
    (rev Example.damaged_no_match) Example.damaged_no_match 1
  = Throw ErrRecordMetadata
  /\ parseDynamicLengthRecordsMetadata
       JetLayout.primitives (Example.people [] [])
       (rev Tables.damaged_at_one) Tables.damaged_at_one 1
     = Ok None.
Proof.
  split.
  - assert (Hparse :
        parseRelativeObjectMetadataStruct
          JetLayout.primitives (slice (rev Example.damaged_no_match) 1 None)
          (Some ((len Example.damaged_no_match - 1) / 256)) VERSION_3
        = Ok {| variableLengthFieldCount := 5;
                variableLengthJumpTable := [];
                variableLengthFieldOffsets := [3; 7; 108; 108; 105];
                varLenCount := 66;
                relativeMetadataEnd := 7 |})
      by (vm_compute; reflexivity).
    destruct (@C5_recovery_misses_absent_byte_and_position_one
                JetLayout.primitives (Example.people [] [])
                (rev Example.damaged_no_match) Example.damaged_no_match 1 _
                eq_refl Hparse)
      as [Habsent _]; [vm_compute; discriminate|].
    destruct Habsent as [Heq _]; [vm_compute; reflexivity|].
    rewrite Heq. vm_compute. reflexivity.
  - assert (Hparse :
        parseRelativeObjectMetadataStruct
          JetLayout.primitives (slice (rev Tables.damaged_at_one) 1 None)
          (Some ((len Tables.damaged_at_one - 1) / 256)) VERSION_3
        = Ok {| variableLengthFieldCount := 5;
                variableLengthJumpTable := [];
                variableLengthFieldOffsets := [1; 0; 3; 7; 108];
                varLenCount := 108;
                relativeMetadataEnd := 7 |})
      by (vm_compute; reflexivity).
    destruct (@C5_recovery_misses_absent_byte_and_position_one
                JetLayout.primitives (Example.people [] [])
                (rev Tables.damaged_at_one) Tables.damaged_at_one 1 _
                eq_refl Hparse)
      as [_ Hone]; [vm_compute; discriminate|].
    apply Hone. vm_compute. reflexivity.
Defined.

(** The search is for one byte. Here variableColumns is 1, the byte 01 sits
    at position 2 of the reversed record followed by 07, so the two-byte
    encoding 01 00 occurs nowhere; the metadata is re-parsed from position 2
    and the row emits the empty string for its variable-length column. *)
Lemma recovery_matches_low_byte_alone :
  indexOf (slice (rev Example.damaged_low_byte_only) 1 None) 1 = 2
  /\ at_index (slice (rev Example.damaged_low_byte_only) 1 None) 3 = Some 7
  /\ parseDynamicLengthRecordsMetadata
       JetLayout.primitives (Example.people [] [])
       (rev Example.damaged_low_byte_only) Example.damaged_low_byte_only 1
     = Ok (Some {| variableLengthFieldCount := 1;
                   variableLengthJumpTable := [];
                   variableLengthFieldOffsets := [7];
                   varLenCount := 7;
                   relativeMetadataEnd := 5 |})
  /\ parseRow utc_host JetLayout.primitives (Example.people [] [])
              Example.damaged_low_byte_only []
     = Ok [("age"%string, [VNum (Z2F 56)]); ("name"%string, [VStr ""])].
Proof. repeat split; vm_compute; reflexivity. Qed.

(** A failed recovery after an absent byte ends the whole [parse]. *)
Lemma absent_byte_fails_the_table :
  parse utc_host JetLayout.primitives
        (Example.people
           [Example.data_page 3 [Example.john; Example.damaged_no_match]] [])
        []
  = Throw ErrRecordMetadata.
Proof. vm_compute. reflexivity. Qed.

(* ================================================================== *)
(** * Further properties of the decoder *)

Unset Implicit Arguments.

(* ------------------------------------------------------------------ *)
(** ** utils.ts *)

Lemma compare_elements_zero a :
  forall b, List.length a = List.length b ->
            (compare_elements a b = 0 <-> a = b).
Proof.
  induction a as [|x a IH]; intros [|y b] Hlen; simpl in *; try discriminate.
  - tauto.
  - injection Hlen as Hlen.
    destruct (Z.eqb_spec x y) as [->|Hne].
    + rewrite IH by exact Hlen. split; [intros ->; reflexivity|].
      intros H. now inversion H.
    + split; [lia|]. intros H. inversion H. contradiction.
Qed.

Lemma compareUint8Arrays_eq (a b : bytes) :
  compareUint8Arrays a b = 0 <-> a = b.
Proof.
  unfold compareUint8Arrays, len.
  destruct (Z.eqb_spec (Z.of_nat (List.length a)) (Z.of_nat (List.length b)))
    as [Hl|Hl].
  - apply compare_elements_zero. lia.
  - split; [lia|]. intros ->. contradiction.
Qed.

Lemma compare_elements_swap a :
  forall b, compare_elements b a = - compare_elements a b.
Proof.
  induction a as [|x a IH]; intros [|y b]; cbn [compare_elements];
    try reflexivity.
  rewrite (Z.eqb_sym y x). destruct (x =? y); [apply IH|lia].
Qed.

(** X1: compareUint8Arrays is a comparator whose zero means equality: it
    returns 0 exactly on equal arrays (arrays of different lengths give the
    non-zero difference of the lengths, arrays of one length the difference
    of the first bytes that differ), and swapping the arguments negates the
    result. *)
Theorem compareUint8Arrays_zero_iff_equal :
  forall a b : bytes,
    (compareUint8Arrays a b = 0 <-> a = b)
    /\ compareUint8Arrays b a = - compareUint8Arrays a b.
Proof.
  intros a b. split; [apply compareUint8Arrays_eq|].
  unfold compareUint8Arrays. rewrite (Z.eqb_sym (len b) (len a)).
  destruct (len a =? len b); [apply compare_elements_swap|lia].
Qed.

Lemma len_nonneg (a : bytes) : 0 <= len a.
Proof. unfold len. lia. Qed.

Lemma len_app (a b : bytes) : len (a ++ b) = len a + len b.
Proof. unfold len. rewrite length_app. lia. Qed.

Lemma slice_length a i j :
  0 <= i -> i <= j -> j <= len a -> len (slice a i (Some j)) = j - i.
Proof.
  intros Hi Hij Hj. unfold slice, rel_index, len in *.
  destruct (Z.ltb_spec i 0); [lia|]. destruct (Z.ltb_spec j 0); [lia|].
  rewrite length_firstn, length_skipn. lia.
Qed.

Lemma slice_prefix a n :
  0 <= n -> slice a 0 (Some n) = firstn (Z.to_nat n) a.
Proof.
  intros Hn. unfold slice, rel_index, len.
  destruct (Z.ltb_spec 0 0); [lia|]. destruct (Z.ltb_spec n 0); [lia|].
  rewrite (Z.min_l 0) by lia. cbn [Z.to_nat skipn].
  destruct (Z.le_ge_cases n (Z.of_nat (List.length a))).
  - now rewrite (Z.min_l n), Z.sub_0_r by lia.
  - rewrite (Z.min_r n), Z.sub_0_r by lia.
    rewrite Nat2Z.id, firstn_all.
    symmetry. apply firstn_all2. lia.
Qed.

Lemma page_index_bound n ps i :
  0 < ps -> n mod ps = 0 -> (i < n / ps <-> i * ps < n).
Proof.
  intros Hps Hmod.
  assert (Hn : n = n / ps * ps)
    by (rewrite (Z.div_mod n ps) at 1 by lia; lia).
  rewrite Hn at 2. apply Z.mul_lt_mono_pos_r. exact Hps.
Qed.

Lemma is_magic_spec m pg :
  (compareUint8Arrays m (slice pg 0 (Some (len m))) =? 0) = true
  <-> has_magic m pg.
Proof.
  rewrite Z.eqb_eq, compareUint8Arrays_eq.
  rewrite slice_prefix by apply len_nonneg.
  unfold len. rewrite Nat2Z.id. unfold has_magic. split.
  - intros H. exists (skipn (List.length m) pg).
    rewrite H at 1. apply eq_sym, firstn_skipn.
  - intros [rest ->].
    rewrite firstn_app, Nat.sub_diag, firstn_all. cbn [firstn].
    now rewrite app_nil_r.
Qed.

(** X2: categorizePages accepts a buffer exactly when its length is a multiple
    of the page size, and then the data pages are exactly the pages that
    start with 01 01 and the table definitions exactly the pages that start
    with 02 01, each stored under its byte offset and each a full page. *)
Theorem categorizePages_pages :
  forall (dbData : bytes) (pageSize : Z),
    0 < pageSize ->
    (len dbData mod pageSize <> 0 ->
     categorizePages dbData pageSize = Throw ErrNotFull)
    /\ (len dbData mod pageSize = 0 ->
        exists tableDefs dataPages : PageMap bytes,
          categorizePages dbData pageSize = Ok (tableDefs, dataPages)
          /\ (forall k pg,
                 In (k, pg) dataPages
                 <-> page_offset (len dbData) pageSize k
                     /\ pg = page_at dbData pageSize k
                     /\ has_magic DATA_PAGE_MAGIC pg)
          /\ (forall k pg,
                 In (k, pg) tableDefs
                 <-> page_offset (len dbData) pageSize k
                     /\ pg = page_at dbData pageSize k
                     /\ has_magic TABLE_PAGE_MAGIC pg)
          /\ (forall k pg,
                 In (k, pg) dataPages \/ In (k, pg) tableDefs ->
                 len pg = pageSize)).
Proof.
  intros dbData pageSize Hps. unfold categorizePages. split.
  - intros Hne. destruct (Z.eqb_spec (len dbData mod pageSize) 0); [contradiction|].
    reflexivity.
  - intros Hmod. rewrite Hmod. cbn [Z.eqb].
    set (pages := map _ (seq 0 (Z.to_nat (len dbData / pageSize)))).
    assert (Hpages : forall k pg,
               In (k, pg) pages
               <-> page_offset (len dbData) pageSize k
                   /\ pg = page_at dbData pageSize k).
    { intros k pg. unfold pages, page_offset, page_at.
      rewrite in_map_iff. pose proof (len_nonneg dbData) as Hlen. split.
      - intros [n [Heq Hin]]. apply in_seq in Hin. inversion Heq; subst.
        split; [|reflexivity].
        exists (Z.of_nat n). repeat split; try lia.
        apply page_index_bound; auto. lia.
      - intros [[i [Hi [-> Hlt]]] ->].
        exists (Z.to_nat i). rewrite Z2Nat.id by lia. split; [reflexivity|].
        apply in_seq. split; [lia|].
        assert (i < len dbData / pageSize)
          by (apply page_index_bound; auto).
        lia. }
    eexists. eexists. split; [reflexivity|].
    assert (Hexcl : forall pg, has_magic TABLE_PAGE_MAGIC pg ->
                               ~ has_magic DATA_PAGE_MAGIC pg).
    { intros pg [r1 ->] [r2 H]. discriminate H. }
    split; [|split].
    + intros k pg. rewrite filter_In, Hpages. cbn [snd].
      rewrite is_magic_spec. tauto.
    + intros k pg. rewrite filter_In, Hpages. cbn [snd].
      rewrite andb_true_iff, negb_true_iff, is_magic_spec.
      split.
      * intros [H1 [_ H3]]. tauto.
      * intros [H1 [H2 H3]]. repeat split; auto.
        apply not_true_is_false. rewrite is_magic_spec. now apply Hexcl.
    + intros k pg H.
      assert (Hin : In (k, pg) pages)
        by (destruct H as [H|H]; apply filter_In in H; tauto).
      apply Hpages in Hin. destruct Hin as [[i [Hi [-> Hlt]]] ->].
      assert (Hidx : i < len dbData / pageSize)
        by (apply page_index_bound; auto).
      assert (Hle : (i + 1) * pageSize <= len dbData / pageSize * pageSize)
        by (apply Z.mul_le_mono_nonneg_r; lia).
      assert (Hn : len dbData = len dbData / pageSize * pageSize)
        by (rewrite (Z.div_mod (len dbData) pageSize) at 1 by lia; lia).
      unfold page_at. rewrite slice_length; lia.
Qed.

Lemma categorizePages_witness :
  exists tableDefs dataPages : PageMap bytes,
    categorizePages [1; 1; 7; 7; 2; 1; 7; 7; 9; 9; 9; 9] 4
    = Ok (tableDefs, dataPages)
    /\ (forall k pg,
           In (k, pg) dataPages
           <-> page_offset (len [1; 1; 7; 7; 2; 1; 7; 7; 9; 9; 9; 9]) 4 k
               /\ pg = page_at [1; 1; 7; 7; 2; 1; 7; 7; 9; 9; 9; 9] 4 k
               /\ has_magic DATA_PAGE_MAGIC pg)
    /\ (forall k pg,
           In (k, pg) tableDefs
           <-> page_offset (len [1; 1; 7; 7; 2; 1; 7; 7; 9; 9; 9; 9]) 4 k
               /\ pg = page_at [1; 1; 7; 7; 2; 1; 7; 7; 9; 9; 9; 9] 4 k
               /\ has_magic TABLE_PAGE_MAGIC pg)
    /\ (forall k pg,
           In (k, pg) dataPages \/ In (k, pg) tableDefs -> len pg = 4).
Proof.
  destruct (categorizePages_pages [1; 1; 7; 7; 2; 1; 7; 7; 9; 9; 9; 9] 4)
    as [_ H]; [lia|].
  apply H. reflexivity.
Defined.

Lemma unhex_hex_digit d :
  0 <= d < 16 -> unhex_digit (hex_digit d) = d.
Proof.
  intros Hd.
  assert (d = 0 \/ d = 1 \/ d = 2 \/ d = 3 \/ d = 4 \/ d = 5 \/ d = 6 \/ d = 7
          \/ d = 8 \/ d = 9 \/ d = 10 \/ d = 11 \/ d = 12 \/ d = 13 \/ d = 14
          \/ d = 15) as Hcases by lia.
  repeat destruct Hcases as [->|Hcases]; try subst d; reflexivity.
Qed.

Lemma unhex_hex2 b r :
  0 <= b < 256 ->
  unhex_pairs (hex_digit (b / 16) :: hex_digit (b mod 16) :: r)
  = b :: unhex_pairs r.
Proof.
  intros Hb. cbn [unhex_pairs].
  rewrite !unhex_hex_digit by (Z.to_euclidean_division_equations; lia).
  f_equal. Z.to_euclidean_division_equations. lia.
Qed.

(** The GUID string of sixteen bytes spells them out in the order read. *)
Lemma guid_bytes_uuidStringify b :
  List.length b = 16%nat -> all_bytes b -> guid_bytes (uuidStringify b) = b.
Proof.
  intros Hlen Hall.
  do 17 (destruct b as [|? b]; try discriminate Hlen).
  unfold all_bytes in Hall.
  repeat match goal with
         | H : Forall _ (_ :: _) |- _ => inversion H; clear H; subst
         end.
  unfold uuidStringify, list_slice, join_hex, hex2, guid_bytes.
  cbn [Nat.sub firstn skipn fold_right append list_ascii_of_string app].
  rewrite !unhex_hex2 by assumption.
  reflexivity.
Qed.

(** X3: uuidStringify prints a 16-byte GUID as 36 characters (32 lowercase hex
    digits and 4 dashes) and loses nothing: two 16-byte values with the same
    string are the same bytes. *)
Theorem uuidStringify_injective :
  forall a b : bytes,
    List.length a = 16%nat -> all_bytes a ->
    List.length b = 16%nat -> all_bytes b ->
    String.length (uuidStringify a) = 36%nat
    /\ (uuidStringify a = uuidStringify b -> a = b).
Proof.
  intros a b Ha Hra Hb Hrb. split.
  - do 17 (destruct a as [|? a]; try discriminate Ha). reflexivity.
  - intros H.
    rewrite <- (guid_bytes_uuidStringify a Ha Hra).
    rewrite <- (guid_bytes_uuidStringify b Hb Hrb).
    now rewrite H.
Qed.

Lemma uuidStringify_witness :
  String.length
    (uuidStringify [0; 17; 34; 51; 68; 85; 102; 119;
                    136; 153; 170; 187; 204; 221; 238; 255]) = 36%nat
  /\ (uuidStringify [0; 17; 34; 51; 68; 85; 102; 119;
                     136; 153; 170; 187; 204; 221; 238; 255]
      = uuidStringify [0; 17; 34; 51; 68; 85; 102; 119;
                       136; 153; 170; 187; 204; 221; 238; 255] ->
      [0; 17; 34; 51; 68; 85; 102; 119; 136; 153; 170; 187; 204; 221; 238; 255]
      = [0; 17; 34; 51; 68; 85; 102; 119; 136; 153; 170; 187; 204; 221; 238; 255]).
Proof.
  apply uuidStringify_injective;
    first [reflexivity | repeat constructor; lia].
Defined.

Lemma le_uint_le_bytes n z :
  le_uint (le_bytes n z) = z mod 256 ^ Z.of_nat n.
Proof.
  revert z. induction n as [|n IH]; intros z.
  - cbn. now rewrite Z.mod_1_r.
  - cbn [le_bytes le_uint fold_right].
    change (fold_right (fun b acc => b + 256 * acc) 0 (le_bytes n (z / 256)))
      with (le_uint (le_bytes n (z / 256))).
    rewrite IH, Nat2Z.inj_succ, Z.pow_succ_r by lia.
    rewrite Z.rem_mul_r by lia. reflexivity.
Qed.

Lemma length_le_bytes n z : List.length (le_bytes n z) = n.
Proof. revert z. induction n; intros z; cbn; auto. Qed.

Lemma view_prefix (n : nat) z rest :
  view (le_bytes n z ++ rest) 0 (Z.of_nat n) = Ok (le_bytes n z).
Proof.
  unfold view. rewrite len_app. unfold len at 1. rewrite length_le_bytes.
  pose proof (len_nonneg rest).
  destruct (Z.leb_spec (0 + Z.of_nat n) (Z.of_nat n + len rest)); [|lia].
  cbn [Z.to_nat skipn]. rewrite Nat2Z.id.
  rewrite firstn_app, length_le_bytes, Nat.sub_diag. cbn [firstn].
  rewrite app_nil_r.
  rewrite <- (length_le_bytes n z) at 1. now rewrite firstn_all.
Qed.

Lemma signed_mod w z :
  0 < w -> - 2 ^ (w - 1) <= z < 2 ^ (w - 1) -> signed w (z mod 2 ^ w) = z.
Proof.
  intros Hw Hz. unfold signed.
  assert (H2 : 2 ^ w = 2 * 2 ^ (w - 1))
    by (rewrite <- Z.pow_succ_r by lia; f_equal; lia).
  assert (0 < 2 ^ (w - 1)) by (apply Z.pow_pos_nonneg; lia).
  destruct (Z.le_gt_cases 0 z).
  - rewrite Z.mod_small by lia.
    destruct (Z.ltb_spec z (2 ^ (w - 1))); lia.
  - assert (Hm : z mod 2 ^ w = z + 2 ^ w).
    { symmetry. apply Z.mod_unique with (q := -1); lia. }
    rewrite Hm.
    destruct (Z.ltb_spec (z + 2 ^ w) (2 ^ (w - 1))); lia.
Qed.

(** X4: Round trip of the fixed integers: parseType applied to the
    little-endian two's complement bytes of an integer that fits the type
    (whatever follows them in the buffer) returns that integer, for Int8,
    Int16, Int32 and Complex. *)
Theorem parseType_integer_round_trip :
  forall (P : Platform) (z : Z) (rest : bytes) (length : option Z)
         (version : Version),
    (-128 <= z < 128 ->
     parseType P DataType.Int8 (le_bytes 1 z ++ rest) length version
     = Ok (VNum (Z2F z)))
    /\ (-32768 <= z < 32768 ->
        parseType P DataType.Int16 (le_bytes 2 z ++ rest) length version
        = Ok (VNum (Z2F z)))
    /\ (-2147483648 <= z < 2147483648 ->
        parseType P DataType.Int32 (le_bytes 4 z ++ rest) length version
        = Ok (VNum (Z2F z))
        /\ parseType P DataType.Complex (le_bytes 4 z ++ rest) length version
           = Ok (VNum (Z2F z))).
Proof.
  intros P z rest length version.
  unfold parseType, DataType.Int8, DataType.Int16, DataType.Int32,
    DataType.Complex, getInt8, getInt16, getInt32.
  split; [intros Hz|split; [intros Hz|intros Hz; split]].
  - rewrite (view_prefix 1). cbn [bind]. rewrite le_uint_le_bytes.
    now rewrite (signed_mod 8) by (cbn; lia).
  - rewrite (view_prefix 2). cbn [bind]. rewrite le_uint_le_bytes.
    now rewrite (signed_mod 16) by (cbn; lia).
  - rewrite (view_prefix 4). cbn [bind]. rewrite le_uint_le_bytes.
    now rewrite (signed_mod 32) by (cbn; lia).
  - rewrite (view_prefix 4). cbn [bind]. rewrite le_uint_le_bytes.
    now rewrite (signed_mod 32) by (cbn; lia).
Qed.

Lemma parseType_integer_witness :
  parseType utc_host DataType.Int8 (le_bytes 1 (-2) ++ [9]) None VERSION_3
  = Ok (VNum (Z2F (-2)))
  /\ parseType utc_host DataType.Int16 (le_bytes 2 (-2) ++ [9]) None VERSION_3
     = Ok (VNum (Z2F (-2)))
  /\ parseType utc_host DataType.Int32 (le_bytes 4 (-2) ++ [9]) None VERSION_3
     = Ok (VNum (Z2F (-2))).
Proof.
  destruct (parseType_integer_round_trip utc_host (-2) [9] None VERSION_3)
    as [H8 [H16 H32]].
  split; [apply H8; lia|]. split; [apply H16; lia|].
  apply H32. lia.
Defined.

Lemma view_outcome b off n :
  (off + n <= len b /\ view b off n
                       = Ok (firstn (Z.to_nat n) (skipn (Z.to_nat off) b)))
  \/ (len b < off + n /\ view b off n = Throw RangeError).
Proof.
  unfold view. destruct (Z.leb_spec (off + n) (len b)); [left|right]; auto.
Qed.

(** [parseType_cases]: one goal per [case] of the [switch], with every
    DataView read resolved and the Date of the DateTime case named. *)
Ltac parseType_cases dataType :=
  unfold parseType, fixed_width, getInt8, getInt16, getInt32, getUint32,
    getFloat32, getFloat64, Date.toISOString;
  destruct dataType as [|p|p];
  try (do 5 (try destruct p as [p|p|]));
  repeat match goal with
         | |- context [view ?b ?off ?n] =>
             let H := fresh "Hview" in
             destruct (view_outcome b off n) as [[? H]|[? H]];
             rewrite H; clear H; cbn [bind]
         end;
  repeat match goal with
         | |- context [match ?d with Some _ => _ | None => _ end] =>
             destruct d; cbn [bind]
         | |- context [if ?c then _ else _] => destruct c
         end.

Lemma parseType_throw P dataType buffer length version e :
  parseType P dataType buffer length version = Throw e ->
  e = RangeError /\ fixed_width dataType <> None.
Proof.
  parseType_cases dataType; intros He; try discriminate He;
    inversion He; (split; [reflexivity|discriminate]).
Qed.

Lemma parseType_returns_or_throws P dataType buffer length version :
  parseType P dataType buffer length version <> Diverge.
Proof. parseType_cases dataType; discriminate. Qed.

Lemma parseType_short_buffer P dataType buffer length version w :
  fixed_width dataType = Some w -> len buffer < w ->
  parseType P dataType buffer length version = Throw RangeError.
Proof.
  parseType_cases dataType; intros Hw Hlen; try discriminate Hw;
    inversion Hw; subst; first [reflexivity | lia].
Qed.

Lemma parseType_wide_buffer P dataType buffer length version w :
  fixed_width dataType = Some w -> w <= len buffer ->
  dataType <> DataType.DateTime ->
  exists x : value, parseType P dataType buffer length version = Ok x.
Proof.
  parseType_cases dataType; intros Hw Hlen Hdt; try discriminate Hw;
    inversion Hw; subst;
    first [ eexists; reflexivity | lia | elim Hdt; reflexivity ].
Qed.

Lemma ToInteger_fadd_invalid (x y : number) :
  ToInteger y = None -> ToInteger (fadd x y) = None.
Proof.
  unfold fadd.
  destruct y as [sy|sy| |sy my ey]; try discriminate; intros _;
    destruct x as [sx|sx| |sx mx ex]; cbn [SFadd ToInteger];
    try reflexivity.
  destruct sx, sy; reflexivity.
Qed.

Lemma parseType_invalid_date P buffer length version d :
  getFloat64 buffer 0 = Ok d ->
  ToInteger (Math_floor d) = None ->
  parseType P DataType.DateTime buffer length version = Throw RangeError.
Proof.
  intros Hd Hinv. unfold parseType.
  change DataType.DateTime with 8. cbv iota. rewrite Hd. cbn [bind]. cbv zeta.
  unfold Date.setDate at 1.
  rewrite (ToInteger_fadd_invalid _ _ Hinv).
  destruct Date.epoch; reflexivity.
Qed.

(** X5: The exceptions of parseType. It throws nothing but a RangeError, and
    only for the eight fixed-width types. For such a type a buffer shorter
    than the width (the empty buffer included) always throws: the RangeError
    of the DataView read. On a buffer of at least the width every fixed-width
    type other than DateTime returns a value. DateTime can throw on such a
    buffer too: when its Float64 payload is NaN or infinite the Date is
    invalid and toISOString throws its own RangeError. For every other type
    code parseType returns a value on every buffer. *)
Theorem parseType_exceptions :
  forall (P : Platform) (dataType : Z) (buffer : bytes) (length : option Z)
         (version : Version),
    (forall e : error,
        parseType P dataType buffer length version = Throw e ->
        e = RangeError /\ fixed_width dataType <> None)
    /\ (forall w : Z,
           fixed_width dataType = Some w ->
           (len buffer < w ->
            parseType P dataType buffer length version = Throw RangeError)
           /\ (w <= len buffer -> dataType <> DataType.DateTime ->
               exists x : value,
                 parseType P dataType buffer length version = Ok x))
    /\ (forall d : number,
           dataType = DataType.DateTime ->
           getFloat64 buffer 0 = Ok d ->
           d = S754_nan \/ (exists s : bool, d = S754_infinity s) ->
           parseType P dataType buffer length version = Throw RangeError)
    /\ (fixed_width dataType = None ->
        exists x : value,
          parseType P dataType buffer length version = Ok x).
Proof.
  intros P dataType buffer length version.
  split; [intros e; apply parseType_throw|].
  split.
  { intros w Hw. split.
    - apply parseType_short_buffer. exact Hw.
    - apply parseType_wide_buffer. exact Hw. }
  split.
  { intros d -> Hd Hinv. eapply parseType_invalid_date; [exact Hd|].
    destruct Hinv as [->|[s ->]]; reflexivity. }
  intros Hnone.
  destruct (parseType P dataType buffer length version) as [x|e|] eqn:E.
  - now exists x.
  - apply parseType_throw in E. tauto.
  - now apply parseType_returns_or_throws in E.
Qed.

Lemma parseType_throws_witness :
  parseType utc_host DataType.Int32 [1; 2; 3] None VERSION_4 = Throw RangeError
  /\ (exists x : value,
         parseType utc_host DataType.Int32 [1; 2; 3; 4] None VERSION_4 = Ok x)
  /\ len float64_nan = 8
  /\ parseType utc_host DataType.DateTime float64_nan None VERSION_4
     = Throw RangeError
  /\ exists x : value,
      parseType utc_host DataType.Text [] None VERSION_4 = Ok x.
Proof.
  split; [|split; [|split; [|split]]].
  - destruct (parseType_exceptions utc_host DataType.Int32 [1; 2; 3] None VERSION_4)
      as [_ [H _]].
    destruct (H 4 eq_refl) as [Hshort _].
    apply Hshort. vm_compute. reflexivity.
  - destruct (parseType_exceptions utc_host DataType.Int32 [1; 2; 3; 4] None
                VERSION_4) as [_ [H _]].
    destruct (H 4 eq_refl) as [_ Hwide].
    apply Hwide; [vm_compute; discriminate|discriminate].
  - reflexivity.
  - destruct (parseType_exceptions utc_host DataType.DateTime float64_nan None
                VERSION_4) as [_ [_ [H _]]].
    apply (H S754_nan); [reflexivity|vm_compute; reflexivity|left; reflexivity].
  - destruct (parseType_exceptions utc_host DataType.Text [] None VERSION_4)
      as [_ [_ [_ H]]].
    apply H. reflexivity.
Defined.

(* ------------------------------------------------------------------ *)
(** ** The accumulator of a table *)

Lemma own_get_dico_replace A (d : Dico A) k a k' :
  own_get d k <> None ->
  own_get (dico_replace d k a) k'
  = if String.eqb k' k then Some a else own_get d k'.
Proof.
  induction d as [|[k0 a0] r IH]; cbn [own_get dico_replace]; intros Hk.
  - contradiction.
  - destruct (String.eqb_spec k k0) as [->|Hne]; cbn [own_get].
    + destruct (String.eqb k' k0); reflexivity.
    + rewrite IH by exact Hk.
      destruct (String.eqb_spec k' k0) as [->|Hne'];
        destruct (String.eqb_spec k0 k) as [E|E]; congruence.
Qed.

Lemma own_get_dico_insert_index A (d : Dico A) n k a k' :
  own_get d k = None ->
  own_get (dico_insert_index d n k a) k'
  = if String.eqb k' k then Some a else own_get d k'.
Proof.
  induction d as [|[k0 a0] r IH]; cbn [own_get dico_insert_index]; intros Hk.
  - reflexivity.
  - destruct (String.eqb_spec k k0) as [->|Hne]; [discriminate Hk|].
    destruct (array_index k0) as [n0|]; [destruct (n0 <? n)|];
      cbn [own_get]; try reflexivity.
    rewrite IH by exact Hk.
    destruct (String.eqb_spec k' k0) as [->|Hne'];
      destruct (String.eqb_spec k0 k) as [E|E]; congruence.
Qed.

Lemma own_get_app A (d : Dico A) k a k' :
  own_get d k = None ->
  own_get (d ++ [(k, a)]) k'
  = if String.eqb k' k then Some a else own_get d k'.
Proof.
  induction d as [|[k0 a0] r IH]; cbn [own_get app]; intros Hk.
  - reflexivity.
  - destruct (String.eqb_spec k k0) as [->|Hne]; [discriminate Hk|].
    rewrite IH by exact Hk.
    destruct (String.eqb_spec k' k0) as [->|Hne'];
      destruct (String.eqb_spec k0 k) as [E|E]; congruence.
Qed.

(** Lookup after assignment. *)
Lemma own_get_dico_set A (d : Dico A) k a k' :
  own_get (dico_set d k a) k'
  = if String.eqb k' k then Some a else own_get d k'.
Proof.
  unfold dico_set. destruct (own_get d k) eqn:E.
  - apply own_get_dico_replace. congruence.
  - destruct (array_index k).
    + now apply own_get_dico_insert_index.
    + now apply own_get_app.
Qed.

(** X6: What one push does to the accumulator: it throws a TypeError exactly
    when the column name is a member of Object.prototype that the table does
    not hold as its own key; otherwise the array of that column, created
    empty if absent, grows by the value at its end and every other column is
    left as it was. *)
Theorem push_value_appends :
  forall (pt : ParsedTable) (name : string) (v : value),
    (own_get pt name = None /\ is_proto_key name = true ->
     push_value pt name v = Throw TypeError)
    /\ (~ (own_get pt name = None /\ is_proto_key name = true) ->
        exists pt' : ParsedTable,
          push_value pt name v = Ok pt'
          /\ column_values pt' name = column_values pt name ++ [v]
          /\ forall other : string,
              other <> name -> own_get pt' other = own_get pt other).
Proof.
  intros pt name v. unfold push_value, ensure_column, array_push, dico_get.
  split.
  - intros [Hnone Hproto]. rewrite Hnone, Hproto. cbn iota.
    rewrite ?Hnone, ?Hproto. reflexivity.
  - intros Hnot. unfold column_values.
    destruct (own_get pt name) as [arr|] eqn:Eown.
    + rewrite Eown. eexists. split; [reflexivity|].
      split.
      * now rewrite own_get_dico_set, String.eqb_refl.
      * intros other Hne. rewrite own_get_dico_set.
        destruct (String.eqb_spec other name); congruence.
    + destruct (is_proto_key name) eqn:Eproto; [elim Hnot; auto|].
      rewrite own_get_dico_set, String.eqb_refl.
      eexists. split; [reflexivity|]. split.
      * now rewrite own_get_dico_set, String.eqb_refl.
      * intros other Hne. rewrite !own_get_dico_set.
        destruct (String.eqb_spec other name); congruence.
Qed.

Lemma push_value_values pt name v pt' :
  push_value pt name v = Ok pt' ->
  forall n, column_values pt' n
            = column_values pt n ++ (if String.eqb name n then [v] else []).
Proof.
  unfold push_value, ensure_column, array_push, dico_get, column_values.
  intros H n.
  destruct (own_get pt name) as [arr|] eqn:Eown.
  - rewrite Eown in H. inversion H; subst pt'.
    rewrite own_get_dico_set, (String.eqb_sym n name).
    destruct (String.eqb_spec name n) as [->|Hne].
    + now rewrite Eown.
    + now rewrite app_nil_r.
  - destruct (is_proto_key name) eqn:Eproto.
    + rewrite Eown in H. discriminate H.
    + rewrite own_get_dico_set, String.eqb_refl in H.
      inversion H; subst pt'.
      rewrite !own_get_dico_set, (String.eqb_sym n name).
      destruct (String.eqb_spec name n) as [->|Hne].
      * now rewrite Eown.
      * now rewrite app_nil_r.
Qed.

(** The arrays after a sequence of emissions. *)
Lemma emit_all_values es :
  forall pt pt',
    emit_all es pt = Ok pt' ->
    forall n, column_values pt' n = column_values pt n ++ values_for n es.
Proof.
  induction es as [|[c v] rest IH]; intros pt pt' H n; cbn [emit_all] in H.
  - inversion H; subst. unfold values_for. cbn. now rewrite app_nil_r.
  - run_bind H.
    rewrite (IH _ _ H n), (push_value_values _ _ _ _ E n), <- app_assoc.
    f_equal. unfold values_for, named. cbn [filter fst map].
    destruct (String.eqb (colNameStr c) n); reflexivity.
Qed.

Lemma push_value_witness :
  push_value [] "toString" VNull = Throw TypeError
  /\ exists pt' : ParsedTable,
      push_value [("age"%string, [VNull])] "age" (VStr "x") = Ok pt'
      /\ column_values pt' "age"
         = column_values [("age"%string, [VNull])] "age" ++ [VStr "x"]
      /\ forall other : string,
          other <> "age"%string ->
          own_get pt' other = own_get [("age"%string, [VNull])] other.
Proof.
  split.
  - destruct (push_value_appends [] "toString" VNull) as [H _].
    apply H. split; reflexivity.
  - destruct (push_value_appends [("age"%string, [VNull])] "age" (VStr "x"))
      as [_ H].
    apply H. intros [Hc _]. discriminate Hc.
Defined.

(* ------------------------------------------------------------------ *)
(** ** Parallel columns *)

Lemma filter_length_dico_insert_index (p : Column -> bool) d n k c :
  List.length (filter p (map snd (dico_insert_index d n k c)))
  = (List.length (filter p (map snd d)) + (if p c then 1 else 0))%nat.
Proof.
  induction d as [|[k0 c0] r IH]; cbn [dico_insert_index map snd filter].
  - destruct (p c); reflexivity.
  - destruct (array_index k0) as [n0|]; [destruct (n0 <? n)|];
      cbn [map snd filter].
    + destruct (p c0); cbn [List.length]; rewrite IH; lia.
    + destruct (p c); destruct (p c0); cbn [List.length]; lia.
    + destruct (p c); destruct (p c0); cbn [List.length]; lia.
Qed.

Lemma filter_length_dico_set (p : Column -> bool) (d : Dico Column) k c :
  own_get d k = None ->
  List.length (filter p (map snd (dico_set d k c)))
  = (List.length (filter p (map snd d)) + (if p c then 1 else 0))%nat.
Proof.
  intros Hk. unfold dico_set. rewrite Hk.
  destruct (array_index k).
  - apply filter_length_dico_insert_index.
  - rewrite map_app, filter_app, length_app. cbn [map snd filter].
    destruct (p c); reflexivity.
Qed.

Lemma variable_map_count (p : Column -> bool) cols :
  forall rel,
    NoDup (keys cols) ->
    (forall k, In k (keys cols) -> own_get rel k = None) ->
    List.length (filter p (map snd (variable_map cols rel)))
    = (List.length (filter p (map snd rel))
       + List.length (filter (fun c => negb (fixedLength c) && p c)
                             (map snd cols)))%nat.
Proof.
  unfold variable_map.
  induction cols as [|[k c] rest IH]; intros rel Hnd Hfree;
    cbn [fold_left map snd fst filter keys List.length] in *.
  - lia.
  - inversion Hnd as [|? ? Hnotin Hnd']; subst.
    destruct (fixedLength c) eqn:Ef; cbn [negb andb].
    + apply IH; auto. intros k0 Hin. apply Hfree. right. exact Hin.
    + rewrite IH; auto.
      * rewrite filter_length_dico_set by (apply Hfree; left; reflexivity).
        destruct (p c); cbn [List.length]; lia.
      * intros k' Hin. rewrite own_get_dico_set.
        destruct (String.eqb_spec k' k) as [->|Hne]; [contradiction|].
        apply Hfree. right. exact Hin.
Qed.

Lemma values_for_length n es :
  List.length (values_for n es)
  = List.length (filter (named n) (map fst es)).
Proof.
  unfold values_for. rewrite length_map.
  induction es as [|[c v] r IH]; cbn [filter map fst]; auto.
  destruct (named n c); cbn [List.length]; auto.
Qed.

Lemma filter_filter_length (p q : Column -> bool) l :
  List.length (filter p (filter q l))
  = List.length (filter (fun c => q c && p c) l).
Proof.
  induction l as [|c r IH]; cbn [filter]; auto.
  destruct (q c); cbn [filter andb]; [destruct (p c); cbn [List.length]|];
    auto.
Qed.

(** A row is dropped for its metadata on Jet 3 only. *)
Lemma metadata_dropped_on_jet3 Prim this reverseRecord originalRecord n :
  parseDynamicLengthRecordsMetadata Prim this reverseRecord originalRecord n
  = Ok None ->
  version this = VERSION_3.
Proof.
  unfold parseDynamicLengthRecordsMetadata.
  destruct (version this); cbn [version_number]; auto;
    match goal with
    | |- context [if ?c then _ else _] => change c with true; cbv iota
    end;
    intros H; run_bind H; discriminate H.
Qed.

(** What a decoded row adds to the table: one value for every fixed-length
    column, and one value for every variable-length column unless the row
    was dropped for its metadata, which happens on Jet 3 only. [kept] is 1
    for a complete row and 0 for a dropped one. *)
Lemma parseRow_growth :
  forall (P : Platform) (Prim : Primitives) (this : AccessTable)
         (record : bytes) (pt pt' : ParsedTable),
    NoDup (keys (columns this)) ->
    parseRow P Prim this record pt = Ok pt' ->
    exists kept : nat,
      (kept <= 1)%nat
      /\ (version this <> VERSION_3 -> kept = 1%nat)
      /\ forall name : string,
          List.length (column_values pt' name)
          = (List.length (column_values pt name)
             + fixed_named this name + kept * variable_named this name)%nat.
Proof.
  intros P Prim this record pt pt' Hnd H.
  unfold parseRow in H. cbv zeta in H.
  match type of H with
  | (if ?c then _ else _) = _ => destruct c; [|discriminate H]
  end.
  destruct (fixed_loop P this _ _ (columns this) [] pt)
    as [[rel pt1]|e|] eqn:Efix; cbn [bind] in H; try discriminate H.
  apply fixed_loop_emits in Efix.
  destruct Efix as [Hrel [fixed [Hmf [Hef _]]]].
  assert (Hfixed : forall name,
             List.length (column_values pt1 name)
             = (List.length (column_values pt name) + fixed_named this name)%nat).
  { intros name. rewrite (emit_all_values _ _ _ Hef name), length_app.
    rewrite values_for_length, Hmf, filter_filter_length. reflexivity. }
  destruct (parseDynamicLengthRecordsMetadata Prim this (rev record) record
              (nullTableLen_of (tableHeader this))) as [[meta|]|e|] eqn:Emeta;
    cbn [bind] in H; try discriminate H.
  - unfold parseDynamicLengthData in H.
    apply dynamic_loop_emits in H.
    destruct H as [variable [Hmv [Hev _]]].
    exists 1%nat. split; [lia|]. split; [reflexivity|].
    intros name.
    rewrite (emit_all_values _ _ _ Hev name), length_app, Hfixed.
    rewrite values_for_length, Hmv, Hrel.
    rewrite (variable_map_count (named name) (columns this) [] Hnd
               (fun k _ => eq_refl)).
    cbn [map filter List.length]. unfold variable_named. lia.
  - inversion H; subst pt1.
    exists 0%nat. split; [lia|].
    split; [intros Hv; elim Hv; eapply metadata_dropped_on_jet3; eassumption|].
    intros name. rewrite Hfixed. lia.
Qed.

(* ------------------------------------------------------------------ *)
(** ** The column dictionary of a table *)

Lemma own_get_None_keys A (d : Dico A) k :
  own_get d k = None <-> ~ In k (keys d).
Proof.
  induction d as [|[k0 a0] r IH]; cbn [own_get keys map fst In].
  - tauto.
  - destruct (String.eqb_spec k k0) as [->|Hne].
    + split; [discriminate|intros H; elim H; left; reflexivity].
    + unfold keys in IH. rewrite IH. split.
      * intros H [E|E]; [congruence|auto].
      * intros H E. apply H. right. exact E.
Qed.

Lemma in_dico_replace A (d : Dico A) k a k' a' :
  In (k', a') (dico_replace d k a) -> (k' = k /\ a' = a) \/ In (k', a') d.
Proof.
  induction d as [|[k0 a0] r IH]; cbn [dico_replace In]; auto.
  destruct (String.eqb_spec k k0) as [->|Hne]; cbn [In].
  - intros [E|E]; [left; inversion E; auto|right; right; exact E].
  - intros [E|E]; [right; left; exact E|].
    destruct (IH E); auto.
Qed.

Lemma in_dico_insert_index A (d : Dico A) n k a kv :
  In kv (dico_insert_index d n k a) <-> kv = (k, a) \/ In kv d.
Proof.
  induction d as [|[k0 a0] r IH]; cbn [dico_insert_index In].
  - intuition congruence.
  - destruct (array_index k0) as [n0|]; [destruct (n0 <? n)|]; cbn [In];
      rewrite ?IH; intuition congruence.
Qed.

Lemma NoDup_dico_insert_index A (d : Dico A) n k a :
  ~ In k (keys d) -> NoDup (keys d) ->
  NoDup (keys (dico_insert_index d n k a)).
Proof.
  unfold keys.
  induction d as [|[k0 a0] r IH]; cbn [dico_insert_index map fst In];
    intros Hk Hnd.
  - constructor; auto.
  - inversion Hnd as [|? ? H0 Hr]; subst.
    destruct (array_index k0) as [n0|]; [destruct (n0 <? n)|];
      cbn [map fst]; try (constructor; auto; fail).
    constructor.
    + intros Hin. apply in_map_iff in Hin. destruct Hin as [[k1 a1] [E Hin]].
      cbn [fst] in E. subst k1.
      apply in_dico_insert_index in Hin. destruct Hin as [E|Hin].
      * inversion E; subst. apply Hk. left. reflexivity.
      * apply H0. apply in_map_iff. exists (k0, a1). split; auto.
    + apply IH; auto.
Qed.

Lemma NoDup_dico_set A (d : Dico A) k a :
  NoDup (keys d) -> NoDup (keys (dico_set d k a)).
Proof.
  intros Hnd. unfold dico_set.
  destruct (own_get d k) eqn:E.
  - rewrite keys_dico_replace. exact Hnd.
  - apply own_get_None_keys in E.
    destruct (array_index k).
    + apply NoDup_dico_insert_index; auto.
    + unfold keys in *. rewrite map_app. cbn [map fst].
      apply NoDup_app; [exact Hnd|constructor; [intros []|constructor]|].
      intros x Hx [<-|[]]. contradiction.
Qed.

Lemma in_dico_set A (d : Dico A) k a k' a' :
  In (k', a') (dico_set d k a) -> (k' = k /\ a' = a) \/ In (k', a') d.
Proof.
  unfold dico_set.
  destruct (own_get d k) eqn:E.
  - apply in_dico_replace.
  - destruct (array_index k).
    + intros H. apply in_dico_insert_index in H.
      destruct H as [H|H]; [inversion H; auto|auto].
    + intros H. apply in_app_or in H.
      destruct H as [H|[H|[]]]; [auto|inversion H; auto].
Qed.

Lemma NoDup_fold_dico_set A B (f : B -> string) (g : B -> A) (l : list B) :
  forall d : Dico A,
    NoDup (keys d) ->
    NoDup (keys (fold_left (fun d x => dico_set d (f x) (g x)) l d)).
Proof.
  induction l as [|x r IH]; intros d Hnd; cbn [fold_left]; auto.
  apply IH. apply NoDup_dico_set. exact Hnd.
Qed.

Lemma in_fold_dico_set A B (f : B -> string) (g : B -> A) (l : list B) :
  forall (d : Dico A) k a,
    In (k, a) (fold_left (fun d x => dico_set d (f x) (g x)) l d) ->
    In (k, a) d \/ exists x, In x l /\ k = f x /\ a = g x.
Proof.
  induction l as [|x r IH]; intros d k a H; cbn [fold_left] in H; auto.
  apply IH in H. destruct H as [H|[y [Hy [Hk Ha]]]].
  - apply in_dico_set in H. destruct H as [[Hk Ha]|H]; auto.
    right. exists x. split; [left; reflexivity|auto].
  - right. exists y. split; [right; exact Hy|auto].
Qed.

Lemma in_firstn A (x : A) n :
  forall l, In x (firstn n l) -> In x l.
Proof.
  induction n as [|n IH]; intros l; destruct l as [|y l]; cbn [firstn In];
    try tauto.
  intros [E|E]; auto.
Qed.

Lemma name_columns_names cs :
  forall names cols,
    name_columns cs names = Ok cols ->
    List.length cols = List.length cs
    /\ map colNameStr cols = firstn (List.length cs) names.
Proof.
  induction cs as [|c r IH]; intros names cols H; cbn [name_columns] in H.
  - inversion H. split; reflexivity.
  - destruct names as [|n names']; [discriminate H|].
    destruct (name_columns r names') as [cols'|e|] eqn:E; cbn [bind] in H;
      try discriminate H.
    inversion H; subst cols. destruct (IH _ _ E) as [Hl Hn].
    cbn [List.length map colNameStr firstn]. rewrite Hl, Hn.
    split; reflexivity.
Qed.

Lemma name_columns_fields cs :
  forall names cols,
    name_columns cs names = Ok cols ->
    forall (i : nat) (c : Column),
      nth_error cols i = Some c ->
      nth_error names i = Some (colNameStr c)
      /\ exists raw : RawColumn,
          nth_error cs i = Some raw
          /\ type c = raw_type raw
          /\ fixedLength c = raw_fixedLength raw
          /\ fixedOffset c = raw_fixedOffset raw
          /\ columnIndex c = raw_columnIndex raw
          /\ columnID c = raw_columnID raw.
Proof.
  induction cs as [|raw r IH]; intros names cols H i c Hc;
    cbn [name_columns] in H.
  - inversion H; subst cols. destruct i; discriminate Hc.
  - destruct names as [|n names']; [discriminate H|].
    destruct (name_columns r names') as [cols'|e|] eqn:E; cbn [bind] in H;
      try discriminate H.
    inversion H; subst cols. destruct i as [|i]; cbn [nth_error] in *.
    + inversion Hc; subst c. cbn. split; [reflexivity|].
      exists raw. repeat split; reflexivity.
    + exact (IH _ _ E i c Hc).
Qed.

Lemma min_index_fold_le (r : list Column) :
  forall m : Z,
    fold_left (fun m x => Z.min m (columnIndex x)) r m <= m
    /\ forall c, In c r ->
                 fold_left (fun m x => Z.min m (columnIndex x)) r m
                 <= columnIndex c.
Proof.
  induction r as [|x r IH]; intros m; cbn [fold_left In].
  - split; [lia|intros c []].
  - destruct (IH (Z.min m (columnIndex x))) as [Hm Hin]. split; [lia|].
    intros c [->|Hc]; [lia|exact (Hin c Hc)].
Qed.

Lemma min_index_fold_attained (r : list Column) :
  forall m : Z,
    fold_left (fun m x => Z.min m (columnIndex x)) r m = m
    \/ exists c, In c r
                 /\ fold_left (fun m x => Z.min m (columnIndex x)) r m
                    = columnIndex c.
Proof.
  induction r as [|x r IH]; intros m; cbn [fold_left In].
  - left. reflexivity.
  - destruct (IH (Z.min m (columnIndex x))) as [E|[c [Hc E]]].
    + rewrite E. destruct (Z.min_spec m (columnIndex x)) as [[_ Hmin]|[_ Hmin]].
      * left. exact Hmin.
      * right. exists x. split; [left; reflexivity|exact Hmin].
    + right. exists c. split; [right; exact Hc|exact E].
Qed.

(** [min_index] is the smallest [columnIndex] of a non-empty list. *)
Lemma min_index_smallest (cs : list Column) :
  (forall c, In c cs -> min_index cs <= columnIndex c)
  /\ (cs <> [] -> exists c, In c cs /\ columnIndex c = min_index cs).
Proof.
  destruct cs as [|c0 r]; cbn [min_index].
  - split; [intros c []|intros H; elim H; reflexivity].
  - destruct (min_index_fold_le r (columnIndex c0)) as [Hm Hin]. split.
    + intros c [<-|Hc]; [exact Hm|exact (Hin c Hc)].
    + intros _.
      destruct (min_index_fold_attained r (columnIndex c0)) as [E|[c [Hc E]]].
      * exists c0. split; [left; reflexivity|symmetry; exact E].
      * exists c. split; [right; exact Hc|symmetry; exact E].
Qed.

(** X7: What [getTableColumns] guarantees when it returns. The header is the
    one parseTableHead reads from the table's page; the columns are those
    parseTableData reads from the definition data, which starts with the
    page after the header (and is nothing else when there is no next page),
    each with the name at its own position of columnNames. The dictionary
    holds only these columns, has exactly [columnCount] keys and no key
    twice, and every key is the decimal form of the column's index minus the
    smallest column index, or of its column ID. The only errors it throws
    itself are 'Failed to parse table header' and 'Expected N columns got
    M'; a TypeError comes from a column without a name. *)
Theorem getTableColumns_dictionary :
  forall (Prim : Primitives) (v : Version) (ps : Z) (td : PageMap bytes)
         (tbl : option TableObject),
    (forall (cols : Dico Column) (h : TableHeader),
        getTableColumns Prim v ps td tbl = Ok (cols, h) ->
        exists (t : TableObject) (more : bytes) (pd : TableData)
               (cs : list Column),
          tbl = Some t
          /\ parseTableHead Prim (tvalue t) v = Ok h
          /\ (nextPagePtr h = 0 -> more = [])
          /\ (nextPagePtr h <> 0 ->
              mergeTableData Prim td ps (nextPagePtr h) = Ok more)
          /\ parseTableData Prim
               (slice (tvalue t) (tDefHeaderEnd h) None ++ more)
               (realIndexCount h) (columnCount h) v = Ok pd
          /\ List.length cs = List.length (column pd)
          /\ (forall (i : nat) (c : Column),
                 nth_error cs i = Some c ->
                 nth_error (columnNames pd) i = Some (colNameStr c)
                 /\ exists raw : RawColumn,
                     nth_error (column pd) i = Some raw
                     /\ type c = raw_type raw
                     /\ fixedLength c = raw_fixedLength raw
                     /\ fixedOffset c = raw_fixedOffset raw
                     /\ columnIndex c = raw_columnIndex raw
                     /\ columnID c = raw_columnID raw)
          /\ (forall c, In c cs -> min_index cs <= columnIndex c)
          /\ (cs <> [] -> exists c, In c cs /\ columnIndex c = min_index cs)
          /\ NoDup (keys cols)
          /\ Z.of_nat (List.length cols) = columnCount h
          /\ forall (k : string) (c : Column),
              In (k, c) cols ->
              In c cs
              /\ (k = string_of_Z (columnIndex c - min_index cs)
                  \/ k = string_of_Z (columnID c)))
    /\ (forall e : error,
           getTableColumns Prim v ps td tbl = Throw e ->
           e = ErrTableHeader \/ e = ErrExpectedColumns \/ e = TypeError).
Proof.
  intros Prim v ps td tbl. unfold getTableColumns.
  match goal with
  | |- context [bind ?m _] => destruct m as [[h pd]|e0|] eqn:Ehead
  end; cbn [bind].
  2: { split; [intros ? ? H; discriminate H|].
       intros e H. inversion H; subst e.
       match type of Ehead with
       | match ?m with _ => _ end = _ => destruct m; inversion Ehead; auto
       end. }
  2: { split; intros; discriminate. }
  destruct (name_columns (column pd) (columnNames pd)) as [cs|e1|] eqn:En;
    cbn [bind].
  3: { split; intros; discriminate. }
  2: { split; [intros ? ? H; discriminate H|].
       intros e H. inversion H; subst e. right. right.
       clear Ehead. revert En. generalize (columnNames pd).
       induction (column pd) as [|c r IH]; intros names En;
         cbn [name_columns] in En; [discriminate En|].
       destruct names as [|n names']; [inversion En; reflexivity|].
       destruct (name_columns r names') eqn:E; cbn [bind] in En;
         try discriminate En.
       inversion En; subst. eapply IH. exact E. }
  assert (Hsrc : exists (t : TableObject) (more : bytes),
             tbl = Some t
             /\ parseTableHead Prim (tvalue t) v = Ok h
             /\ (nextPagePtr h = 0 -> more = [])
             /\ (nextPagePtr h <> 0 ->
                 mergeTableData Prim td ps (nextPagePtr h) = Ok more)
             /\ parseTableData Prim
                  (slice (tvalue t) (tDefHeaderEnd h) None ++ more)
                  (realIndexCount h) (columnCount h) v = Ok pd).
  { destruct tbl as [t|]; [|discriminate Ehead].
    destruct (parseTableHead Prim (tvalue t) v) as [h0|e|] eqn:Eh;
      cbn [bind] in Ehead; try discriminate Ehead.
    destruct (Z.eqb_spec (nextPagePtr h0) 0) as [Hnext|Hnext].
    - cbn [bind] in Ehead.
      destruct (parseTableData Prim _ _ _ v) as [pd0|e|] eqn:Ed;
        cbn [bind] in Ehead; try discriminate Ehead.
      inversion Ehead; subst h0 pd0.
      exists t, []. rewrite app_nil_r.
      repeat split; auto. intros H0. contradiction.
    - destruct (mergeTableData Prim td ps (nextPagePtr h0)) as [more|e|] eqn:Em;
        cbn [bind] in Ehead; try discriminate Ehead.
      destruct (parseTableData Prim _ _ _ v) as [pd0|e|] eqn:Ed;
        cbn [bind] in Ehead; try discriminate Ehead.
      inversion Ehead; subst h0 pd0.
      exists t, more. repeat split; auto. intros H0. contradiction. }
  clear Ehead.
  cbv zeta.
  pose (f1 := fun x : Column => string_of_Z (columnIndex x - min_index cs)).
  pose (f2 := fun x : Column => string_of_Z (columnID x)).
  match goal with
  | |- context [fold_left ?F cs []] => set (d1 := fold_left F cs [])
  end.
  match goal with
  | |- context [if ?c then d1 else ?e] => set (d2 := if c then d1 else e)
  end.
  assert (Hnd1 : NoDup (keys d1)).
  { apply (NoDup_fold_dico_set Column Column f1 (fun x => x)). constructor. }
  assert (Hnd2 : NoDup (keys d2)).
  { unfold d2. destruct (_ =? _); [exact Hnd1|].
    apply (NoDup_fold_dico_set Column Column f2 (fun x => x)). exact Hnd1. }
  assert (Hin1 : forall k c, In (k, c) d1 -> In c cs /\ k = f1 c).
  { intros k c H. apply (in_fold_dico_set Column Column f1 (fun x => x)) in H.
    destruct H as [[]|[x [Hx [Hk Hc]]]]. subst. auto. }
  assert (Hin2 : forall k c, In (k, c) d2 -> In c cs /\ (k = f1 c \/ k = f2 c)).
  { intros k c H. unfold d2 in H. destruct (_ =? _).
    - destruct (Hin1 _ _ H); auto.
    - apply (in_fold_dico_set Column Column f2 (fun x => x)) in H.
      destruct H as [H|[x [Hx [Hk Hc]]]].
      + destruct (Hin1 _ _ H); auto.
      + subst. auto. }
  destruct (Z.of_nat (List.length (keys d2)) =? columnCount h) eqn:Ecount.
  - split; [|intros e H; discriminate H].
    intros cols h' H. inversion H; subst cols h'.
    destruct Hsrc as [t [more [Ht [Hh [Hmore [Hmerge Hd]]]]]].
    destruct (name_columns_names _ _ _ En) as [Hlen _].
    destruct (min_index_smallest cs) as [Hmin Hatt].
    exists t, more, pd, cs.
    split; [exact Ht|]. split; [exact Hh|]. split; [exact Hmore|].
    split; [exact Hmerge|]. split; [exact Hd|]. split; [exact Hlen|].
    split; [exact (name_columns_fields _ _ _ En)|].
    split; [exact Hmin|]. split; [exact Hatt|].
    split; [exact Hnd2|].
    split; [unfold keys in Ecount; rewrite length_map in Ecount; lia|].
    exact Hin2.
  - split; [intros ? ? H; discriminate H|].
    intros e H. inversion H; auto.
Qed.

Lemma getTableColumns_witness :
  exists (cols : Dico Column) (h : TableHeader),
    getTableColumns Tables.people_primitives VERSION_3 PAGE_SIZE_V3 []
      (Some {| tvalue := Catalogs.tdef_page; linkedPages := [] |})
    = Ok (cols, h)
    /\ exists (t : TableObject) (more : bytes) (pd : TableData)
              (cs : list Column),
        Some {| tvalue := Catalogs.tdef_page; linkedPages := [] |} = Some t
        /\ parseTableHead Tables.people_primitives (tvalue t) VERSION_3 = Ok h
        /\ (nextPagePtr h = 0 -> more = [])
        /\ (nextPagePtr h <> 0 ->
            mergeTableData Tables.people_primitives [] PAGE_SIZE_V3
                           (nextPagePtr h) = Ok more)
        /\ parseTableData Tables.people_primitives
             (slice (tvalue t) (tDefHeaderEnd h) None ++ more)
             (realIndexCount h) (columnCount h) VERSION_3 = Ok pd
        /\ List.length cs = List.length (column pd)
        /\ (forall (i : nat) (c : Column),
               nth_error cs i = Some c ->
               nth_error (columnNames pd) i = Some (colNameStr c)
               /\ exists raw : RawColumn,
                   nth_error (column pd) i = Some raw
                   /\ type c = raw_type raw
                   /\ fixedLength c = raw_fixedLength raw
                   /\ fixedOffset c = raw_fixedOffset raw
                   /\ columnIndex c = raw_columnIndex raw
                   /\ columnID c = raw_columnID raw)
        /\ (forall c, In c cs -> min_index cs <= columnIndex c)
        /\ (cs <> [] -> exists c, In c cs /\ columnIndex c = min_index cs)
        /\ NoDup (keys cols)
        /\ Z.of_nat (List.length cols) = columnCount h
        /\ forall (k : string) (c : Column),
            In (k, c) cols ->
            In c cs
            /\ (k = string_of_Z (columnIndex c - min_index cs)
                \/ k = string_of_Z (columnID c)).
Proof.
  assert (E : exists cols h,
             getTableColumns Tables.people_primitives VERSION_3 PAGE_SIZE_V3 []
               (Some {| tvalue := Catalogs.tdef_page; linkedPages := [] |})
             = Ok (cols, h)).
  { eexists. eexists. vm_compute. reflexivity. }
  destruct E as [cols [h E]]. exists cols, h. split; [exact E|].
  destruct (getTableColumns_dictionary Tables.people_primitives VERSION_3
              PAGE_SIZE_V3 []
              (Some {| tvalue := Catalogs.tdef_page; linkedPages := [] |}))
    as [H _].
  exact (H cols h E).
Defined.

Lemma getTableColumns_NoDup Prim v ps td tbl cols h :
  getTableColumns Prim v ps td tbl = Ok (cols, h) -> NoDup (keys cols).
Proof.
  unfold getTableColumns.
  match goal with
  | |- context [bind ?m _] => destruct m as [[h0 pd]|e0|]
  end; cbn [bind]; try discriminate.
  destruct (name_columns (column pd) (columnNames pd)) as [cs|e1|];
    cbn [bind]; try discriminate.
  cbv zeta.
  match goal with
  | |- (if ?c then _ else _) = _ -> _ => destruct c; [|discriminate]
  end.
  intros H. inversion H; subst.
  assert (Hnd1 : forall f, NoDup (keys (fold_left
             (fun (d : Dico Column) x => dico_set d (f x) x) cs []))).
  { intros f. apply (NoDup_fold_dico_set Column Column f (fun x => x)).
    constructor. }
  match goal with
  | |- NoDup (keys (if ?c then _ else _)) => destruct c
  end.
  - apply Hnd1.
  - apply (NoDup_fold_dico_set Column Column
             (fun x => string_of_Z (columnID x)) (fun x => x)).
    apply Hnd1.
Qed.

(* ------------------------------------------------------------------ *)
(** ** Parallel columns of a parsed table *)

Section Growth.
Variable P : Platform.
Variable Prim : Primitives.
Variable this : AccessTable.
Hypothesis Hkeys : NoDup (keys (columns this)).

Lemma grown_refl pt : grown this pt pt 0 0.
Proof. repeat split; auto. intros name. lia. Qed.

Lemma grown_trans pt1 pt2 pt3 r1 k1 r2 k2 :
  grown this pt1 pt2 r1 k1 -> grown this pt2 pt3 r2 k2 ->
  grown this pt1 pt3 (r1 + r2) (k1 + k2).
Proof.
  intros [Hle1 [Hv1 H1]] [Hle2 [Hv2 H2]]. split; [lia|].
  split; [intros Hv; rewrite (Hv1 Hv), (Hv2 Hv); reflexivity|].
  intros name. rewrite H2, H1, !Nat.mul_add_distr_r. lia.
Qed.

Lemma parseRow_grown record pt pt' :
  parseRow P Prim this record pt = Ok pt' ->
  exists kept, grown this pt pt' 1 kept.
Proof.
  intros H.
  destruct (parseRow_growth P Prim this record pt pt' Hkeys H)
    as [kept [Hle [Hv Hlen]]].
  exists kept. split; [exact Hle|]. split; [exact Hv|].
  intros name. rewrite Hlen. lia.
Qed.

Lemma record_loop_grown originalData :
  forall offsets lastOffset pt pt',
    record_loop P Prim this originalData offsets lastOffset pt = Ok pt' ->
    exists rows kept,
      grown this pt pt' rows kept
      /\ (rows <= List.length (filter (fun o => negb (deleted o)) offsets))%nat.
Proof.
  induction offsets as [|recOffset rest IH]; intros lastOffset pt pt' H;
    cbn [record_loop] in H.
  - inversion H; subst. exists 0%nat, 0%nat. split; [apply grown_refl|].
    cbn. lia.
  - cbn [filter]. fold (deleted recOffset) in H |- *.
    destruct (deleted recOffset); cbn [negb].
    + apply IH in H. exact H.
    + cbn [List.length].
      match type of H with
      | (if ?c then _ else _) = _ => destruct c
      end.
      * cbv zeta in H. run_bind H. run_bind H.
        match type of H with
        | bind ?m _ = _ => destruct m as [pt1|e|] eqn:Erow
        end; cbn [bind] in H; try discriminate H.
        apply IH in H. destruct H as [rows [kept [Hg Hle]]].
        match type of Erow with
        | match ?r with _ => _ end = _ => destruct r as [record|]
        end.
        -- destruct (parseRow_grown _ _ _ Erow) as [k1 Hg1].
           exists (1 + rows)%nat, (k1 + kept)%nat.
           split; [exact (grown_trans _ _ _ _ _ _ _ Hg1 Hg)|lia].
        -- inversion Erow; subst pt1.
           exists rows, kept. split; [exact Hg|lia].
      * cbv zeta in H.
        match type of H with
        | bind ?m _ = _ => destruct m as [pt1|e|] eqn:Erow
        end; cbn [bind] in H; try discriminate H.
        apply IH in H. destruct H as [rows [kept [Hg Hle]]].
        destruct (parseRow_grown _ _ _ Erow) as [k1 Hg1].
        exists (1 + rows)%nat, (k1 + kept)%nat.
        split; [exact (grown_trans _ _ _ _ _ _ _ Hg1 Hg)|lia].
Qed.

Lemma page_loop_grown :
  forall pages pt pt',
    page_loop P Prim this pages pt = Ok pt' ->
    exists rows kept,
      grown this pt pt' rows kept
      /\ (rows <= live_slots Prim (version this) pages)%nat.
Proof.
  induction pages as [|dataChunk rest IH]; intros pt pt' H;
    cbn [page_loop live_slots] in *.
  - inversion H; subst. exists 0%nat, 0%nat. split; [apply grown_refl|lia].
  - destruct (parseDataPageHeader Prim dataChunk (version this))
      as [parsedData|e|]; cbn [bind] in H; try discriminate H.
    match type of H with
    | bind ?m _ = _ => destruct m as [pt1|e|] eqn:Epage
    end; cbn [bind] in H; try discriminate H.
    apply record_loop_grown in Epage.
    destruct Epage as [r1 [k1 [Hg1 Hle1]]].
    apply IH in H. destruct H as [r2 [k2 [Hg2 Hle2]]].
    exists (r1 + r2)%nat, (k1 + k2)%nat.
    split; [exact (grown_trans _ _ _ _ _ _ _ Hg1 Hg2)|lia].
Qed.
End Growth.

(** X8: The shape of a parsed table. A table built by the constructor and
    parsed from the empty accumulator holds, under every column name, one
    value per decoded row for each fixed-length column of that name and one
    value per complete row for each variable-length column of that name.
    There are no more decoded rows than record slots not marked deleted in
    the linked pages, and on Jet 4 and later every decoded row is complete:
    all columns with distinct names then have the same length. *)
Theorem parse_parallel_columns :
  forall (P : Platform) (Prim : Primitives) (tbl : TableObject)
         (v : Version) (ps : Z) (dp td : PageMap bytes)
         (this : AccessTable) (pt : ParsedTable),
    new_AccessTable Prim (Some tbl) v ps dp td = Ok this ->
    parse P Prim this [] = Ok pt ->
    exists rows kept : nat,
      (kept <= rows <= live_slots Prim v (linkedPages tbl))%nat
      /\ (v <> VERSION_3 -> kept = rows)
      /\ forall name : string,
          List.length (column_values pt name)
          = (rows * fixed_named this name
             + kept * variable_named this name)%nat.
Proof.
  intros P Prim tbl v ps dp td this pt Hnew Hparse.
  unfold new_AccessTable in Hnew.
  destruct (getTableColumns Prim v ps td (Some tbl)) as [[cols h]|e|] eqn:Ecols;
    cbn [bind] in Hnew; try discriminate Hnew.
  inversion Hnew; subst this. clear Hnew.
  apply getTableColumns_NoDup in Ecols.
  unfold parse in Hparse. cbn [table] in Hparse.
  apply page_loop_grown in Hparse; [|exact Ecols].
  destruct Hparse as [rows [kept [[Hle [Hv Hlen]] Hlive]]].
  cbn [version] in *.
  exists rows, kept. split; [lia|]. split; [exact Hv|].
  intros name. rewrite Hlen. reflexivity.
Qed.

Lemma parallel_columns_witness :
  exists (this : AccessTable) (pt : ParsedTable) (rows kept : nat),
    parse utc_host Tables.people_primitives this [] = Ok pt
    /\ (kept <= rows <= 2)%nat
    /\ List.length (column_values pt "age")
       = (rows * fixed_named this "age" + kept * variable_named this "age")%nat
    /\ List.length (column_values pt "name")
       = (rows * fixed_named this "name"
          + kept * variable_named this "name")%nat.
Proof.
  pose (tbl := {| tvalue := Catalogs.tdef_page;
                  linkedPages := [Tables.people_page] |}).
  assert (Hnew : exists this,
             new_AccessTable Tables.people_primitives (Some tbl) VERSION_3
               PAGE_SIZE_V3 [(2048, Tables.people_page)]
               [(6144, Catalogs.tdef_page)] = Ok this).
  { eexists. vm_compute. reflexivity. }
  destruct Hnew as [this Hnew].
  assert (Hparse : exists pt,
             parse utc_host Tables.people_primitives this [] = Ok pt).
  { unfold new_AccessTable in Hnew. vm_compute in Hnew.
    inversion Hnew; subst this. eexists. vm_compute. reflexivity. }
  destruct Hparse as [pt Hparse].
  destruct (parse_parallel_columns utc_host Tables.people_primitives tbl
              VERSION_3 PAGE_SIZE_V3 [(2048, Tables.people_page)]
              [(6144, Catalogs.tdef_page)] this pt Hnew Hparse)
    as [rows [kept [Hle [_ Hlen]]]].
  assert (Hlive : live_slots Tables.people_primitives VERSION_3
                    (linkedPages tbl) = 2%nat) by (vm_compute; reflexivity).
  rewrite Hlive in Hle.
  exists this, pt, rows, kept.
  split; [exact Hparse|]. split; [exact Hle|].
  split; apply Hlen.
Defined.

(* ------------------------------------------------------------------ *)
(** ** The constructor of the parser *)

Lemma parseFileHeader_outcome Prim s :
  parseFileHeader Prim s
  = match ACCESSHEADER_parse Prim (dbData s) with
    | Ok jet =>
        if jet =? 0 then (Ok tt, s)
        else if jet =? 1
             then (Ok tt, set_pageSize PAGE_SIZE_V4 (set_version VERSION_4 s))
        else if jet =? 2
             then (Ok tt, set_pageSize PAGE_SIZE_V4 (set_version VERSION_5 s))
        else if jet =? 3
             then (Ok tt, set_pageSize PAGE_SIZE_V4 (set_version VERSION_2010 s))
        else (Throw ErrUnknownVersion, s)
    | Throw _ => (Throw ErrFileHeader, s)
    | Diverge => (Diverge, s)
    end.
Proof.
  unfold parseFileHeader, bindM, read, lift, assign, ret, try_catch, includes.
  destruct (ACCESSHEADER_parse Prim (dbData s)) as [jet|e|]; try reflexivity.
  cbn [existsb].
  destruct (Z.eqb_spec jet 0) as [->|H0]; [reflexivity|].
  destruct (Z.eqb_spec jet 1) as [->|H1]; [reflexivity|].
  destruct (Z.eqb_spec jet 2) as [->|H2]; [reflexivity|].
  destruct (Z.eqb_spec jet 3) as [->|H3]; reflexivity.
Qed.

(** X9: What a parser that the constructor returns holds: the buffer it was
    given; the version and page size the header's version code selects
    (0: Jet 3 with 2048-byte pages; 1, 2, 3: Jet 4, 5, 2010 with 4096-byte
    pages); and the table-definition and data pages categorizePages cuts
    out of the buffer at that page size. *)
Theorem construct_establishes :
  forall (P : Platform) (Prim : Primitives) (d : bytes)
         (x this : AccessParser),
    construct P Prim d x = (Ok tt, this) ->
    dbData this = d
    /\ (exists jet : Z,
           ACCESSHEADER_parse Prim d = Ok jet
           /\ (jet = 0 \/ jet = 1 \/ jet = 2 \/ jet = 3)
           /\ version_number (p_version this)
              = (if jet =? 0 then 3 else if jet =? 1 then 4
                 else if jet =? 2 then 5 else 2010)
           /\ p_pageSize this
              = (if jet =? 0 then PAGE_SIZE_V3 else PAGE_SIZE_V4))
    /\ categorizePages d (p_pageSize this)
       = Ok (p_tableDefs this, p_dataPages this).
Proof.
  intros P Prim d x this H. unfold construct in H.
  cbv [bindM] in H. rewrite parseFileHeader_outcome in H.
  cbn [dbData] in H.
  destruct (ACCESSHEADER_parse Prim d) as [jet|e|]; try discriminate H.
  assert (Hjet : exists s1,
             (if jet =? 0 then (Ok tt, Database.fresh d)
              else if jet =? 1
                   then (Ok tt, set_pageSize PAGE_SIZE_V4
                                  (set_version VERSION_4 (Database.fresh d)))
              else if jet =? 2
                   then (Ok tt, set_pageSize PAGE_SIZE_V4
                                  (set_version VERSION_5 (Database.fresh d)))
              else if jet =? 3
                   then (Ok tt, set_pageSize PAGE_SIZE_V4
                                  (set_version VERSION_2010 (Database.fresh d)))
              else (Throw ErrUnknownVersion, Database.fresh d))
             = (Ok tt, s1)
             /\ dbData s1 = d
             /\ (jet = 0 \/ jet = 1 \/ jet = 2 \/ jet = 3)
             /\ version_number (p_version s1)
                = (if jet =? 0 then 3 else if jet =? 1 then 4
                   else if jet =? 2 then 5 else 2010)
             /\ p_pageSize s1
                = (if jet =? 0 then PAGE_SIZE_V3 else PAGE_SIZE_V4)).
  { destruct (Z.eqb_spec jet 0) as [E0|H0];
      [rewrite E0; eexists; repeat split; auto|].
    destruct (Z.eqb_spec jet 1) as [E1|H1];
      [rewrite E1; eexists; repeat split; auto|].
    destruct (Z.eqb_spec jet 2) as [E2|H2];
      [rewrite E2; eexists; repeat split; auto|].
    destruct (Z.eqb_spec jet 3) as [E3|H3];
      [rewrite E3; eexists; repeat split; auto 6|].
    exfalso. unfold Database.fresh in H. discriminate H. }
  destruct Hjet as [s1 [Es1 [Hd [Hj [Hv Hp]]]]].
  unfold Database.fresh in Es1. rewrite Es1 in H.
  cbv [read lift assign] in H. rewrite Hd in H.
  destruct (categorizePages d (p_pageSize s1)) as [[td dp]|e|] eqn:Epages;
    try discriminate H.
  cbn [fst snd] in H.
  rewrite linkTablesToData_spec in H.
  destruct (link_loop Prim _ _ _ _ []) as [twd|e|]; try discriminate H.
  pose proof (parseCatalog_frame P Prim
                (set_tablesWithData twd (set_pages td dp s1))) as Hframe.
  destruct (parseCatalog P Prim _) as [[c|e|] s2]; try discriminate H.
  cbn [snd] in Hframe. subst s2.
  inversion H; subst this.
  cbn [dbData p_version p_pageSize p_tableDefs p_dataPages
       set_catalog set_tablesWithData set_pages].
  split; [exact Hd|]. split; [|exact Epages].
  exists jet. auto.
Qed.

Lemma construct_witness :
  exists this : AccessParser,
    construct utc_host Database.file_primitives Database.file
              (Database.fresh []) = (Ok tt, this)
    /\ dbData this = Database.file
    /\ categorizePages Database.file (p_pageSize this)
       = Ok (p_tableDefs this, p_dataPages this).
Proof.
  assert (H : exists this,
             construct utc_host Database.file_primitives Database.file
                       (Database.fresh []) = (Ok tt, this)).
  { eexists. vm_compute. reflexivity. }
  destruct H as [this H]. exists this.
  destruct (construct_establishes utc_host Database.file_primitives
              Database.file (Database.fresh []) this H) as [Hd [_ Hp]].
  split; [exact H|]. split; [exact Hd|exact Hp].
Defined.

(** X10: What the constructor rejects before it reads any page: a buffer whose
    header does not parse ('Failed to parse file header'), a version code
    other than 0, 1, 2, 3 ('Unknown database version') and a buffer whose
    length is not a multiple of the page size of its version ('DB is not
    full or pageSize is wrong'). *)
Theorem construct_rejects :
  forall (P : Platform) (Prim : Primitives) (d : bytes) (x : AccessParser),
    (forall e : error,
        ACCESSHEADER_parse Prim d = Throw e ->
        fst (construct P Prim d x) = Throw ErrFileHeader)
    /\ (forall jet : Z,
           ACCESSHEADER_parse Prim d = Ok jet ->
           (jet < 0 \/ 3 < jet ->
            fst (construct P Prim d x) = Throw ErrUnknownVersion)
           /\ (0 <= jet <= 3 ->
               len d mod (if jet =? 0 then PAGE_SIZE_V3 else PAGE_SIZE_V4) <> 0 ->
               fst (construct P Prim d x) = Throw ErrNotFull)).
Proof.
  intros P Prim d x. unfold construct. cbv [bindM].
  rewrite parseFileHeader_outcome. cbn [dbData].
  split.
  - intros e He. rewrite He. reflexivity.
  - intros jet Hjet. rewrite Hjet. split.
    + intros Hout.
      destruct (Z.eqb_spec jet 0); [lia|]. destruct (Z.eqb_spec jet 1); [lia|].
      destruct (Z.eqb_spec jet 2); [lia|]. destruct (Z.eqb_spec jet 3); [lia|].
      reflexivity.
    + intros Hin Hmod.
      assert (Hcat : forall ps, len d mod ps <> 0 ->
                                categorizePages d ps = Throw ErrNotFull).
      { intros ps Hps. unfold categorizePages.
        destruct (Z.eqb_spec (len d mod ps) 0); [contradiction|reflexivity]. }
      destruct (Z.eqb_spec jet 0) as [->|H0].
      { cbv [read lift]. cbn [dbData p_pageSize].
        rewrite (Hcat _ Hmod). reflexivity. }
      destruct (Z.eqb_spec jet 1) as [->|H1].
      { cbv [read lift]. cbn [dbData p_pageSize set_pageSize set_version].
        rewrite (Hcat _ Hmod). reflexivity. }
      destruct (Z.eqb_spec jet 2) as [->|H2].
      { cbv [read lift]. cbn [dbData p_pageSize set_pageSize set_version].
        rewrite (Hcat _ Hmod). reflexivity. }
      destruct (Z.eqb_spec jet 3) as [->|H3]; [|lia].
      cbv [read lift]. cbn [dbData p_pageSize set_pageSize set_version].
      rewrite (Hcat _ Hmod). reflexivity.
Qed.

Lemma rejected_files_witness :
  fst (construct utc_host JetLayout.primitives [] (Database.fresh []))
  = Throw ErrFileHeader
  /\ fst (construct utc_host JetLayout.primitives
                    (repeat 0 20 ++ [7; 0; 0; 0]) (Database.fresh []))
     = Throw ErrUnknownVersion
  /\ fst (construct utc_host JetLayout.primitives
                    (repeat 0 20 ++ [1; 0; 0; 0]) (Database.fresh []))
     = Throw ErrNotFull.
Proof.
  split; [|split].
  - destruct (construct_rejects utc_host JetLayout.primitives []
                (Database.fresh [])) as [H _].
    apply (H RangeError). reflexivity.
  - destruct (construct_rejects utc_host JetLayout.primitives
                (repeat 0 20 ++ [7; 0; 0; 0]) (Database.fresh [])) as [_ H].
    destruct (H 7 eq_refl) as [H7 _]. apply H7. right. reflexivity.
  - destruct (construct_rejects utc_host JetLayout.primitives
                (repeat 0 20 ++ [1; 0; 0; 0]) (Database.fresh [])) as [_ H].
    destruct (H 1 eq_refl) as [_ H1]. apply H1.
    + split; discriminate.
    + vm_compute. discriminate.
Defined.

(* ------------------------------------------------------------------ *)
(** ** Linking data pages to tables *)





(* ------------------------------------------------------------------ *)
(** ** The catalog *)

(** The test against SYSTEM_TABLE_FLAGS adds nothing to [flags === 0]. *)
Lemma flag_test_redundant (fl : option value) :
  negb (existsb (fun f => is_number fl f) SYSTEM_TABLE_FLAGS)
  && is_number fl 0
  = is_number fl 0.
Proof.
  assert (Z0 : Z2F 0 = S754_zero false) by (vm_compute; reflexivity).
  destruct fl as [[| |b|f|s]|]; try reflexivity.
  destruct f as [s|s| |s m e].
  - destruct s; vm_compute; reflexivity.
  - unfold is_number at 2 3. rewrite Z0. destruct s; apply andb_false_r.
  - unfold is_number at 2 3. rewrite Z0. apply andb_false_r.
  - unfold is_number at 2 3. rewrite Z0.
    destruct s; apply andb_false_r.
Qed.

Lemma own_get_catalog_set c k v x :
  x <> "__proto__"%string ->
  own_get (entries (catalog_set c k v)) x
  = if String.eqb x k then Some v else own_get (entries c) x.
Proof.
  intros Hx. unfold catalog_set.
  destruct (has_proto c && String.eqb k "__proto__") eqn:E.
  - apply andb_prop in E. destruct E as [_ E].
    apply String.eqb_eq in E. subst k.
    destruct (String.eqb_spec x "__proto__"); [contradiction|].
    destruct v; reflexivity.
  - cbn [entries]. apply own_get_dico_set.
Qed.

(** One iteration of the catalog loop on a string name. *)
Lemma catalog_step types flags ids i c s x :
  x <> "__proto__"%string ->
  own_get (entries (catalog_loop [VStr s] types flags ids i c)) x
  = if is_number (at_index types (i + 1)) 1
       && is_number (at_index flags (i + 1)) 0
       && String.eqb x s
    then Some (or_undefined (at_index ids (i + 1)))
    else own_get (entries c) x.
Proof.
  intros Hx. cbn [catalog_loop is_string]. cbv zeta.
  rewrite flag_test_redundant.
  destruct (is_number (at_index types (i + 1)) 1); [|reflexivity].
  destruct (is_number (at_index flags (i + 1)) 0); [|reflexivity].
  rewrite own_get_catalog_set by exact Hx. reflexivity.
Qed.

Lemma catalog_loop_cons types flags ids s rest i c :
  catalog_loop (VStr s :: rest) types flags ids i c
  = catalog_loop rest types flags ids (i + 1)
      (catalog_loop [VStr s] types flags ids i c).
Proof. reflexivity. Qed.

Lemma catalog_loop_snoc types flags ids n :
  forall names i c,
    Forall (fun v => exists s, v = VStr s) names ->
    catalog_loop (names ++ [n]) types flags ids i c
    = catalog_loop [n] types flags ids (i + Z.of_nat (List.length names))
                   (catalog_loop names types flags ids i c).
Proof.
  induction names as [|v rest IH]; intros i c Hall.
  - cbn [app List.length]. now rewrite Z.add_0_r.
  - inversion Hall as [|? ? [s ->] Hrest]; subst.
    cbn [app].
    rewrite (catalog_loop_cons types flags ids s (rest ++ [n])).
    rewrite (catalog_loop_cons types flags ids s rest).
    rewrite IH by exact Hrest.
    replace (i + Z.of_nat (List.length (VStr s :: rest))) with (i + 1 + Z.of_nat (List.length rest))
      by (cbn [List.length]; lia).
    reflexivity.
Qed.

Lemma at_index_snoc A (l : list A) (a : A) (k : Z) :
  at_index (l ++ [a]) k
  = if k =? Z.of_nat (List.length l) then Some a else at_index l k.
Proof.
  unfold at_index.
  destruct (Z.ltb_spec k 0) as [Hneg|Hpos].
  - destruct (Z.eqb_spec k (Z.of_nat (List.length l))); [lia|reflexivity].
  - destruct (Z.eqb_spec k (Z.of_nat (List.length l))) as [E|Hne].
    + rewrite nth_error_app2 by lia.
      replace (Z.to_nat k - List.length l)%nat with 0%nat by lia.
      reflexivity.
    + destruct (Nat.lt_ge_cases (Z.to_nat k) (List.length l)) as [Hlt|Hge].
      * now rewrite nth_error_app1.
      * rewrite nth_error_app2 by exact Hge.
        destruct (Z.to_nat k - List.length l)%nat as [|m] eqn:Em; [lia|].
        cbn [nth_error]. destruct m; cbn [nth_error];
          symmetry; apply nth_error_None; exact Hge.
Qed.

Lemma at_index_bound A (l : list A) (k : Z) (a : A) :
  at_index l k = Some a -> 0 <= k < Z.of_nat (List.length l).
Proof.
  unfold at_index. destruct (Z.ltb_spec k 0) as [Hneg|Hpos]; [discriminate|].
  intros Hk. assert (Hs : nth_error l (Z.to_nat k) <> None) by congruence.
  apply nth_error_Some in Hs. lia.
Qed.

Lemma user_row_snoc names types flags x s k :
  user_row (names ++ [VStr s]) types flags x k
  <-> user_row names types flags x k
      \/ (k = Z.of_nat (List.length names) /\ s = x
          /\ is_number (at_index types k) 1 = true
          /\ is_number (at_index flags k) 0 = true).
Proof.
  unfold user_row. rewrite at_index_snoc.
  destruct (Z.eqb_spec k (Z.of_nat (List.length names))) as [E|Hne].
  - split.
    + intros [Hn [Ht Hf]]. right. inversion Hn. auto.
    + intros [[Hn _]|[_ [Hs [Ht Hf]]]].
      * apply at_index_bound in Hn. lia.
      * subst s. auto.
  - split; [auto|]. intros [H|[E _]]; [exact H|contradiction].
Qed.

Lemma catalog_loop_entries types flags ids x :
  x <> "__proto__"%string ->
  forall names,
    Forall (fun v => exists s, v = VStr s) names ->
    let c := catalog_loop names types flags ids (-1) Catalogs.empty in
    (own_get (entries c) x <> None
     <-> exists k, user_row names types flags x k)
    /\ forall v,
        own_get (entries c) x = Some v
        <-> exists k, user_row names types flags x k
                      /\ v = or_undefined (at_index ids k)
                      /\ forall k', k < k' -> ~ user_row names types flags x k'.
Proof.
  intros Hx names. induction names as [|n names IH] using rev_ind;
    intros Hall; cbv zeta.
  - cbn [catalog_loop Catalogs.empty entries own_get].
    assert (Hno : forall k, ~ user_row [] types flags x k).
    { intros k [Hn _]. apply at_index_bound in Hn.
      cbn [List.length] in Hn. lia. }
    split.
    + split; [congruence|]. intros [k Hk]. elim (Hno k Hk).
    + intros v. split; [discriminate|].
      intros [k [Hk _]]. elim (Hno k Hk).
  - apply Forall_app in Hall. destruct Hall as [Hall Hn].
    inversion Hn as [|? ? [s ->] _]; subst.
    specialize (IH Hall). cbv zeta in IH. destruct IH as [IHk IHv].
    rewrite catalog_loop_snoc by exact Hall.
    rewrite catalog_step by exact Hx.
    replace (-1 + Z.of_nat (List.length names) + 1) with (Z.of_nat (List.length names)) by lia.
    set (c := catalog_loop names types flags ids (-1) Catalogs.empty) in *.
    destruct (is_number (at_index types (Z.of_nat (List.length names))) 1
              && is_number (at_index flags (Z.of_nat (List.length names))) 0
              && String.eqb x s) eqn:Eq.
    + apply andb_prop in Eq. destruct Eq as [Eq Es].
      apply andb_prop in Eq. destruct Eq as [Et Ef].
      apply String.eqb_eq in Es. subst s.
      assert (Hlast : user_row (names ++ [VStr x]) types flags x (Z.of_nat (List.length names))).
      { apply user_row_snoc. right. auto. }
      assert (Hmax : forall k, user_row (names ++ [VStr x]) types flags x k ->
                               k <= Z.of_nat (List.length names)).
      { intros k [Hk _]. apply at_index_bound in Hk.
        rewrite length_app in Hk. cbn [List.length] in Hk. lia. }
      split.
      * split; [intros _; exists (Z.of_nat (List.length names)); exact Hlast|congruence].
      * intros v. split.
        -- intros Hv. inversion Hv; subst v. exists (Z.of_nat (List.length names)).
           split; [exact Hlast|]. split; [reflexivity|].
           intros k' Hlt Hk'. apply Hmax in Hk'. lia.
        -- intros [k [Hk [Hv Hnext]]].
           assert (k = Z.of_nat (List.length names)).
           { pose proof (Hmax k Hk).
             destruct (Z.eq_dec k (Z.of_nat (List.length names))) as [E|Hne]; [exact E|].
             elim (Hnext (Z.of_nat (List.length names))); [lia|exact Hlast]. }
           subst k v. reflexivity.
    + assert (Hsame : forall k,
                 user_row (names ++ [VStr s]) types flags x k
                 <-> user_row names types flags x k).
      { intros k. rewrite user_row_snoc. split; [|auto].
        intros [H|[Ek [Es [Et Ef]]]]; [exact H|].
        subst k s. rewrite Et, Ef, String.eqb_refl in Eq. discriminate Eq. }
      split.
      * rewrite IHk. split; intros [k Hk]; exists k; apply Hsame; exact Hk.
      * intros v. rewrite IHv. split; intros [k [Hk [Hv Hnext]]]; exists k.
        -- split; [apply Hsame; exact Hk|]. split; [exact Hv|].
           intros k' Hlt Hk'. apply (Hnext k' Hlt). apply Hsame. exact Hk'.
        -- split; [apply Hsame; exact Hk|]. split; [exact Hv|].
           intros k' Hlt Hk'. apply (Hnext k' Hlt). apply Hsame. exact Hk'.
Qed.

(** X12: What parseCatalog records when every Name of the catalog is a string:
    a name (other than __proto__) is a key of the table mapping, and so
    listed by getTables, exactly when some catalog row of that name has
    Type 1 and Flags 0, and it is mapped to the Id of the last such row. *)
Theorem parseCatalog_user_tables :
  forall (names types flags ids : list value) (x : string),
    Forall (fun v => exists s, v = VStr s) names ->
    x <> "__proto__"%string ->
    let c := catalog_loop names types flags ids (-1)
                          {| entries := []; has_proto := true |} in
    (In x (keys (entries c)) <-> exists k, user_row names types flags x k)
    /\ forall v : value,
        catalog_get c x = Own v
        <-> exists k : Z,
            user_row names types flags x k
            /\ v = or_undefined (at_index ids k)
            /\ forall k' : Z, k < k' -> ~ user_row names types flags x k'.
Proof.
  intros names types flags ids x Hall Hx. cbv zeta.
  destruct (catalog_loop_entries types flags ids x Hx names Hall) as [Hk Hv].
  cbv zeta in Hk, Hv. unfold Catalogs.empty in Hk, Hv.
  split.
  - rewrite <- Hk. split.
    + intros Hin Hnone. apply own_get_None_keys in Hnone. contradiction.
    + intros Hsome.
      destruct (in_dec string_dec x (keys (entries
         (catalog_loop names types flags ids (-1)
                       {| entries := []; has_proto := true |}))))
        as [Hin|Hout]; [exact Hin|].
      elim Hsome. apply own_get_None_keys. exact Hout.
  - intros v. rewrite <- Hv. unfold catalog_get.
    destruct (own_get _ x) as [a|].
    + split; intros H; inversion H; reflexivity.
    + split; [|discriminate].
      destruct (has_proto _ && is_proto_key x); discriminate.
Qed.

Lemma user_tables_witness :
  let names := [VStr "People"; VStr "MSysACEs"; VStr "People"] in
  let types := [VNum (Z2F 1); VNum (Z2F 1); VNum (Z2F 1)] in
  let flags := [VNum (Z2F 0); VNum (Z2F (-2147483648)); VNum (Z2F 0)] in
  let ids := [VNum (Z2F 7); VNum (Z2F 3); VNum (Z2F 9)] in
  let c := catalog_loop names types flags ids (-1)
                        {| entries := []; has_proto := true |} in
  (In "People"%string (keys (entries c))
   <-> exists k, user_row names types flags "People" k)
  /\ catalog_get c "People" = Own (VNum (Z2F 9)).
Proof.
  cbv zeta.
  destruct (parseCatalog_user_tables
              [VStr "People"; VStr "MSysACEs"; VStr "People"]
              [VNum (Z2F 1); VNum (Z2F 1); VNum (Z2F 1)]
              [VNum (Z2F 0); VNum (Z2F (-2147483648)); VNum (Z2F 0)]
              [VNum (Z2F 7); VNum (Z2F 3); VNum (Z2F 9)] "People")
    as [Hk _].
  - repeat constructor; eexists; reflexivity.
  - discriminate.
  - split; [exact Hk|]. vm_compute. reflexivity.
Defined.

(* ------------------------------------------------------------------ *)
(** ** The rows parseTable returns *)

Lemma own_get_fold_dico_set A (g : string -> A) (fields : list string) :
  forall (acc : Dico A) (x : string),
    own_get (fold_left (fun line field => dico_set line field (g field))
                       fields acc) x
    = if existsb (String.eqb x) fields then Some (g x) else own_get acc x.
Proof.
  induction fields as [|f rest IH]; intros acc x; cbn [fold_left existsb].
  - reflexivity.
  - rewrite IH, own_get_dico_set.
    destruct (String.eqb_spec x f) as [->|Hne]; cbn [orb].
    + destruct (existsb (String.eqb f) rest); reflexivity.
    + reflexivity.
Qed.

Lemma existsb_keys A (d : Dico A) (x : string) :
  existsb (String.eqb x) (keys d)
  = match own_get d x with Some _ => true | None => false end.
Proof.
  induction d as [|[k a] r IH]; cbn [keys map fst existsb own_get].
  - reflexivity.
  - destruct (String.eqb x k); cbn [orb]; [reflexivity|exact IH].
Qed.

Lemma nth_error_map_seq A (F : nat -> A) (n i : nat) :
  nth_error (map F (seq 0 n)) i = if (i <? n)%nat then Some (F i) else None.
Proof.
  destruct (Nat.ltb_spec i n) as [Hlt|Hge].
  - rewrite nth_error_map.
    rewrite (nth_error_nth' (seq 0 n) 0%nat) by (rewrite length_seq; exact Hlt).
    rewrite seq_nth by exact Hlt. reflexivity.
  - apply nth_error_None. rewrite length_map, length_seq. exact Hge.
Qed.

(** X13: The rows parseTable builds from the column arrays of a parsed table
    (which never has a column __proto__): as many rows as the first column
    has values; row [i] is numbered [i + 1] and holds, under
    every column name of the table and no other, the value at position [i]
    of that column, or undefined where the column is shorter. *)
Theorem parseTable_rows :
  forall (table : ParsedTable),
    ~ In "__proto__"%string (keys table) ->
    List.length (lines_of table)
    = match table with
      | [] => 0%nat
      | (_, first) :: _ => List.length first
      end
    /\ forall (i : nat) (line : Line),
        nth_error (lines_of table) i = Some line ->
        rowNumber line = Z.of_nat i + 1
        /\ forall field : string,
            own_get (data line) field
            = match own_get table field with
              | Some arr => Some (or_undefined (nth_error arr i))
              | None => None
              end.
Proof.
  intros table _. unfold lines_of.
  destruct table as [|[f0 first] rest].
  - cbn [keys map]. split; [reflexivity|].
    intros [|i] line H; discriminate H.
  - cbn [keys map fst]. cbv zeta.
    assert (Hf0 : own_get ((f0, first) :: rest) f0 = Some first).
    { cbn [own_get]. now rewrite String.eqb_refl. }
    rewrite Hf0. split.
    + rewrite length_map, length_seq. reflexivity.
    + intros i line H. rewrite nth_error_map_seq in H.
      destruct (i <? List.length first)%nat; [|discriminate H].
      match type of H with
      | Some ?X = Some _ => assert (El : line = X) by congruence
      end.
      rewrite El. clear H El. split; [reflexivity|]. cbv [data].
      intros field.
      rewrite (own_get_fold_dico_set value
                 (fun f => or_undefined
                             (nth_error match own_get ((f0, first) :: rest) f with
                                        | Some arr => arr
                                        | None => []
                                        end i))).
      pose proof (existsb_keys _ ((f0, first) :: rest) field) as Ek.
      cbn [keys map fst] in Ek. cbn beta. rewrite Ek.
      destruct (own_get ((f0, first) :: rest) field); reflexivity.
Qed.

Lemma table_rows_witness :
  let table : ParsedTable :=
    [("age"%string, [VStr "23"; VStr "1"]); ("name"%string, [VStr "John"])] in
  exists line : Line,
    nth_error (lines_of table) 1 = Some line
    /\ rowNumber line = 2
    /\ own_get (data line) "age" = Some (VStr "1")
    /\ own_get (data line) "name" = Some VUndefined.
Proof.
  cbv zeta.
  pose (table := [("age"%string, [VStr "23"; VStr "1"]);
                  ("name"%string, [VStr "John"])] : ParsedTable).
  assert (H : exists line, nth_error (lines_of table) 1 = Some line).
  { eexists. vm_compute. reflexivity. }
  destruct H as [line H]. exists line.
  assert (Hproto : ~ In "__proto__"%string (keys table)).
  { intros [E|[E|[]]]; discriminate E. }
  destruct (parseTable_rows table Hproto) as [_ Hrows].
  destruct (Hrows 1%nat line H) as [Hn Hf].
  split; [exact H|]. split; [exact Hn|].
  split; rewrite Hf; reflexivity.
Defined.

(* ------------------------------------------------------------------ *)
(** ** Memo columns *)

Lemma push_value_returns pt name v :
  own_get pt name <> None \/ is_proto_key name = false ->
  forall e, push_value pt name v <> Throw e.
Proof.
  intros Hname e. unfold push_value, ensure_column, array_push, dico_get.
  destruct (own_get pt name) as [arr|] eqn:Eown.
  - rewrite Eown. discriminate.
  - destruct Hname as [Hn|Hp]; [congruence|]. rewrite Hp.
    rewrite own_get_dico_set, String.eqb_refl. discriminate.
Qed.

Lemma push_value_ok pt name v :
  own_get pt name <> None \/ is_proto_key name = false ->
  exists pt' : ParsedTable,
    push_value pt name v = Ok pt'
    /\ forall n : string,
        column_values pt' n
        = column_values pt n ++ (if String.eqb name n then [v] else []).
Proof.
  intros Hname.
  destruct (push_value pt name v) as [pt'|e|] eqn:E.
  - exists pt'. split; [reflexivity|].
    exact (push_value_values pt name v pt' E).
  - elim (push_value_returns pt name v Hname e). exact E.
  - exfalso. revert E.
    unfold push_value, ensure_column, array_push, dico_get.
    destruct (own_get pt name) as [arr|] eqn:Eown.
    + rewrite Eown. cbv beta iota. intros E. discriminate E.
    + destruct Hname as [Hn|Hp]; [congruence|]. rewrite Hp.
      rewrite own_get_dico_set, String.eqb_refl. cbv beta iota.
      intros E. discriminate E.
Qed.

(** X14: A Memo field never makes its row fail. For a Memo column whose
    name is a key of the table already or no member of Object.prototype, the
    step of parseDynamicLengthData for that column throws nothing. When the
    null table does not mark the column and the field is not empty, the
    step appends one value to the array of the column and leaves every other
    array as it was: the value parseMemo returns for the bytes of the field,
    and, when parseMemo throws (memo header, overflow lookup or decoding),
    the bytes of the field decoded as UTF-8 text. *)
Theorem memo_column_never_throws :
  forall (P : Platform) (Prim : Primitives) (this : AccessTable)
         (originalRecord : bytes) (meta : RelativeMetadata)
         (nullTable : list bool) (i : Z) (column : Column) (jta : Z)
         (pt : ParsedTable),
    type column = DataType.Memo ->
    own_get pt (colNameStr column) <> None
    \/ is_proto_key (colNameStr column) = false ->
    (forall e : error,
        dynamic_step P Prim this originalRecord meta nullTable i column jta pt
        <> Throw e)
    /\ forall (jta' : Z) (data : bytes),
        at_index nullTable (columnID column) <> Some true ->
        variable_field this originalRecord meta i jta = (jta', Some data) ->
        forall v : value,
          parseMemo P Prim this data column = Ok v
          \/ ((exists e : error,
                  parseMemo P Prim this data column = Throw e)
              /\ v = VStr (decode P utf8 data)) ->
          exists pt' : ParsedTable,
            dynamic_step P Prim this originalRecord meta nullTable i column
                         jta pt
            = Ok (jta', pt')
            /\ forall n : string,
                column_values pt' n
                = column_values pt n
                  ++ (if String.eqb (colNameStr column) n then [v] else []).
Proof.
  intros P Prim this originalRecord meta nullTable i column jta pt
         Htype Hname.
  split.
  - intros e. unfold dynamic_step. cbv zeta.
    assert (Hpush : forall v (k : ParsedTable -> result (Z * ParsedTable)),
               (forall pt', k pt' <> Throw e) ->
               bind (push_value pt (colNameStr column) v) k <> Throw e).
    { intros v k Hk.
      pose proof (push_value_returns pt (colNameStr column) v Hname) as Hp.
      destruct (push_value pt (colNameStr column) v) as [pt'|e'|];
        cbn [bind]; [apply Hk|elim (Hp e'); reflexivity|discriminate]. }
    match goal with
    | |- (if ?c then _ else _) <> _ => destruct c
    end; [apply Hpush; discriminate|].
    match goal with
    | |- (if ?c then _ else _) <> _ => destruct c
    end; [apply Hpush; discriminate|].
    rewrite Htype. change (DataType.Memo =? DataType.Memo) with true. cbv iota.
    match goal with
    | |- context [try_catch ?m ?h] => destruct m as [parsed|e'|]
    end; cbn [try_catch bind]; try discriminate;
      apply Hpush; discriminate.
  - intros jta' data Hnull Hfield v Hv.
    destruct (push_value_ok pt (colNameStr column) v Hname)
      as [pt' [Hpush Hvalues]].
    exists pt'. split; [|exact Hvalues].
    unfold dynamic_step. unfold variable_field in Hfield.
    cbv zeta in Hfield |- *.
    assert (Hcond : (columnID column <? Z.of_nat (List.length nullTable))
                    && match at_index nullTable (columnID column) with
                       | Some true => true
                       | _ => false
                       end = false).
    { destruct (at_index nullTable (columnID column)) as [[|]|];
        [elim Hnull; reflexivity|apply andb_false_r|apply andb_false_r]. }
    rewrite Hcond.
    match type of Hfield with
    | (if ?c then _ else _) = _ => destruct c; [discriminate Hfield|]
    end.
    inversion Hfield as [[Hj Hd]]. rewrite Hd, Hj.
    rewrite Htype. change (DataType.Memo =? DataType.Memo) with true. cbv iota.
    destruct Hv as [Hv|[[e He] Hv]].
    + rewrite Hv. cbn [try_catch bind]. rewrite Hpush. reflexivity.
    + rewrite He. subst v. cbn [try_catch bind]. rewrite Hpush. reflexivity.
Qed.

Lemma memo_column_witness :
  let notes := {| colNameStr := "notes"; type := DataType.Memo;
                  fixedLength := false; fixedOffset := 0;
                  columnIndex := 1; columnID := 1 |} in
  let meta := {| variableLengthFieldCount := 1;
                 variableLengthJumpTable := [];
                 variableLengthFieldOffsets := [3];
                 varLenCount := 7;
                 relativeMetadataEnd := 3 |} in
  dynamic_step utc_host JetLayout.primitives (Example.people [] [])
               Example.john meta [false; false] 0 notes 0 []
  <> Throw PrimitiveError
  /\ variable_field (Example.people [] []) Example.john meta 0 0
     = (0, Some [74; 111; 104; 110])
  /\ parseMemo utc_host JetLayout.primitives (Example.people [] [])
               [74; 111; 104; 110] notes
     = Throw RangeError
  /\ exists pt' : ParsedTable,
      dynamic_step utc_host JetLayout.primitives (Example.people [] [])
                   Example.john meta [false; false] 0 notes 0 []
      = Ok (0, pt')
      /\ forall n : string,
          column_values pt' n
          = column_values [] n
            ++ (if String.eqb "notes" n
                then [VStr (decode utc_host utf8 [74; 111; 104; 110])]
                else []).
Proof.
  cbv zeta.
  pose (notes := {| colNameStr := "notes"; type := DataType.Memo;
                    fixedLength := false; fixedOffset := 0;
                    columnIndex := 1; columnID := 1 |}).
  pose (meta := {| variableLengthFieldCount := 1;
                   variableLengthJumpTable := [];
                   variableLengthFieldOffsets := [3];
                   varLenCount := 7;
                   relativeMetadataEnd := 3 |}).
  destruct (memo_column_never_throws utc_host JetLayout.primitives
              (Example.people [] []) Example.john meta [false; false] 0
              notes 0 [] eq_refl (or_intror eq_refl)) as [Hno Hval].
  assert (Hfield : variable_field (Example.people [] []) Example.john meta 0 0
                   = (0, Some [74; 111; 104; 110]))
    by (vm_compute; reflexivity).
  assert (Hmemo : parseMemo utc_host JetLayout.primitives
                    (Example.people [] []) [74; 111; 104; 110] notes
                  = Throw RangeError)
    by (vm_compute; reflexivity).
  split; [apply Hno|]. split; [exact Hfield|]. split; [exact Hmemo|].
  apply (Hval 0 [74; 111; 104; 110]).
  - vm_compute. discriminate.
  - exact Hfield.
  - right. split; [exists RangeError; exact Hmemo|reflexivity].
Defined.
